(** * Twikoo EdgeOne notification service: node-functions/api/notify.js

    A shallow embedding of the notification dispatcher (entry point, spam
    classification, QQ avatar lookup, notification fan-out, mail rendering,
    mail test) together with the properties stated about it.

    Conventions of the embedding.
    - A JavaScript string is a [string] whose characters are UTF-16 code
      units below 256 (Latin-1).  Literals of the source that lie outside
      that range (the Chinese log messages, the built-in mail layouts and
      default subjects) are represented by constructors that carry the
      interpolated values.
    - A field of a JSON object is a [value]; a missing key reads as
      [VUndefined].  The contents of an object-valued field are not
      inspected (the source never does), except for one thing: whether the
      object has a key [toString] of its own.  JSON never makes such a key
      callable, so an object that has one cannot be converted to a string,
      and [String(v)], a template literal, [RegExp.test], [replace],
      [parseInt] and [+] throw a TypeError on it.  Arrays convert by
      joining their elements.
    - The [data] of a request may be missing, and so may be the objects
      that a handler takes out of it ([comment], [config], [event],
      [parentComment]): [None] stands for [undefined] or [null].
    - Asynchronous code is embedded in a monad that threads the module
      variable [transporter], a counter of external calls, and the list of
      observable events (console output and calls to external libraries).
      A rejected promise is a [Throw]. *)

From stdpp Require Import gmap strings list.
From Stdlib Require Import ZArith String Ascii DecimalString Lia.

Local Open Scope string_scope.
Local Open Scope Z_scope.

(** ** Exceptions *)

(** What a [throw] or a rejected promise carries. *)
Inductive exn : Type :=
| TypeError                    (* a method called on a value that lacks it, a
                                  property read on undefined or null, an
                                  object without a string form *)
| ErrNoConfig                  (* config, SMTP_USER or SMTP_PASS missing *)
| ErrNoSmtpServer              (* neither SMTP_SERVICE nor SMTP_HOST *)
| ErrSmtpVerify (cause : exn)  (* [transporter.verify()] rejected *)
| ErrExternal (msg : string).  (* thrown by a library or network call *)

Inductive result (A : Type) : Type :=
| Ok (a : A)
| Throw (e : exn).
Arguments Ok {A} a.
Arguments Throw {A} e.

Definition rbind {A B} (r : result A) (k : A -> result B) : result B :=
  match r with
  | Ok a => k a
  | Throw e => Throw e
  end.

Notation "x <-? r ;; k" := (rbind r (fun x => k))
  (at level 100, r at level 99, right associativity).

(** ** JavaScript values *)

#[warnings="-register-all"]
Inductive value : Type :=
| VUndefined
| VNull
| VBool (b : bool)
| VNum (n : option Z)      (* [None] is NaN; [Some n] an integer number *)
| VStr (s : string)
| VObject (own_toString : bool)
                           (* a plain object; [true] when it has a key
                              [toString] of its own, as {"toString":1} has *)
| VArray (elems : list value).

(** ToBoolean *)
Definition truthy (v : value) : bool :=
  match v with
  | VUndefined | VNull => false
  | VBool b => b
  | VNum None => false
  | VNum (Some n) => negb (n =? 0)
  | VStr s => negb (String.eqb s "")
  | VObject _ | VArray _ => true
  end.

Definition falsy (v : value) : bool := negb (truthy v).

(** [join] of an array, given the conversion of an element. *)
Definition array_join (element : value -> result string)
  : list value -> result string :=
  fix join (l : list value) : result string :=
    match l with
    | [] => Ok ""
    | x :: rest =>
        s <-? element x ;;
        match rest with
        | [] => Ok s
        | _ :: _ => r <-? join rest ;; Ok (s +:+ "," +:+ r)
        end
    end.

(** ToString, as applied by [String(v)], template literals, [RegExp.test],
    the replacement of [replace] and [parseInt].  An object is converted by
    the first callable of its [toString] and [valueOf] that answers a
    primitive: for a plain object that is Object.prototype.toString, unless
    a key [toString] of its own hides it, and then nothing is left
    ([valueOf] answers the object itself).  An array is converted by
    [join]: its elements, converted in turn, with [undefined] and [null] as
    the empty string, separated by commas. *)
Fixpoint ToString (v : value) : result string :=
  match v with
  | VUndefined => Ok "undefined"
  | VNull => Ok "null"
  | VBool true => Ok "true"
  | VBool false => Ok "false"
  | VNum None => Ok "NaN"
  | VNum (Some n) => Ok (NilZero.string_of_int (Z.to_int n))
  | VStr s => Ok s
  | VObject own_toString =>
      if own_toString then Throw TypeError else Ok "[object Object]"
  | VArray elems =>
      array_join (fun x => match x with
                           | VUndefined | VNull => Ok ""
                           | _ => ToString x
                           end) elems
  end.

(** Induction on values, through the elements of an array. *)
Section ValueInduction.

Variable P : value -> Prop.
Hypothesis Hundefined : P VUndefined.
Hypothesis Hnull : P VNull.
Hypothesis Hbool : forall b, P (VBool b).
Hypothesis Hnum : forall n, P (VNum n).
Hypothesis Hstr : forall s, P (VStr s).
Hypothesis Hobject : forall own_toString, P (VObject own_toString).
Hypothesis Harray : forall elems, Forall P elems -> P (VArray elems).

Fixpoint value_induction (v : value) : P v :=
  match v with
  | VUndefined => Hundefined
  | VNull => Hnull
  | VBool b => Hbool b
  | VNum n => Hnum n
  | VStr s => Hstr s
  | VObject own_toString => Hobject own_toString
  | VArray elems =>
      Harray elems
        ((fix all (l : list value) : Forall P l :=
            match l with
            | [] => List.Forall_nil P
            | x :: rest => List.Forall_cons P x rest (value_induction x) (all rest)
            end) elems)
  end.

End ValueInduction.

(** ToPrimitive, as [+] applies it to its operands: an object or an array
    becomes its string. *)
Definition ToPrimitive (v : value) : result value :=
  match v with
  | VObject _ | VArray _ => s <-? ToString v ;; Ok (VStr s)
  | _ => Ok v
  end.

(** ToNumber on the primitives [+] can meet once neither is a string. *)
Definition ToNumber (v : value) : option Z :=
  match v with
  | VNull => Some 0
  | VBool true => Some 1
  | VBool false => Some 0
  | VNum n => n
  | _ => None
  end.

(** [a || b] and [a && b] *)
Definition js_or (a b : value) : value := if truthy a then a else b.
Definition js_and (a b : value) : value := if truthy a then b else a.

(** [a + b]: both operands are made primitive, the left one first; the
    result is a concatenation as soon as one of them is a string, and a
    numeric addition otherwise. *)
Definition js_add (a b : value) : result value :=
  pa <-? ToPrimitive a ;;
  pb <-? ToPrimitive b ;;
  match pa, pb with
  | VStr _, _ | _, VStr _ =>
      sa <-? ToString pa ;;
      sb <-? ToString pb ;;
      Ok (VStr (sa +:+ sb))
  | _, _ =>
      match ToNumber pa, ToNumber pb with
      | Some x, Some y => Ok (VNum (Some (x + y)))
      | _, _ => Ok (VNum None)
      end
  end.

(** [v === 'lit'] *)
Definition is_str (v : value) (lit : string) : bool :=
  match v with
  | VStr s => String.eqb s lit
  | _ => false
  end.

(** ** Strings *)

Definition char_code (c : ascii) : N := N_of_ascii c.

(** WhiteSpace and LineTerminator code points below 256. *)
Definition is_white (c : ascii) : bool :=
  let n := char_code c in
  ((9 <=? n) && (n <=? 13) || (n =? 32) || (n =? 160))%N.

(** Lower-case mapping of a Latin-1 code unit. *)
Definition lower (c : ascii) : ascii :=
  let n := char_code c in
  if ((65 <=? n) && (n <=? 90))%N then ascii_of_N (n + 32)
  else if ((192 <=? n) && (n <=? 222) && negb (n =? 215))%N
       then ascii_of_N (n + 32)
       else c.

Fixpoint trimStart (s : string) : string :=
  match s with
  | String c s' => if is_white c then trimStart s' else s
  | EmptyString => EmptyString
  end.

Fixpoint trimEnd (s : string) : string :=
  match s with
  | String c s' =>
      let t := trimEnd s' in
      if is_white c && String.eqb t "" then "" else String c t
  | EmptyString => EmptyString
  end.

Definition trim (s : string) : string := trimEnd (trimStart s).

Fixpoint toLowerCase (s : string) : string :=
  match s with
  | String c s' => String (lower c) (toLowerCase s')
  | EmptyString => EmptyString
  end.

(** [s.indexOf(c)] for a one-character search string: the first index, or -1. *)
Fixpoint indexOf (s : string) (c : ascii) : Z :=
  match s with
  | EmptyString => -1
  | String d s' =>
      if Ascii.eqb d c then 0
      else let i := indexOf s' c in if i =? -1 then -1 else i + 1
  end.

(** [s.substring(a, b)]: both indices are clamped to the string, and swapped
    when the first exceeds the second. *)
Definition js_substring (s : string) (a b : Z) : string :=
  let len := Z.of_nat (String.length s) in
  let clamp i := Z.min (Z.max i 0) len in
  let lo := Z.min (clamp a) (clamp b) in
  let hi := Z.max (clamp a) (clamp b) in
  String.substring (Z.to_nat lo) (Z.to_nat (hi - lo)) s.

Fixpoint str_take (n : nat) (s : string) : string :=
  match n, s with
  | S k, String c s' => String c (str_take k s')
  | _, _ => EmptyString
  end.

Fixpoint str_drop (n : nat) (s : string) : string :=
  match n, s with
  | S k, String _ s' => str_drop k s'
  | _, _ => s
  end.

(** ** Regular expressions

    The regular expressions of the source are sequences of quantified
    character sets, optionally anchored.  [atom]s are matched greedily
    with backtracking, as RegExp does. *)

Module Re.

Record atom : Type := Atom {
  accepts : ascii -> bool;
  rmin : nat;
  rmax : option nat          (* [None]: unbounded *)
}.

Record regex : Type := Regex {
  bol : bool;                (* starts with ^ *)
  atoms : list atom;
  eol : bool;                (* ends with $ (no m flag) *)
  global : bool              (* g flag *)
}.

Definition once (p : ascii -> bool) : atom := Atom p 1 (Some 1%nat).
Definition rep (p : ascii -> bool) (lo hi : nat) : atom := Atom p lo (Some hi).
Definition star (p : ascii -> bool) : atom := Atom p 0 None.

(** Character sets. *)
Definition chr (c : ascii) : ascii -> bool := Ascii.eqb c.
Definition chr_i (c : ascii) : ascii -> bool :=
  fun d => Ascii.eqb (lower d) (lower c).          (* a letter under the i flag *)
Definition range (a b : ascii) : ascii -> bool :=
  fun d => ((char_code a <=? char_code d) && (char_code d <=? char_code b))%N.
Definition not_chr (c : ascii) : ascii -> bool := fun d => negb (Ascii.eqb c d).
(** [.] without the s flag: anything but a line terminator. *)
Definition dot : ascii -> bool :=
  fun d => negb ((char_code d =? 10) || (char_code d =? 13))%N.

(** A literal word, one atom per character. *)
Fixpoint word (s : string) : list atom :=
  match s with
  | String c s' => once (chr c) :: word s'
  | EmptyString => []
  end.

Fixpoint word_i (s : string) : list atom :=
  match s with
  | String c s' => once (chr_i c) :: word_i s'
  | EmptyString => []
  end.

Definition below (k : nat) (hi : option nat) : bool :=
  match hi with
  | Some h => (k <? h)%nat
  | None => true
  end.

(** [repeat a next k s]: atom [a] has taken [k] characters so far; it first
    tries to take one more, and when that leads nowhere hands [s] over to
    [next], the rest of the pattern.  The result is the number of
    characters matched from [s] on. *)
Fixpoint repeat (a : atom) (next : string -> option nat) (k : nat) (s : string)
  {struct s} : option nat :=
  match s with
  | String c s' =>
      if below k (rmax a) && accepts a c then
        match repeat a next (S k) s' with
        | Some n => Some (S n)
        | None => if (rmin a <=? k)%nat then next s else None
        end
      else if (rmin a <=? k)%nat then next s else None
  | EmptyString => if (rmin a <=? k)%nat then next s else None
  end.

(** What is left to match once the atoms are used up. *)
Definition at_end (to_end : bool) (s : string) : option nat :=
  match s with
  | EmptyString => Some 0%nat
  | String _ _ => if to_end then None else Some 0%nat
  end.

(** [match_here r to_end s]: the length of the match of [r] that starts at
    the head of [s], if there is one. *)
Fixpoint match_here (r : list atom) (to_end : bool) (s : string)
  {struct r} : option nat :=
  match r with
  | [] => at_end to_end s
  | a :: r' => repeat a (match_here r' to_end) 0 s
  end.

(** [r.test(s)] *)
Fixpoint search (r : list atom) (to_end : bool) (s : string) : bool :=
  match match_here r to_end s with
  | Some _ => true
  | None =>
      match s with
      | String _ s' => search r to_end s'
      | EmptyString => false
      end
  end.

Definition test (r : regex) (s : string) : bool :=
  if bol r then
    match match_here (atoms r) (eol r) s with
    | Some _ => true
    | None => false
    end
  else search (atoms r) (eol r) s.

(** GetSubstitution for a pattern without capture groups: [$$] is a dollar
    sign, [$&] the matched text, [$`] the text before the match, [$'] the
    text after it; any other [$] stands for itself. *)
Fixpoint get_substitution (before matched after repl : string) : string :=
  match repl with
  | String "$" (String "$" t) =>
      String "$" (get_substitution before matched after t)
  | String "$" (String "&" t) =>
      matched +:+ get_substitution before matched after t
  | String "$" (String "`" t) =>
      before +:+ get_substitution before matched after t
  | String "$" (String "'" t) =>
      after +:+ get_substitution before matched after t
  | String c t => String c (get_substitution before matched after t)
  | EmptyString => EmptyString
  end.

(** The scan of [s.replace(r, repl)]: [before] is the part of the subject
    already passed, [skip] counts the characters of the current match still
    to drop, [active] tells whether a further match is looked for. *)
Fixpoint scan (r : regex) (repl : string) (before s : string)
  (skip : nat) (active : bool) {struct s} : string :=
  match skip with
  | S k =>
      match s with
      | String c s' => scan r repl (before +:+ String c "") s' k active
      | EmptyString => EmptyString
      end
  | O =>
      match (if active then match_here (atoms r) (eol r) s else None) with
      | Some n =>
          get_substitution before (str_take n s) (str_drop n s) repl +:+
          match s with
          | String c s' =>
              match n with
              | O => String c (scan r repl (before +:+ String c "") s' 0 (global r))
              | S k => scan r repl (before +:+ String c "") s' k (global r)
              end
          | EmptyString => EmptyString
          end
      | None =>
          match s with
          | String c s' => String c (scan r repl (before +:+ String c "") s' 0 active)
          | EmptyString => EmptyString
          end
      end
  end.

(** [s.replace(r, repl)] for a pattern without ^. *)
Definition replace (r : regex) (repl : string) (s : string) : string :=
  scan r repl "" s 0 true.

End Re.

(** The regular expressions of the source. *)

(** [/^[1-9][0-9]{4,10}$/] *)
Definition re_qq_number : Re.regex :=
  Re.Regex true [Re.once (Re.range "1" "9"); Re.rep (Re.range "0" "9") 4 10] true false.

(** [/^[1-9][0-9]{4,10}@qq.com$/i] *)
Definition re_qq_mail : Re.regex :=
  Re.Regex true
    ([Re.once (Re.range "1" "9"); Re.rep (Re.range "0" "9") 4 10]
       ++ Re.word_i "@qq" ++ [Re.once Re.dot] ++ Re.word_i "com")%list
    true false.

(** [/@qq\.com$/i] *)
Definition re_qq_suffix : Re.regex :=
  Re.Regex false (Re.word_i "@qq.com") true false.

(** [/@qq.com/ig] *)
Definition re_qq_anywhere : Re.regex :=
  Re.Regex false (Re.word_i "@qq" ++ [Re.once Re.dot] ++ Re.word_i "com")%list false true.

(** [/<[^>]*>/g] *)
Definition re_tag : Re.regex :=
  Re.Regex false [Re.once (Re.chr "<"); Re.star (Re.not_chr ">"); Re.once (Re.chr ">")]
    false true.

(** [/\${NAME}/g] *)
Definition re_placeholder (name : string) : Re.regex :=
  Re.Regex false (Re.word ("${" +:+ name +:+ "}")) false true.

(** ** Data model *)

(** A JSON object: [comment], [parentComment], [config]. *)
Abbreviation object := (gmap string value).

(** [o.k] *)
Definition get (o : object) (k : string) : value := default VUndefined (o !! k).

(** [RES_CODE] *)
Definition SUCCESS : Z := 0.
Definition FAIL : Z := 1000.
Definition NEED_LOGIN : Z := 1024.
Definition FORBIDDEN : Z := 1403.

(** The receiver of a String method ([replace], [indexOf], [substring]). *)
Definition as_string (v : value) : result string :=
  match v with
  | VStr s => Ok s
  | _ => Throw TypeError
  end.

(** *** Messages handed to the external services *)

Inductive smtp_server : Type :=
| Service (service : value)
| Host (host : value) (port_parseInt_of : value) (secure : bool).

Record transport_config : Type := TransportConfig {
  auth_user : value;
  auth_pass : value;
  server : smtp_server
}.

Inductive subject : Type :=
| SubjectGiven (v : value)                           (* taken from the configuration *)
| SubjectNewComment (site_name : string)             (* SITE_NAME + default text, mail *)
| SubjectNewReply (parent_nick site_name : string)
| SubjectPush (site_name : string).                  (* SITE_NAME + default text, push *)

Inductive body : Type :=
| BodyRendered (html : string)                       (* from a configured template *)
| BodyNewComment (site_url site_name nick comment post_url : string)
| BodyNewReply (site_url site_name parent_nick parent_comment nick comment post_url : string).

Record mail : Type := Mail {
  mail_from : string;
  mail_to : value;
  mail_subject : subject;
  mail_html : body
}.

(** The text of a push: nick, mail (twice), IP, stripped comment, link (twice). *)
Record push_content : Type := PushContent {
  pc_nick : string;
  pc_mail : string;
  pc_ip : string;
  pc_comment : string;
  pc_post_url : string
}.

Record push_message : Type := PushMessage {
  push_token : value;
  push_title : subject;
  push_body : push_content;
  push_bark_url : string
}.

Record moderation_params : Type := ModerationParams {
  tm_content : string;
  tm_data_id : value;
  tm_nickname : value;
  tm_ip : value;
  tm_biz_type : option value
}.

Record akismet_params : Type := AkismetParams {
  ak_user_ip : value;
  ak_user_agent : value;
  ak_permalink : value;
  ak_is_reply : bool;
  ak_author : value;
  ak_author_email : value;
  ak_author_url : value;
  ak_content : value
}.

(** Calls that leave the module. *)
Inductive request : Type :=
| CreateTransport (tc : transport_config)        (* nodemailer.createTransport *)
| VerifyTransport                                (* transporter.verify *)
| SendMail (m : mail)                            (* transporter.sendMail *)
| SendTestMail (from to : value)                 (* transporter.sendMail, the test message *)
| Pushoo (channel : value) (m : push_message)    (* pushoo *)
| TmsClient (secret_id secret_key : value)       (* import of the SDK, new Client *)
| TextModeration (p : moderation_params)
| AkismetVerifyKey (key blog : value)            (* new AkismetClient, verifyKey *)
| AkismetCheckSpam (p : akismet_params)
| HttpGet (url : string).                        (* axios.get *)

(** What such a call gives back: the value the caller reads from the result
    ([success], the send result, [checkResult.Suggestion], [isValid], the
    verdict, [result.data?.url]), or an exception. *)
Inductive reply : Type :=
| Returned (v : value)
| Raised (msg : string).

Inductive send_result : Type :=
| Sent (info : value)
| NotSent (e : exn).

(** Lines written to the console, one constructor per call site. *)
Inductive log : Type :=
| LogSmtpOk
| ErrMailerInit (e : exn)
| WarnMailerInit (e : exn)
| LogNoMailer
| LogOwnerComment
| LogPushPreferred
| LogMasterResult (r : send_result)
| LogNoPid
| LogNoParent
| LogReplyToOwner
| LogReplyToSelf
| LogReplyResult (r : send_result)
| LogNoPushoo
| LogPushResult (v : value)
| ErrNotice (e : exn)
| LogTmsParams (p : moderation_params)
| LogTmsResult (suggestion : value)
| WarnTmsFailed (e : exn)
| WarnAkismetKey (key : value)
| LogSpamVerdict (v : value)
| ErrSpamCheck (e : exn)
| WarnQQLookup (e : exn)
| LogStart
| LogQQAvatar (v : value)
| WarnQQAvatar (e : exn)
| LogSpamResult (v : value)
| ErrSpamFailed (e : exn)
| LogNoticeDone
| ErrNoticeFailed (e : exn)
| ErrPostSubmit (e : exn)
| ErrQQAvatar (e : exn)
| ErrNodeFunction (e : exn).

Inductive event : Type :=
| Log (l : log)
| Call (r : request).

Inductive message : Type :=
| MsgNotQQ
| MsgError (e : exn).

Inductive response : Type :=
| SubmitResult (code : Z) (isSpam avatar : value)
| AvatarResult (code : Z) (avatar : value)
| Failure (code : Z) (msg : message).

Definition code_of (r : response) : Z :=
  match r with
  | SubmitResult c _ _ | AvatarResult c _ | Failure c _ => c
  end.

(** The [message] of the answer of [handleEmailTest]. *)
Inductive test_message : Type :=
| MsgLogin                     (* the request to log in first *)
| MsgFailed (e : exn).         (* e.message *)

(** The object [res] that [handleEmailTest] fills; a field that was never
    assigned is absent. *)
Record test_response : Type := TestResponse {
  res_code : option Z;
  res_message : option test_message;
  res_result : option value
}.

(** The parameter of [handlePostSubmit], as it destructures it; an object
    that is [undefined] or [null] is [None]. *)
Record submit_data : Type := SubmitData {
  sd_comment : option object;
  sd_config : option object;
  sd_parentComment : option object
}.

(** The parameter of [handleEmailTest]. *)
Record test_data : Type := TestData {
  td_event : option object;
  td_config : option object;
  td_isAdmin : value
}.

(** The body of a request: [action] together with [data], which is [None]
    when it is [undefined] or [null]; of [data] each case keeps what the
    handler of the action takes out of it (for getQQAvatar that is
    [mail]). *)
Inductive action : Type :=
| PostSubmit (data : option submit_data)
| EmailTest (data : option test_data)
| GetQQAvatar (data : option value)
| OtherAction.                 (* any other value of [action] *)

Record http_request : Type := HttpRequest {
  internal_header : value;     (* request.headers.get('X-Twikoo-Internal') *)
  json : result (option action)
                               (* await request.json(); [None] is the body null *)
}.

(** What [onRequestPost] serialises into its Response; every Response
    carries the headers of [getCorsHeaders]. *)
Inductive answer : Type :=
| Forbidden                    (* { code: FORBIDDEN, message } *)
| Handled (r : response)
| Tested (r : test_response)
| UnknownAction                (* { code: FAIL, message } *)
| Crashed (e : exn).           (* { code: FAIL, message: e.message } *)

Definition answer_code (a : answer) : option Z :=
  match a with
  | Forbidden => Some FORBIDDEN
  | Handled r => Some (code_of r)
  | Tested r => res_code r
  | UnknownAction | Crashed _ => Some FAIL
  end.

(** The world outside: the answer to the [n]-th external call, and the pure
    library functions (which may throw on an argument they do not accept). *)
Record world : Type := World {
  respond : nat -> request -> reply;
  md5 : value -> result string;
  sha256_hex : value -> result string;           (* SHA256(x).toString() *)
  base64_utf8 : value -> result string           (* Base64.stringify(Utf8.parse(x)) *)
}.

(** ** The effect monad *)

Record state : Type := State {
  transporter : option transport_config;         (* [let transporter = null] *)
  clock : nat
}.

Definition M (A : Type) : Type := state -> result A * state * list event.

Definition ret {A} (a : A) : M A := fun st => (Ok a, st, []).

Definition throw {A} (e : exn) : M A := fun st => (Throw e, st, []).

Definition lift {A} (r : result A) : M A := fun st => (r, st, []).

Definition bind {A B} (m : M A) (k : A -> M B) : M B := fun st =>
  match m st with
  | (Ok a, st1, ev1) =>
      match k a st1 with
      | (r, st2, ev2) => (r, st2, (ev1 ++ ev2)%list)
      end
  | (Throw e, st1, ev1) => (Throw e, st1, ev1)
  end.

Notation "x <- m ;; k" := (bind m (fun x => k))
  (at level 100, m at level 99, right associativity).
Notation "m ;; k" := (bind m (fun _ => k))
  (at level 100, right associativity).

(** [try { m } catch (e) { h e }] *)
Definition try_catch {A} (m : M A) (h : exn -> M A) : M A := fun st =>
  match m st with
  | (Ok a, st1, ev1) => (Ok a, st1, ev1)
  | (Throw e, st1, ev1) =>
      match h e st1 with
      | (r, st2, ev2) => (r, st2, (ev1 ++ ev2)%list)
      end
  end.

Definition console (l : log) : M unit := fun st => (Ok tt, st, [Log l]).

Definition get_transporter : M (option transport_config) :=
  fun st => (Ok (transporter st), st, []).

Definition set_transporter (t : option transport_config) : M unit :=
  fun st => (Ok tt, State t (clock st), []).

Definition external (W : world) (req : request) : M value := fun st =>
  let st' := State (transporter st) (S (clock st)) in
  match respond W (clock st) req with
  | Returned v => (Ok v, st', [Call req])
  | Raised msg => (Throw (ErrExternal msg), st', [Call req])
  end.

(** The outcome of a promise once it has settled. *)
Definition settle {A} (m : M A) : M (option exn) :=
  try_catch (m ;; ret None) (fun e => ret (Some e)).

(** [Promise.all]: the attempts are started in order and all run to their
    end; the join rejects when one of them does.  The attempts only share
    [transporter], which the first to need it sets before it first
    suspends, so running them one after the other yields the same calls
    and console lines as any interleaving, up to their order. *)
Fixpoint promise_all (attempts : list (M (option exn))) : M (option exn) :=
  match attempts with
  | [] => ret None
  | a :: rest =>
      o <- a ;;
      o' <- promise_all rest ;;
      ret (match o with Some e => Some e | None => o' end)
  end.

Definition join (attempts : list (M (option exn))) : M unit :=
  o <- promise_all attempts ;;
  match o with
  | Some e => throw e
  | None => ret tt
  end.

(** ** The program *)

Definition normalizeMail (mail : value) : result string :=
  s <-? ToString mail ;;
  Ok (toLowerCase (trim s)).

Definition equalsMail (mail1 mail2 : value) : result bool :=
  if falsy mail1 || falsy mail2 then Ok false
  else
    n1 <-? normalizeMail mail1 ;;
    n2 <-? normalizeMail mail2 ;;
    Ok (String.eqb n1 n2).

(** Both tests convert [mail] to a string; the second runs only when the
    first fails, and then converts it to the same string. *)
Definition isQQ (mail : value) : result bool :=
  s <-? ToString mail ;;
  Ok (Re.test re_qq_number s || Re.test re_qq_mail s).

(** [url.indexOf('#')] is the method of a string or of an array; for an
    array it looks for an element that is the string "#", and an array has
    no [substring]. *)
Definition appendHashToUrl (url hash : value) : result string :=
  match url with
  | VStr u =>
      if indexOf u "#" =? -1 then
        h <-? ToString hash ;;
        Ok (u +:+ "#" +:+ h)
      else
        h <-? ToString hash ;;
        Ok (js_substring u 0 (indexOf u "#") +:+ "#" +:+ h)
  | VArray elems =>
      if existsb (fun x => is_str x "#") elems then Throw TypeError
      else
        u <-? ToString url ;;
        h <-? ToString hash ;;
        Ok (u +:+ "#" +:+ h)
  | _ => Throw TypeError
  end.

Definition stripHtml (html : value) : result string :=
  h <-? as_string html ;;
  Ok (trim (Re.replace re_tag "" h)).

(** [s.replace(/\${NAME}/g, v)] for each pair of [subst], in order; every
    pass converts its value to a string, whether the placeholder occurs or
    not. *)
Fixpoint substitute (subst : list (string * value)) (template : string)
  : result string :=
  match subst with
  | [] => Ok template
  | (name, v) :: rest =>
      r <-? ToString v ;;
      substitute rest (Re.replace (re_placeholder name) r template)
  end.

(** [`"${name}" <${email}>`] *)
Definition sender (config : object) : result string :=
  let quote := String (ascii_of_nat 34) "" in
  name <-? ToString (get config "SENDER_NAME") ;;
  email <-? ToString (get config "SENDER_EMAIL") ;;
  Ok (quote +:+ name +:+ quote +:+ " <" +:+ email +:+ ">").

(** [comment.href || SITE_URL + comment.url] with [comment.id || comment._id] *)
Definition post_url (comment config : object) : result string :=
  url <-? (if truthy (get comment "href") then Ok (get comment "href")
           else js_add (get config "SITE_URL") (get comment "url")) ;;
  appendHashToUrl url (js_or (get comment "id") (get comment "_id")).

Section Dispatcher.

Variable W : world.

Definition getMailMd5 (comment : object) : result value :=
  if truthy (get comment "mailMd5") then Ok (get comment "mailMd5")
  else if truthy (get comment "mail") then
    n <-? normalizeMail (get comment "mail") ;;
    h <-? md5 W (VStr n) ;;
    Ok (VStr h)
  else
    h <-? md5 W (get comment "nick") ;; Ok (VStr h).

Definition getMailSha256 (comment : object) : result value :=
  if truthy (get comment "mail") then
    n <-? normalizeMail (get comment "mail") ;;
    h <-? sha256_hex W (VStr n) ;;
    Ok (VStr h)
  else
    h <-? sha256_hex W (get comment "nick") ;; Ok (VStr h).

(** The default of line 123 is built, from the nick, before
    DEFAULT_GRAVATAR is looked at. *)
Definition getAvatar (comment config : object) : result value :=
  if truthy (get comment "avatar") then Ok (get comment "avatar")
  else
    let gravatarCdn := js_or (get config "GRAVATAR_CDN") (VStr "weavatar.com") in
    nick <-? ToString (get comment "nick") ;;
    let defaultGravatar :=
      if truthy (get config "DEFAULT_GRAVATAR") then get config "DEFAULT_GRAVATAR"
      else VStr ("initials&name=" +:+ nick) in
    mailHash <-? (if is_str gravatarCdn "cravatar.cn" then getMailMd5 comment
                  else getMailSha256 comment) ;;
    cdn <-? ToString gravatarCdn ;;
    hash <-? ToString mailHash ;;
    dflt <-? ToString defaultGravatar ;;
    Ok (VStr ("https://" +:+ cdn +:+ "/avatar/" +:+ hash +:+ "?d=" +:+ dflt)).

(** *** Mail *)

(** Lines 157-165.  [parseInt] converts its argument to a string. *)
Definition smtp_server_of (config : object) : result smtp_server :=
  if truthy (get config "SMTP_SERVICE") then Ok (Service (get config "SMTP_SERVICE"))
  else if truthy (get config "SMTP_HOST") then
    _ <-? ToString (get config "SMTP_PORT") ;;
    Ok (Host (get config "SMTP_HOST") (get config "SMTP_PORT")
          (is_str (get config "SMTP_SECURE") "true"))
  else Throw ErrNoSmtpServer.

Definition initMailer (config : option object) (throwErr : bool) : M bool :=
  try_catch
    (match config with
     | None => throw ErrNoConfig
     | Some config =>
         if falsy (get config "SMTP_USER") || falsy (get config "SMTP_PASS")
         then throw ErrNoConfig
         else
           srv <- lift (smtp_server_of config) ;;
           let transportConfig :=
             TransportConfig (get config "SMTP_USER") (get config "SMTP_PASS") srv in
           external W (CreateTransport transportConfig) ;;
           set_transporter (Some transportConfig) ;;
           try_catch
             (success <- external W VerifyTransport ;;
              if truthy success then console LogSmtpOk else ret tt)
             (fun error => throw (ErrSmtpVerify error)) ;;
           ret true
     end)
    (fun e =>
       if throwErr then console (ErrMailerInit e) ;; throw e
       else console (WarnMailerInit e) ;; ret false).

(** [!transporter && !await initMailer(config)] *)
Definition no_mailer (config : option object) : M bool :=
  t <- get_transporter ;;
  match t with
  | Some _ => ret false
  | None => ok <- initMailer config false ;; ret (negb ok)
  end.

(** [try { sendResult = await transporter.sendMail(m) } catch (e) { sendResult = e }]
    The argument [m] is built inside the [try]. *)
Definition send (m : result mail) : M send_result :=
  try_catch
    (m <- lift m ;; info <- external W (SendMail m) ;; ret (Sent info))
    (fun e => ret (NotSent e)).

(** The argument of [sendMail]: [from] is the only field that is computed. *)
Definition addressed (config : object) (to : value) (draft : subject * body)
  : result mail :=
  from <-? sender config ;;
  Ok (Mail from to draft.1 draft.2).

(** Lines 212-233: the body, from the configured template or the built-in
    layout. *)
Definition master_content (config : object)
  (SITE_URL SITE_NAME NICK IMG IP MAIL COMMENT : value) (POST_URL : string)
  : result body :=
  if truthy (get config "MAIL_TEMPLATE_ADMIN") then
    template <-? as_string (get config "MAIL_TEMPLATE_ADMIN") ;;
    html <-? substitute
               [("SITE_URL", SITE_URL); ("SITE_NAME", SITE_NAME); ("NICK", NICK);
                ("IMG", IMG); ("IP", IP); ("MAIL", MAIL); ("COMMENT", COMMENT);
                ("POST_URL", VStr POST_URL)]
               template ;;
    Ok (BodyRendered html)
  else
    site_url <-? ToString SITE_URL ;;
    site_name <-? ToString SITE_NAME ;;
    nick <-? ToString NICK ;;
    comment <-? ToString COMMENT ;;
    Ok (BodyNewComment site_url site_name nick comment POST_URL).

(** Lines 202-233: the subject and the body of the message for the owner. *)
Definition master_draft (comment config : object) : result (subject * body) :=
  let SITE_NAME := get config "SITE_NAME" in
  let NICK := get comment "nick" in
  IMG <-? getAvatar comment config ;;
  let IP := get comment "ip" in
  let MAIL := get comment "mail" in
  let COMMENT := get comment "comment" in
  let SITE_URL := get config "SITE_URL" in
  POST_URL <-? post_url comment config ;;
  emailSubject <-?
    (if truthy (get config "MAIL_SUBJECT_ADMIN")
     then Ok (SubjectGiven (get config "MAIL_SUBJECT_ADMIN"))
     else site_name <-? ToString SITE_NAME ;; Ok (SubjectNewComment site_name)) ;;
  emailContent <-?
    master_content config SITE_URL SITE_NAME NICK IMG IP MAIL COMMENT POST_URL ;;
  Ok (emailSubject, emailContent).

(** Lines 202-242: the message for the owner. *)
Definition master_mail (comment config : object) : result mail :=
  draft <-? master_draft comment config ;;
  addressed config (js_or (get config "BLOGGER_EMAIL") (get config "SENDER_EMAIL"))
    draft.

Definition noticeMaster (comment : object) (config : option object)
  : M (option send_result) :=
  skip <- no_mailer config ;;
  if skip then console LogNoMailer ;; ret None
  else
    match config with
    | None => throw TypeError
    | Some config =>
        owner <- lift (equalsMail (get config "BLOGGER_EMAIL") (get comment "mail")) ;;
        if owner then console LogOwnerComment ;; ret None
        else
          let hasIMPushConfig :=
            js_and (get config "PUSHOO_CHANNEL") (get config "PUSHOO_TOKEN") in
          if truthy hasIMPushConfig
             && negb (is_str (get config "SC_MAIL_NOTIFY") "true")
          then console LogPushPreferred ;; ret None
          else
            draft <- lift (master_draft comment config) ;;
            sendResult <-
              send (addressed config
                      (js_or (get config "BLOGGER_EMAIL") (get config "SENDER_EMAIL"))
                      draft) ;;
            console (LogMasterResult sendResult) ;;
            ret (Some sendResult)
    end.

(** Lines 284-313 *)
Definition reply_content (config : object)
  (IMG PARENT_IMG SITE_URL SITE_NAME PARENT_NICK PARENT_COMMENT NICK COMMENT : value)
  (POST_URL : string) : result body :=
  if truthy (get config "MAIL_TEMPLATE") then
    template <-? as_string (get config "MAIL_TEMPLATE") ;;
    html <-? substitute
               [("IMG", IMG); ("PARENT_IMG", PARENT_IMG); ("SITE_URL", SITE_URL);
                ("SITE_NAME", SITE_NAME); ("PARENT_NICK", PARENT_NICK);
                ("PARENT_COMMENT", PARENT_COMMENT); ("NICK", NICK);
                ("COMMENT", COMMENT); ("POST_URL", VStr POST_URL)]
               template ;;
    Ok (BodyRendered html)
  else
    site_url <-? ToString SITE_URL ;;
    site_name <-? ToString SITE_NAME ;;
    parent_nick <-? ToString PARENT_NICK ;;
    parent_comment <-? ToString PARENT_COMMENT ;;
    nick <-? ToString NICK ;;
    comment <-? ToString COMMENT ;;
    Ok (BodyNewReply site_url site_name parent_nick parent_comment nick comment
          POST_URL).

(** Lines 273-313: the subject and the body of the message for the author
    of the parent comment. *)
Definition reply_draft (currentComment config parentComment : object)
  : result (subject * body) :=
  let PARENT_NICK := get parentComment "nick" in
  IMG <-? getAvatar currentComment config ;;
  PARENT_IMG <-? getAvatar parentComment config ;;
  let SITE_NAME := get config "SITE_NAME" in
  let NICK := get currentComment "nick" in
  let COMMENT := get currentComment "comment" in
  let PARENT_COMMENT := get parentComment "comment" in
  POST_URL <-? post_url currentComment config ;;
  let SITE_URL := get config "SITE_URL" in
  emailSubject <-?
    (if truthy (get config "MAIL_SUBJECT")
     then Ok (SubjectGiven (get config "MAIL_SUBJECT"))
     else
       parent_nick <-? ToString PARENT_NICK ;;
       site_name <-? ToString SITE_NAME ;;
       Ok (SubjectNewReply parent_nick site_name)) ;;
  emailContent <-?
    reply_content config IMG PARENT_IMG SITE_URL SITE_NAME PARENT_NICK PARENT_COMMENT
      NICK COMMENT POST_URL ;;
  Ok (emailSubject, emailContent).

(** Lines 273-322: the message for the author of the parent comment. *)
Definition reply_mail (currentComment config parentComment : object) : result mail :=
  draft <-? reply_draft currentComment config parentComment ;;
  addressed config (get parentComment "mail") draft.

Definition noticeReply (currentComment : object) (config parentComment : option object)
  : M (option send_result) :=
  if falsy (get currentComment "pid") then console LogNoPid ;; ret None
  else
    match parentComment with
    | None => console LogNoParent ;; ret None
    | Some parentComment =>
        skip <- no_mailer config ;;
        if skip then console LogNoMailer ;; ret None
        else
          match config with
          | None => throw TypeError
          | Some config =>
              owner <- lift (equalsMail (get config "BLOGGER_EMAIL")
                               (get parentComment "mail")) ;;
              if owner then console LogReplyToOwner ;; ret None
              else
                self <- lift (equalsMail (get currentComment "mail")
                                (get parentComment "mail")) ;;
                if self then console LogReplyToSelf ;; ret None
                else
                  draft <- lift (reply_draft currentComment config parentComment) ;;
                  sendResult <-
                    send (addressed config (get parentComment "mail") draft) ;;
                  console (LogReplyResult sendResult) ;;
                  ret (Some sendResult)
          end
    end.

(** *** Instant-message push *)

(** Lines 341-366: the message for the push gateway. *)
Definition push_message_of (comment config : object) : result push_message :=
  let SITE_NAME := get config "SITE_NAME" in
  let NICK := get comment "nick" in
  let MAIL := get comment "mail" in
  let IP := get comment "ip" in
  COMMENT <-? stripHtml (get comment "comment") ;;
  POST_URL <-? post_url comment config ;;
  subject <-?
    (if truthy (get config "MAIL_SUBJECT_ADMIN")
     then Ok (SubjectGiven (get config "MAIL_SUBJECT_ADMIN"))
     else site_name <-? ToString SITE_NAME ;; Ok (SubjectPush site_name)) ;;
  nick <-? ToString NICK ;;
  mail <-? ToString MAIL ;;
  ip <-? ToString IP ;;
  let content := PushContent nick mail ip COMMENT POST_URL in
  Ok (PushMessage (get config "PUSHOO_TOKEN") subject content POST_URL).

(** Lines 341-367: what [noticePushoo] does once past its two guards. *)
Definition push (comment config : object) : M unit :=
  m <- lift (push_message_of comment config) ;;
  sendResult <- external W (Pushoo (get config "PUSHOO_CHANNEL") m) ;;
  console (LogPushResult sendResult).

Definition noticePushoo (comment : object) (config : option object) : M unit :=
  match config with
  | None => throw TypeError
  | Some config =>
      if falsy (get config "PUSHOO_CHANNEL") || falsy (get config "PUSHOO_TOKEN")
      then console LogNoPushoo
      else
        owner <- lift (equalsMail (get config "BLOGGER_EMAIL") (get comment "mail")) ;;
        if owner then console LogOwnerComment
        else push comment config
  end.

(** *** Fan-out *)

(** Line 372; [config] is read only for a flagged comment. *)
Definition notice_suppressed (comment : object) (config : option object) : result bool :=
  if truthy (get comment "isSpam") then
    match config with
    | None => Throw TypeError
    | Some config => Ok (is_str (get config "NOTIFY_SPAM") "false")
    end
  else Ok false.

Definition sendNotice (comment : object) (config parentComment : option object)
  : M unit :=
  suppressed <- lift (notice_suppressed comment config) ;;
  if suppressed then ret tt
  else
    try_catch
      (join [settle (noticeMaster comment config);
             settle (noticeReply comment config parentComment);
             settle (noticePushoo comment config)])
      (fun err => console (ErrNotice err)).

(** *** Spam classification *)

(** The branch of the if / else-if chain of [postCheckSpam] that is taken. *)
Inductive spam_branch : Type :=
| Flagged          (* comment.isSpam *)
| OwnerExempt      (* equalsMail(config.BLOGGER_EMAIL, comment.mail) *)
| Qcloud           (* config.QCLOUD_SECRET_ID && config.QCLOUD_SECRET_KEY *)
| Akismet          (* config.AKISMET_KEY *)
| NoProvider.

Definition spam_branch_of (comment config : object) : result spam_branch :=
  if truthy (get comment "isSpam") then Ok Flagged
  else
    owner <-? equalsMail (get config "BLOGGER_EMAIL") (get comment "mail") ;;
    if owner then Ok OwnerExempt
    else if truthy (js_and (get config "QCLOUD_SECRET_ID") (get config "QCLOUD_SECRET_KEY"))
    then Ok Qcloud
    else if truthy (get config "AKISMET_KEY") then Ok Akismet
    else Ok NoProvider.

(** Lines 393-415, with [isSpam] still [undefined] when the provider fails. *)
Definition qcloud_check (comment config : object) : M value :=
  try_catch
    (external W (TmsClient (get config "QCLOUD_SECRET_ID")
                   (get config "QCLOUD_SECRET_KEY")) ;;
     content <- lift (base64_utf8 W (get comment "comment")) ;;
     let textModerationParams :=
       ModerationParams content
         (js_or (get comment "id") (get comment "_id"))
         (get comment "nick") (get comment "ip")
         (if truthy (get config "QCLOUD_CMS_BIZTYPE")
          then Some (get config "QCLOUD_CMS_BIZTYPE") else None) in
     console (LogTmsParams textModerationParams) ;;
     suggestion <- external W (TextModeration textModerationParams) ;;
     console (LogTmsResult suggestion) ;;
     ret (VBool (negb (is_str suggestion "Pass"))))
    (fun e => console (WarnTmsFailed e) ;; ret VUndefined).

Definition akismet_params_of (comment : object) : akismet_params :=
  AkismetParams (get comment "ip") (get comment "ua") (get comment "href")
    (truthy (get comment "rid")) (get comment "nick") (get comment "mail")
    (get comment "link") (get comment "comment").

(** Lines 438-439 *)
Definition verdict (isSpam : value) : M value :=
  console (LogSpamVerdict isSpam) ;; ret isSpam.

(** [config] is first read by the second test of the chain, so a flagged
    comment is answered even without one. *)
Definition postCheckSpam (comment : object) (config : option object) : M value :=
  try_catch
    (if truthy (get comment "isSpam") then verdict (VBool true)
     else
       match config with
       | None => throw TypeError
       | Some config =>
           branch <- lift (spam_branch_of comment config) ;;
           match branch with
           | Flagged => verdict (VBool true)
           | OwnerExempt => verdict (VBool false)
           | Qcloud => isSpam <- qcloud_check comment config ;; verdict isSpam
           | Akismet =>
               isValid <- external W (AkismetVerifyKey (get config "AKISMET_KEY")
                                        (get config "SITE_URL")) ;;
               if falsy isValid
               then console (WarnAkismetKey (get config "AKISMET_KEY")) ;; ret VUndefined
               else
                 isSpam <- external W (AkismetCheckSpam (akismet_params_of comment)) ;;
                 verdict isSpam
           | NoProvider => verdict VUndefined
           end
       end)
    (fun err => console (ErrSpamCheck err) ;; ret VUndefined).

(** *** QQ avatar *)

Definition getQQAvatar (qq : value) : M value :=
  try_catch
    (q <- lift (as_string qq) ;;
     let qqNum := Re.replace re_qq_anywhere "" q in
     url <- external W
              (HttpGet ("https://aq.qq.com/cn2/get_img/get_face?img_type=3&uin=" +:+ qqNum)) ;;
     ret (js_or url VNull))
    (fun e => console (WarnQQLookup e) ;; ret VNull).

(** *** Handlers *)

(** Line 468: [!comment.avatar && isQQ(comment.mail)], outside the [try]
    of line 469. *)
Definition wants_qq_avatar (comment : object) : result bool :=
  if falsy (get comment "avatar") then isQQ (get comment "mail") else Ok false.

(** Lines 467-479: the comment as it is after the avatar step. *)
Definition resolve_qq_avatar (comment : object) : M object :=
  wanted <- lift (wants_qq_avatar comment) ;;
  if wanted then
    try_catch
      (m <- lift (as_string (get comment "mail")) ;;
       let qqNumber := Re.replace re_qq_suffix "" m in
       avatar <- getQQAvatar (VStr qqNumber) ;;
       if truthy avatar
       then console (LogQQAvatar avatar) ;; ret (<["avatar" := avatar]> comment)
       else ret comment)
      (fun e => console (WarnQQAvatar e) ;; ret comment)
  else ret comment.

(** Lines 482-490 *)
Definition classify (comment : object) (config : option object) : M value :=
  let isSpam := get comment "isSpam" in
  if falsy isSpam then
    try_catch
      (isSpam <- postCheckSpam comment config ;;
       console (LogSpamResult isSpam) ;;
       ret isSpam)
      (fun e => console (ErrSpamFailed e) ;; ret isSpam)
  else ret isSpam.

(** Destructuring a parameter that is [undefined] or [null] throws before
    the body of the handler is entered. *)
Definition handlePostSubmit (data : option submit_data) : M response :=
  match data with
  | None => throw TypeError
  | Some (SubmitData comment config parentComment) =>
      try_catch
        (console LogStart ;;
         match comment with
         | None => throw TypeError
         | Some comment =>
             comment <- resolve_qq_avatar comment ;;
             isSpam <- classify comment config ;;
             try_catch
               (sendNotice comment config parentComment ;; console LogNoticeDone)
               (fun e => console (ErrNoticeFailed e)) ;;
             ret (SubmitResult SUCCESS isSpam (get comment "avatar"))
         end)
        (fun e => console (ErrPostSubmit e) ;; ret (Failure FAIL (MsgError e)))
  end.

Definition handleGetQQAvatar (data : option value) : M response :=
  match data with
  | None => throw TypeError
  | Some mail =>
      try_catch
        (qq <- lift (isQQ mail) ;;
         if negb qq then ret (Failure FAIL MsgNotQQ)
         else
           m <- lift (as_string mail) ;;
           let qqNumber := Re.replace re_qq_suffix "" m in
           avatar <- getQQAvatar (VStr qqNumber) ;;
           ret (AvatarResult SUCCESS avatar))
        (fun e => console (ErrQQAvatar e) ;; ret (Failure FAIL (MsgError e)))
  end.

(** Lines 520-525: the test message, by its sender and its recipient. *)
Definition test_mail (event config : object) : request :=
  SendTestMail (get config "SENDER_EMAIL")
    (js_or (js_or (get event "mail") (get config "BLOGGER_EMAIL"))
       (get config "SENDER_EMAIL")).

(** [initMailer] has thrown unless a transporter is in place, which takes a
    [config]; reading [event.mail] needs an [event]. *)
Definition handleEmailTest (data : option test_data) : M test_response :=
  match data with
  | None => throw TypeError
  | Some (TestData event config isAdmin) =>
      if truthy isAdmin then
        try_catch
          (set_transporter None ;;
           initMailer config true ;;
           t <- get_transporter ;;
           match t, config, event with
           | Some _, Some config, Some event =>
               sendResult <- external W (test_mail event config) ;;
               ret (TestResponse None None (Some sendResult))
           | _, _, _ => throw TypeError
           end)
          (fun e => ret (TestResponse None (Some (MsgFailed e)) None))
      else ret (TestResponse (Some NEED_LOGIN) (Some MsgLogin) None)
  end.

(** *** Entry point *)

(** Lines 46-61: the body is destructured, then the [switch] on [action]. *)
Definition dispatch (body : option action) : M answer :=
  match body with
  | None => throw TypeError
  | Some (PostSubmit data) => res <- handlePostSubmit data ;; ret (Handled res)
  | Some (EmailTest data) => res <- handleEmailTest data ;; ret (Tested res)
  | Some (GetQQAvatar data) => res <- handleGetQQAvatar data ;; ret (Handled res)
  | Some OtherAction => ret UnknownAction
  end.

Definition onRequestPost (request : http_request) : M answer :=
  try_catch
    (let isInternal := is_str (internal_header request) "true" in
     if negb isInternal then ret Forbidden
     else
       body <- lift (json request) ;;
       dispatch body)
    (fun e => console (ErrNodeFunction e) ;; ret (Crashed e)).

End Dispatcher.

(** ** Reading a run *)

Definition outcome {A} (r : result A * state * list event) : result A := r.1.1.
Definition events {A} (r : result A * state * list event) : list event := r.2.

Definition is_mail_sent (e : event) : bool :=
  match e with Call (SendMail _) => true | _ => false end.

Definition is_push_sent (e : event) : bool :=
  match e with Call (Pushoo _ _) => true | _ => false end.

Definition is_provider_call (e : event) : bool :=
  match e with
  | Call (TmsClient _ _) | Call (TextModeration _)
  | Call (AkismetVerifyKey _ _) | Call (AkismetCheckSpam _) => true
  | _ => false
  end.

(** A world in which every call succeeds with [undefined]. *)
Definition quiet : world :=
  World (fun _ _ => Returned VUndefined)
    (fun _ => Ok "md5") (fun _ => Ok "sha256") (fun _ => Ok "base64").

(** A world in which every call fails. *)
Definition broken : world :=
  World (fun _ _ => Raised "down")
    (fun _ => Throw (ErrExternal "md5")) (fun _ => Throw (ErrExternal "sha256"))
    (fun _ => Throw (ErrExternal "base64")).


Definition fresh : state := State None 0.

(** ** Vocabulary of the statements *)

(** No event of the kind [P] occurs, whatever the state at the start. *)
Definition never {A} (P : event -> bool) (m : M A) : Prop :=
  forall st, existsb P (events (m st)) = false.

(** [m] does not throw, and what it returns satisfies [Q]. *)
Definition returns {A} (Q : A -> Prop) (m : M A) : Prop :=
  forall st, exists a, outcome (m st) = Ok a /\ Q a.

Definition settles {A} (m : M A) : Prop := returns (fun _ => True) m.

(** When [m] returns, what it returns satisfies [Q]. *)
Definition ensures {A} (Q : A -> Prop) (m : M A) : Prop :=
  forall st a, outcome (m st) = Ok a -> Q a.

(** The event [e] occurs in every run. *)
Definition emits {A} (e : event) (m : M A) : Prop :=
  forall st, In e (events (m st)).

(** [m] rejects only with an exception that satisfies [S]. *)
Definition rejects_only {A} (S : exn -> Prop) (m : M A) : Prop :=
  forall st e, outcome (m st) = Throw e -> S e.

(** The console lines of [handlePostSubmit] itself, outside the spam check. *)
Definition quiet_on_handler_lines (P : event -> bool) : Prop :=
  P (Log LogStart) = false /\ P (Log LogNoticeDone) = false
  /\ (forall e, P (Log (ErrNoticeFailed e)) = false)
  /\ (forall e, P (Log (ErrPostSubmit e)) = false).

Definition is_owner_skip (e : event) : bool :=
  match e with Log LogOwnerComment => true | _ => false end.


(** The console lines of [postCheckSpam]; every run of it writes one. *)
Definition is_spam_check_line (e : event) : bool :=
  match e with
  | Log (LogTmsParams _) | Log (LogTmsResult _) | Log (WarnTmsFailed _)
  | Log (LogSpamVerdict _) | Log (WarnAkismetKey _) | Log (ErrSpamCheck _) => true
  | _ => false
  end.

(** [v] has a string form. *)
Definition printable (v : value) : bool :=
  match ToString v with
  | Ok _ => true
  | Throw _ => false
  end.

(** The string form of a value that has one. *)
Definition text (v : value) : string :=
  match ToString v with
  | Ok s => s
  | Throw _ => ""
  end.

(** Two addresses are present and equal up to case and surrounding blanks. *)
Definition same_mail (a b : value) : Prop :=
  truthy a = true /\ truthy b = true
  /\ exists n, normalizeMail a = Ok n /\ normalizeMail b = Ok n.

(** Absent, [null], or the empty string. *)
Definition missing (v : value) : Prop :=
  v = VUndefined \/ v = VNull \/ v = VStr "".

(** The character [c] occurs in [s]. *)
Definition occurs (c : ascii) (s : string) : Prop := In c (list_ascii_of_string s).

(** A QQ number: a digit from 1 to 9 followed by four to ten digits. *)
Definition qq_number (d : string) : Prop :=
  exists c ds, d = String c ds
               /\ Re.range "1" "9" c = true
               /\ forallb (Re.range "0" "9") (list_ascii_of_string ds) = true
               /\ (4 <= String.length ds <= 10)%nat.

Definition LF : ascii := ascii_of_nat 10.
Definition CR : ascii := ascii_of_nat 13.

(** *** Templates

    A template seen as pieces: literal text, and placeholder tokens
    [${name}]. *)
Inductive piece : Type :=
| Text (s : string)
| Hole (name : string).

Definition token (name : string) : string := "${" +:+ name +:+ "}".

Fixpoint source (ps : list piece) : string :=
  match ps with
  | [] => ""
  | Text s :: rest => s +:+ source rest
  | Hole name :: rest => token name +:+ source rest
  end.

Fixpoint lookup_value (table : list (string * value)) (name : string) : option value :=
  match table with
  | [] => None
  | (n, v) :: rest => if String.eqb n name then Some v else lookup_value rest name
  end.

(** Every token with a value in [table] is replaced by that value; all
    other pieces stay as they are. *)
Fixpoint filled (table : list (string * value)) (ps : list piece) : string :=
  match ps with
  | [] => ""
  | Text s :: rest => s +:+ filled table rest
  | Hole name :: rest =>
      match lookup_value table name with
      | Some v => text v +:+ filled table rest
      | None => token name +:+ filled table rest
      end
  end.

(** One pass: the tokens of [name] become the text [v]. *)
Definition fill_one (name : string) (v : string) (p : piece) : piece :=
  match p with
  | Hole n => if String.eqb name n then Text v else p
  | Text _ => p
  end.

(** Free of "$". *)
Definition plain (s : string) : Prop := ~ occurs "$" s.

Definition is_name (s : string) : Prop := plain s /\ ~ occurs "}" s.

Definition plain_piece (p : piece) : Prop :=
  match p with
  | Text s => plain s
  | Hole name => is_name name
  end.

(** A value whose string form is free of "$". *)
Definition plain_value (v : value) : Prop :=
  exists s, ToString v = Ok s /\ plain s.

Definition plain_entry (e : string * value) : Prop :=
  is_name e.1 /\ plain_value e.2.

(** The body of a composed mail. *)
Definition html_of (r : result mail) : result body :=
  m <-? r ;; Ok (mail_html m).

(** The four situations in which no reply notification is due. *)
Definition reply_not_due (comment config : object) (parentComment : option object)
  : Prop :=
  truthy (get comment "pid") = false
  \/ parentComment = None
  \/ (exists p, parentComment = Some p
                /\ same_mail (get p "mail") (get config "BLOGGER_EMAIL"))
  \/ (exists p, parentComment = Some p
                /\ same_mail (get comment "mail") (get p "mail")).

(** *** Sample data *)

Definition site : object :=
  <["SMTP_USER" := VStr "u"]> (<["SMTP_PASS" := VStr "p"]>
  (<["SMTP_SERVICE" := VStr "QQ"]> (<["BLOGGER_EMAIL" := VStr "Owner@Example.com"]>
  (<["SITE_URL" := VStr "https://x"]> (<["SITE_NAME" := VStr "Blog"]> ∅))))).

Definition with_push (config : object) : object :=
  <["PUSHOO_CHANNEL" := VStr "bark"]> (<["PUSHOO_TOKEN" := VStr "tok"]> config).

Definition visitor : object :=
  <["nick" := VStr "Bob"]> (<["mail" := VStr "bob@example.com"]>
  (<["comment" := VStr "<p>hello</p>"]> (<["href" := VStr "https://x/y#old"]>
  (<["id" := VStr "abc"]> ∅)))).

Definition author : object :=
  <["nick" := VStr "Ann"]> (<["mail" := VStr "ann@example.com"]>
  (<["comment" := VStr "first"]> (<["id" := VStr "p1"]> ∅))).

Definition by_owner (comment : object) : object :=
  <["mail" := VStr " owner@example.com "]> comment.

Definition reply_to (comment : object) : object := <["pid" := VStr "p1"]> comment.

Definition flagged (comment : object) : object := <["isSpam" := VBool true]> comment.

Definition greeting : object :=
  <["MAIL_TEMPLATE_ADMIN" := VStr "Hi ${NICK}, ${COMMENT}"]> site.

Definition bob : object := <["comment" := VStr "hello"]> visitor.

(** *** Runs and their events *)

(** The state in which a run ends. *)
Definition final {A} (r : result A * state * list event) : state := r.1.2.

(** Every run of [m] starts with the events [ev]. *)
Definition begins {A} (ev : list event) (m : M A) : Prop :=
  forall st, exists rest, events (m st) = (ev ++ rest)%list.

(** From a state that holds the transporter [t], [m] ends in such a state,
    and no event of the kind [P] occurs. *)
Definition keeps {A} (t : transport_config) (P : event -> bool) (m : M A) : Prop :=
  forall st, transporter st = Some t ->
             transporter (final (m st)) = Some t /\ existsb P (events (m st)) = false.

(** What [initMailer] leaves in a run. *)
Definition is_transport_setup (e : event) : bool :=
  match e with
  | Call (CreateTransport _) | Call VerifyTransport
  | Log LogSmtpOk | Log (ErrMailerInit _) | Log (WarnMailerInit _) => true
  | _ => false
  end.

(** A mail, a push, or the set-up of the mail transport. *)
Definition is_notification (e : event) : bool :=
  match e with
  | Call (SendMail _) | Call (Pushoo _ _)
  | Call (CreateTransport _) | Call VerifyTransport => true
  | _ => false
  end.

Definition is_akismet_call (e : event) : bool :=
  match e with
  | Call (AkismetVerifyKey _ _) | Call (AkismetCheckSpam _) => true
  | _ => false
  end.

Definition is_http_call (e : event) : bool :=
  match e with Call (HttpGet _) => true | _ => false end.

(** The console line of the [catch] of [onRequestPost]. *)
Definition is_entry_error (e : event) : bool :=
  match e with Log (ErrNodeFunction _) => true | _ => false end.

(** Every call to a moderation or spam-detection provider fails. *)
Definition providers_down (W : world) : Prop :=
  forall n req, is_provider_call (Call req) = true -> exists msg, respond W n req = Raised msg.

(** *** Text *)

(** The number of characters of [s] up to and including its first ">". *)
Fixpoint upto_close (s : string) : option nat :=
  match s with
  | EmptyString => None
  | String c s' => if Ascii.eqb c ">" then Some 1%nat else option_map S (upto_close s')
  end.

(** Some "<" of [s] is followed, further on, by a ">". *)
Fixpoint has_tag (s : string) : bool :=
  match s with
  | EmptyString => false
  | String c s' =>
      Ascii.eqb c "<" && existsb (Ascii.eqb ">") (list_ascii_of_string s') || has_tag s'
  end.

(** All characters of [s] are decimal digits. *)
Definition digits (s : string) : bool :=
  forallb (Re.range "0" "9") (list_ascii_of_string s).

(** Neither a string, nor an object, nor an array: [+] adds such operands
    as numbers. *)
Definition adds_as_number (v : value) : bool :=
  match v with
  | VStr _ | VObject _ | VArray _ => false
  | _ => true
  end.

(** Line 450: the address of the avatar lookup for the account [uin]. *)
Definition qq_face_url (uin : string) : string :=
  "https://aq.qq.com/cn2/get_img/get_face?img_type=3&uin=" +:+ uin.

(** *** Mail settings *)

(** Lines 148-165: the settings from which no transport is created: the
    user or the password is missing, or no service is named and either the
    host is missing too or its port cannot be read. *)
Definition smtp_incomplete (config : object) : bool :=
  falsy (get config "SMTP_USER") || falsy (get config "SMTP_PASS")
  || falsy (get config "SMTP_SERVICE")
     && (falsy (get config "SMTP_HOST") || negb (printable (get config "SMTP_PORT"))).

(** Lines 148-150 and 161-165: what [initMailer] throws on such settings. *)
Definition init_error (config : object) : exn :=
  if falsy (get config "SMTP_USER") || falsy (get config "SMTP_PASS") then ErrNoConfig
  else if falsy (get config "SMTP_HOST") then ErrNoSmtpServer
  else TypeError.

(** Lines 151-165: the transport configuration of complete settings. *)
Definition transport_of (config : object) : transport_config :=
  TransportConfig (get config "SMTP_USER") (get config "SMTP_PASS")
    (if truthy (get config "SMTP_SERVICE") then Service (get config "SMTP_SERVICE")
     else Host (get config "SMTP_HOST") (get config "SMTP_PORT")
            (is_str (get config "SMTP_SECURE") "true")).

(** Lines 174-182: how [initMailer] ends once something was thrown. *)
Definition init_failed (throwErr : bool) (e : exn) (st : state) (ev : list event)
  : result bool * state * list event :=
  if throwErr then (Throw e, st, (ev ++ [Log (ErrMailerInit e)])%list)
  else (Ok false, st, (ev ++ [Log (WarnMailerInit e)])%list).

(** Lines 196-197: [hasIMPushConfig && config.SC_MAIL_NOTIFY !== 'true'] *)
Definition push_preferred (config : object) : bool :=
  truthy (js_and (get config "PUSHOO_CHANNEL") (get config "PUSHOO_TOKEN"))
  && negb (is_str (get config "SC_MAIL_NOTIFY") "true").

(** Lines 63-69: how [onRequestPost] ends once something was thrown past
    the handlers: one error line, and the error as the message of a FAIL. *)
Definition entry_failed (e : exn) (st : state) : result answer * state * list event :=
  (Ok (Crashed e), st, [Log (ErrNodeFunction e)]).

(** The result of [transporter.sendMail], made as call number [n], as the
    [try] around it leaves it. *)
Definition sent_as (W : world) (n : nat) (m : mail) : send_result :=
  match respond W n (SendMail m) with
  | Returned info => Sent info
  | Raised msg => NotSent (ErrExternal msg)
  end.

(** How [handleEmailTest] ends once something was thrown: only [message]
    is set. *)
Definition test_failed (e : exn) (st : state) (ev : list event)
  : result test_response * state * list event :=
  (Ok (TestResponse None (Some (MsgFailed e)) None), st, ev).

(** Lines 286-295: the placeholders of the reply template with their
    values, in the order of the passes. *)
Definition reply_table
  (IMG PARENT_IMG SITE_URL SITE_NAME PARENT_NICK PARENT_COMMENT NICK COMMENT : value)
  (POST_URL : string) : list (string * value) :=
  [("IMG", IMG); ("PARENT_IMG", PARENT_IMG); ("SITE_URL", SITE_URL);
   ("SITE_NAME", SITE_NAME); ("PARENT_NICK", PARENT_NICK);
   ("PARENT_COMMENT", PARENT_COMMENT); ("NICK", NICK); ("COMMENT", COMMENT);
   ("POST_URL", VStr POST_URL)].

(** Lines 400-408, for the encoded comment text [content]. *)
Definition moderation_params_of (comment config : object) (content : string)
  : moderation_params :=
  ModerationParams content (js_or (get comment "id") (get comment "_id"))
    (get comment "nick") (get comment "ip")
    (if truthy (get config "QCLOUD_CMS_BIZTYPE")
     then Some (get config "QCLOUD_CMS_BIZTYPE") else None).

(** *** More sample data *)

Definition with_akismet (config : object) : object :=
  <["AKISMET_KEY" := VStr "k"]> config.

Definition with_qcloud (config : object) : object :=
  <["QCLOUD_SECRET_ID" := VStr "id"]> (<["QCLOUD_SECRET_KEY" := VStr "key"]> config).

Definition with_avatar (comment : object) : object :=
  <["avatar" := VStr "a.png"]> comment.

Definition qq_user : object := <["mail" := VStr "12345@qq.com"]> visitor.

Definition reply_greeting : list piece :=
  [Hole "PARENT_NICK"; Text ", "; Hole "NICK"; Text " wrote: "; Hole "COMMENT"; Hole "X"].

(** A world in which every call succeeds with [v]. *)
Definition answering (v : value) : world :=
  World (fun _ _ => Returned v)
    (fun _ => Ok "md5") (fun _ => Ok "sha256") (fun _ => Ok "base64").

(** A world in which the call number [k], and only that one, fails. *)
Definition failing_at (k : nat) : world :=
  World (fun n _ => if Nat.eqb n k then Raised "down" else Returned VUndefined)
    (fun _ => Ok "md5") (fun _ => Ok "sha256") (fun _ => Ok "base64").

(** A state that holds the transporter of [site]. *)
Definition cached : state := State (Some (transport_of site)) 0.

(** A body that is not JSON. *)
Definition unparsable : http_request :=
  HttpRequest (VStr "true") (Throw (ErrExternal "Unexpected token")).

(** The data of a postSubmit request that holds a comment and a config. *)
Definition submit (comment config : object) (parentComment : option object)
  : option submit_data :=
  Some (SubmitData (Some comment) (Some config) parentComment).

(** The data of an emailTest request that holds an event and a config. *)
Definition test_of (event config : object) (isAdmin : value) : option test_data :=
  Some (TestData (Some event) (Some config) isAdmin).

(** An object with a key [toString] of its own, as JSON.parse gives it for
    {"toString":1}. *)
Definition unprintable : value := VObject true.

(** A comment whose address is such an object. *)
Definition odd_mail (comment : object) : object := <["mail" := unprintable]> comment.

(** ** The effect monad: composition lemmas *)

Section MonadFacts.

Context {A B : Type}.
Implicit Types (m : M A) (k : A -> M B) (h : exn -> M A) (P : event -> bool).

Lemma never_ret P (a : A) : never P (ret a).
Proof. intros st. reflexivity. Qed.

Lemma never_throw P (e : exn) : never P (@throw A e).
Proof. intros st. reflexivity. Qed.

Lemma never_lift P (r : result A) : never P (lift r).
Proof. intros st. reflexivity. Qed.

Lemma never_bind P m k :
  never P m -> (forall a, never P (k a)) -> never P (bind m k).
Proof.
  intros Hm Hk st. specialize (Hm st). unfold bind, events in *.
  destruct (m st) as [[[a|e] st1] ev1]; simpl in *; [|exact Hm].
  specialize (Hk a st1). unfold events in Hk.
  destruct (k a st1) as [[r st2] ev2]; simpl in *.
  rewrite existsb_app, Hm, Hk. reflexivity.
Qed.

Lemma never_try P m h :
  never P m -> (forall e, never P (h e)) -> never P (try_catch m h).
Proof.
  intros Hm Hh st. specialize (Hm st). unfold try_catch, events in *.
  destruct (m st) as [[[a|e] st1] ev1]; simpl in *; [exact Hm|].
  specialize (Hh e st1). unfold events in Hh.
  destruct (h e st1) as [[r st2] ev2]; simpl in *.
  rewrite existsb_app, Hm, Hh. reflexivity.
Qed.

(** The continuation only has to behave on what [m] can return. *)
Lemma never_bind_post (Q : A -> Prop) P m k :
  ensures Q m -> never P m -> (forall a, Q a -> never P (k a)) ->
  never P (bind m k).
Proof.
  intros HQ Hm Hk st. specialize (Hm st). specialize (HQ st).
  unfold bind, events, outcome in *.
  destruct (m st) as [[[a|e] st1] ev1]; simpl in *; [|exact Hm].
  specialize (Hk a (HQ a eq_refl) st1). unfold events in Hk.
  destruct (k a st1) as [[r st2] ev2]; simpl in *.
  rewrite existsb_app, Hm, Hk. reflexivity.
Qed.

Lemma returns_ret (Q : A -> Prop) (a : A) : Q a -> returns Q (ret a).
Proof. intros HQ st. exists a. split; [reflexivity | exact HQ]. Qed.

Lemma returns_bind (Q1 : A -> Prop) (Q2 : B -> Prop) m k :
  returns Q1 m -> (forall a, Q1 a -> returns Q2 (k a)) -> returns Q2 (bind m k).
Proof.
  intros Hm Hk st. destruct (Hm st) as (a & Ha & HQ).
  unfold bind, outcome in *.
  destruct (m st) as [[r st1] ev1]; simpl in *. subst r.
  destruct (Hk a HQ st1) as (b & Hb & HQ2).
  destruct (k a st1) as [[r st2] ev2]; simpl in *. eauto.
Qed.

(** A handler that cannot throw makes the whole [try] safe. *)
Lemma settles_try m h : (forall e, settles (h e)) -> settles (try_catch m h).
Proof.
  intros Hh st. unfold try_catch, outcome.
  destruct (m st) as [[[a|e] st1] ev1]; simpl; [eauto|].
  destruct (Hh e st1) as (a & Ha & _). unfold outcome in Ha.
  destruct (h e st1) as [[r st2] ev2]; simpl in *. eauto.
Qed.

Lemma returns_try (Q : A -> Prop) m h : returns Q m -> returns Q (try_catch m h).
Proof.
  intros Hm st. destruct (Hm st) as (a & Ha & HQ).
  unfold try_catch, outcome in *.
  destruct (m st) as [[r st1] ev1]; simpl in *. subst r. simpl. eauto.
Qed.

Lemma returns_weaken (Q Q' : A -> Prop) m :
  returns Q m -> (forall a, Q a -> Q' a) -> returns Q' m.
Proof. intros Hm HQ st. destruct (Hm st) as (a & Ha & Hq). eauto. Qed.

Lemma ensures_ret (Q : A -> Prop) (a : A) : Q a -> ensures Q (ret a).
Proof. intros HQ st a' H. injection H as <-. exact HQ. Qed.

Lemma ensures_bind (Q : B -> Prop) m k :
  (forall a, ensures Q (k a)) -> ensures Q (bind m k).
Proof.
  intros Hk st b. unfold bind, outcome.
  destruct (m st) as [[[a|e] st1] ev1]; simpl; [|discriminate].
  specialize (Hk a st1 b). unfold outcome in Hk.
  destruct (k a st1) as [[r st2] ev2]; simpl in *. exact Hk.
Qed.

Lemma ensures_try (Q : A -> Prop) m h :
  ensures Q m -> (forall e, ensures Q (h e)) -> ensures Q (try_catch m h).
Proof.
  intros Hm Hh st a. specialize (Hm st a). unfold try_catch, outcome in *.
  destruct (m st) as [[[a'|e] st1] ev1]; simpl in *; [exact Hm|].
  specialize (Hh e st1 a). unfold outcome in Hh.
  destruct (h e st1) as [[r st2] ev2]; simpl in *. exact Hh.
Qed.

Lemma returns_ensures (Q : A -> Prop) m : settles m -> ensures Q m -> returns Q m.
Proof.
  intros Hs HQ st. destruct (Hs st) as (a & Ha & _). exists a.
  split; [exact Ha | exact (HQ st a Ha)].
Qed.

Lemma emits_bind_l (e : event) m k : emits e m -> emits e (bind m k).
Proof.
  intros Hm st. specialize (Hm st). unfold bind, events in *.
  destruct (m st) as [[[a|x] st1] ev1]; simpl in *; [|exact Hm].
  destruct (k a st1) as [[r st2] ev2]; simpl. apply in_or_app. left. exact Hm.
Qed.

Lemma emits_bind_r (e : event) m k :
  settles m -> (forall a, emits e (k a)) -> emits e (bind m k).
Proof.
  intros Hm Hk st. destruct (Hm st) as (a & Ha & _).
  unfold bind, events, outcome in *.
  destruct (m st) as [[r st1] ev1]; simpl in *. subst r.
  specialize (Hk a st1). unfold events in Hk.
  destruct (k a st1) as [[r st2] ev2]; simpl in *.
  apply in_or_app. right. exact Hk.
Qed.

Lemma emits_try (e : event) m h : emits e m -> emits e (try_catch m h).
Proof.
  intros Hm st. specialize (Hm st). unfold try_catch, events in *.
  destruct (m st) as [[[a|x] st1] ev1]; simpl in *; [exact Hm|].
  destruct (h x st1) as [[r st2] ev2]; simpl. apply in_or_app. left. exact Hm.
Qed.

(** What [lift] hands on is the result itself. *)
Lemma bind_lift_ok (r : result A) (a : A) k st :
  r = Ok a -> bind (lift r) k st = k a st.
Proof. intros ->. unfold bind, lift. destruct (k a st) as [[? ?] ?]. reflexivity. Qed.

Lemma bind_lift_throw (r : result A) (e : exn) k st :
  r = Throw e -> bind (lift r) k st = (Throw e, st, []).
Proof. intros ->. reflexivity. Qed.

Lemma never_bind_lift P (r : result A) k :
  (forall a, r = Ok a -> never P (k a)) -> never P (bind (lift r) k).
Proof.
  intros Hk st. destruct r as [a|e]; [|reflexivity].
  rewrite (bind_lift_ok (Ok a) a) by reflexivity. apply Hk. reflexivity.
Qed.

Lemma returns_bind_lift (Q : B -> Prop) (r : result A) (a : A) k :
  r = Ok a -> returns Q (k a) -> returns Q (bind (lift r) k).
Proof.
  intros Hr Hk st. rewrite (bind_lift_ok r a) by exact Hr. apply Hk.
Qed.

End MonadFacts.

Lemma never_console P l : P (Log l) = false -> never P (console l).
Proof. intros H st. simpl. rewrite H. reflexivity. Qed.

Lemma never_external P W r : P (Call r) = false -> never P (external W r).
Proof.
  intros H st. unfold external, events.
  destruct (respond W (clock st) r); simpl; rewrite H; reflexivity.
Qed.

Lemma never_get_transporter P : never P get_transporter.
Proof. intros st. reflexivity. Qed.

Lemma never_set_transporter P t : never P (set_transporter t).
Proof. intros st. reflexivity. Qed.

Lemma settles_console l : settles (console l).
Proof. intros st. exists tt. split; [reflexivity | exact I]. Qed.

Lemma emits_console l : emits (Log l) (console l).
Proof. intros st. left. reflexivity. Qed.

(** One step of a proof that a kind of event never occurs. *)
Ltac never_step :=
  lazymatch goal with
  | |- never _ (bind (lift _) _) => apply never_bind_lift; intros ? ?
  | |- never _ (bind _ _) => apply never_bind; [| intros ?]
  | |- never _ (try_catch _ _) => apply never_try; [| intros ?]
  | |- never _ (ret _) => apply never_ret
  | |- never _ (throw _) => apply never_throw
  | |- never _ (lift _) => apply never_lift
  | |- never _ (console _) => apply never_console; reflexivity
  | |- never _ (external _ _) => apply never_external; reflexivity
  | |- never _ get_transporter => apply never_get_transporter
  | |- never _ (set_transporter _) => apply never_set_transporter
  | |- never _ (no_mailer _ _) => unfold no_mailer
  | |- never _ (initMailer _ _ _) => unfold initMailer
  | |- never _ (send _ _) => unfold send
  | |- never _ (settle _) => unfold settle
  | |- never _ (join _) => unfold join
  | |- never _ (promise_all _) => unfold promise_all
  | |- never _ (getQQAvatar _ _) => unfold getQQAvatar
  | |- never _ (if ?c then _ else _) => destruct c
  | |- never _ (match ?x with _ => _ end) => destruct x
  end.

Ltac never_tac := repeat (cbv beta iota; never_step).

Ltac settles_step :=
  unfold settles;
  lazymatch goal with
  | |- returns _ (try_catch _ _) => apply settles_try; intros ?
  | |- returns _ (bind _ _) => eapply returns_bind; [| intros ? _]
  | |- returns _ (ret _) => apply returns_ret; exact I
  | |- returns _ (console _) => apply settles_console
  | |- returns _ (if ?c then _ else _) => destruct c
  | |- returns _ (match ?x with _ => _ end) => destruct x
  end.

Ltac settles_tac := repeat (cbv beta iota; settles_step).

(** ** Facts about the program *)

Lemma array_join_TypeError element l e :
  Forall (fun x => forall e', element x = Throw e' -> e' = TypeError) l ->
  array_join element l = Throw e -> e = TypeError.
Proof.
  induction 1 as [|x rest Hx _ IH]; simpl; [discriminate|].
  destruct (element x) as [s|e'] eqn:E; simpl.
  - destruct rest as [|y rest']; [discriminate|].
    destruct (array_join element (y :: rest')) as [r|e'] eqn:E'; simpl; [discriminate|].
    intros [= <-]. apply IH. reflexivity.
  - intros [= <-]. apply Hx. reflexivity.
Qed.

Lemma ToString_TypeError v e : ToString v = Throw e -> e = TypeError.
Proof.
  revert e. induction v as [| | b | n | s | own | elems IH] using value_induction;
    intros e; simpl.
  - discriminate.
  - discriminate.
  - destruct b; discriminate.
  - destruct n; discriminate.
  - discriminate.
  - destruct own; [intros [= <-]; reflexivity | discriminate].
  - apply array_join_TypeError.
    eapply Forall_impl; [exact IH|].
    intros x Hx e'. destruct x; try discriminate; apply Hx.
Qed.

Lemma ToString_printable v : printable v = true -> ToString v = Ok (text v).
Proof. unfold printable, text. destruct (ToString v); [reflexivity | discriminate]. Qed.

Lemma printable_throws v : printable v = false -> ToString v = Throw TypeError.
Proof.
  unfold printable. destruct (ToString v) as [s|e] eqn:E; [discriminate|].
  intros _. rewrite (ToString_TypeError _ _ E). reflexivity.
Qed.

(** Only an object or an array can lack a string form, and these are
    truthy. *)
Lemma unprintable_truthy v : printable v = false -> truthy v = true.
Proof.
  unfold printable. destruct v as [| | [] | [] | | |]; try discriminate; reflexivity.
Qed.

Lemma normalizeMail_TypeError v e : normalizeMail v = Throw e -> e = TypeError.
Proof.
  unfold normalizeMail. destruct (ToString v) eqn:E; simpl; [discriminate|].
  intros [= <-]. exact (ToString_TypeError _ _ E).
Qed.

Lemma equalsMail_TypeError a b e : equalsMail a b = Throw e -> e = TypeError.
Proof.
  unfold equalsMail. destruct (falsy a || falsy b); [discriminate|].
  destruct (normalizeMail a) eqn:Ea; simpl.
  - destruct (normalizeMail b) eqn:Eb; simpl; [discriminate|].
    intros [= <-]. exact (normalizeMail_TypeError _ _ Eb).
  - intros [= <-]. exact (normalizeMail_TypeError _ _ Ea).
Qed.

Lemma isQQ_TypeError v e : isQQ v = Throw e -> e = TypeError.
Proof.
  unfold isQQ. destruct (ToString v) eqn:E; simpl; [discriminate|].
  intros [= <-]. exact (ToString_TypeError _ _ E).
Qed.

Lemma equalsMail_same a b : same_mail a b -> equalsMail a b = Ok true.
Proof.
  intros (Ha & Hb & n & Hna & Hnb). unfold equalsMail, falsy.
  rewrite Ha, Hb, Hna, Hnb. simpl. rewrite String.eqb_refl. reflexivity.
Qed.

Lemma equalsMail_sym a b : equalsMail a b = equalsMail b a.
Proof.
  unfold equalsMail. rewrite (orb_comm (falsy a)).
  destruct (falsy b || falsy a); [reflexivity|].
  destruct (normalizeMail a) as [x|ea] eqn:Ea, (normalizeMail b) as [y|eb] eqn:Eb; simpl.
  - rewrite String.eqb_sym. reflexivity.
  - reflexivity.
  - reflexivity.
  - rewrite (normalizeMail_TypeError _ _ Ea), (normalizeMail_TypeError _ _ Eb).
    reflexivity.
Qed.

Lemma equalsMail_falsy a b :
  falsy a = true \/ falsy b = true -> equalsMail a b = Ok false.
Proof.
  intros [H|H]; unfold equalsMail; rewrite H; [reflexivity|].
  rewrite orb_true_r. reflexivity.
Qed.

Lemma missing_falsy v : missing v -> falsy v = true.
Proof. intros [->|[->| ->]]; reflexivity. Qed.

Lemma settles_initMailer W config : settles (initMailer W config false).
Proof. unfold initMailer. settles_tac. Qed.

Lemma settles_no_mailer W config : settles (no_mailer W config).
Proof.
  unfold no_mailer. eapply returns_bind with (Q1 := fun _ => True).
  - intros st. eexists. split; [reflexivity | exact I].
  - intros [t|] _; [apply returns_ret; exact I|].
    eapply returns_bind; [apply settles_initMailer|].
    intros ? _. apply returns_ret. exact I.
Qed.

Lemma notice_suppressed_some comment config :
  notice_suppressed comment (Some config)
  = Ok (truthy (get comment "isSpam") && is_str (get config "NOTIFY_SPAM") "false").
Proof. unfold notice_suppressed. destruct (truthy _); reflexivity. Qed.

Lemma settles_sendNotice W comment config parentComment :
  settles (sendNotice W comment (Some config) parentComment).
Proof.
  unfold sendNotice. eapply returns_bind_lift; [apply notice_suppressed_some|].
  settles_tac.
Qed.

(** The test of line 468 can be made when the comment has an avatar or its
    address has a string form. *)
Lemma wants_qq_avatar_ok comment :
  truthy (get comment "avatar") = true \/ printable (get comment "mail") = true ->
  exists b, wants_qq_avatar comment = Ok b.
Proof.
  unfold wants_qq_avatar, falsy, isQQ.
  intros [-> | H]; [simpl; eauto|].
  destruct (truthy _); simpl; [eauto|].
  rewrite (ToString_printable _ H). simpl. eauto.
Qed.

Lemma wants_qq_avatar_throws comment :
  truthy (get comment "avatar") = false -> printable (get comment "mail") = false ->
  wants_qq_avatar comment = Throw TypeError.
Proof.
  intros Ha Hm. unfold wants_qq_avatar, falsy, isQQ.
  rewrite Ha, (printable_throws _ Hm). reflexivity.
Qed.

Lemma settles_resolve_qq_avatar W comment b :
  wants_qq_avatar comment = Ok b -> settles (resolve_qq_avatar W comment).
Proof.
  intros H. unfold resolve_qq_avatar. eapply returns_bind_lift; [exact H|].
  settles_tac.
Qed.

Lemma settles_classify W comment config : settles (classify W comment config).
Proof. unfold classify. settles_tac. Qed.

(** C1 (amended). A postSubmit request whose data holds a comment and a
    config is answered with code SUCCESS whatever the external services do
    (every call may fail), and the run reaches the console line written
    after the notifications: no failure of the spam check or of a
    notification aborts the request.  This holds whenever the test of line
    468 can be made, that is, when the comment has an avatar or its address
    has a string form.  Otherwise that test, which no inner [try] guards,
    throws: the answer is FAIL with the TypeError, after the error line of
    the handler, and nothing else is done. *)
Theorem handlePostSubmit_succeeds W comment config parentComment st :
  (truthy (get comment "avatar") = true \/ printable (get comment "mail") = true ->
   (exists isSpam avatar,
      outcome (handlePostSubmit W (submit comment config parentComment) st)
      = Ok (SubmitResult SUCCESS isSpam avatar))
   /\ In (Log LogNoticeDone)
        (events (handlePostSubmit W (submit comment config parentComment) st)))
  /\ (truthy (get comment "avatar") = false ->
      printable (get comment "mail") = false ->
      handlePostSubmit W (submit comment config parentComment) st
      = (Ok (Failure FAIL (MsgError TypeError)), st,
         [Log LogStart; Log (ErrPostSubmit TypeError)])).
Proof.
  split.
  - intros Hw. destruct (wants_qq_avatar_ok comment Hw) as (b & Hb). split.
    + assert (H : returns (fun r => exists isSpam avatar,
                             r = SubmitResult SUCCESS isSpam avatar)
                    (handlePostSubmit W (submit comment config parentComment))).
      { unfold handlePostSubmit, submit. apply returns_try.
        eapply returns_bind; [apply settles_console|]. intros _ _.
        eapply returns_bind; [apply (settles_resolve_qq_avatar W comment b Hb)|].
        intros c' _.
        eapply returns_bind; [apply settles_classify|]. intros isSpam _.
        eapply returns_bind with (Q1 := fun _ => True).
        { apply settles_try. intros e. apply settles_console. }
        intros _ _. apply returns_ret. eauto. }
      destruct (H st) as (r & Hr & isSpam & avatar & ->). eauto.
    + revert st.
      change (emits (Log LogNoticeDone)
                (handlePostSubmit W (submit comment config parentComment))).
      unfold handlePostSubmit, submit. apply emits_try.
      apply emits_bind_r; [apply settles_console|]. intros _.
      apply emits_bind_r; [apply (settles_resolve_qq_avatar W comment b Hb)|].
      intros c'.
      apply emits_bind_r; [apply settles_classify|]. intros isSpam.
      apply emits_bind_l. apply emits_try.
      apply emits_bind_r; [apply settles_sendNotice|]. intros _.
      apply emits_console.
  - intros Ha Hm. unfold handlePostSubmit, submit, resolve_qq_avatar.
    unfold try_catch, bind, console, lift.
    rewrite (wants_qq_avatar_throws comment Ha Hm). reflexivity.
Qed.

Lemma handlePostSubmit_succeeds_witness :
  (truthy (get visitor "avatar") = true \/ printable (get visitor "mail") = true)
  /\ (exists isSpam avatar,
        outcome (handlePostSubmit broken (submit visitor site None) fresh)
        = Ok (SubmitResult SUCCESS isSpam avatar))
  /\ (truthy (get (odd_mail visitor) "avatar") = false
      /\ printable (get (odd_mail visitor) "mail") = false)
  /\ outcome (handlePostSubmit broken (submit (odd_mail visitor) site None) fresh)
     = Ok (Failure FAIL (MsgError TypeError)).
Proof.
  assert (H : truthy (get visitor "avatar") = true \/ printable (get visitor "mail") = true)
    by (right; reflexivity).
  assert (Ha : truthy (get (odd_mail visitor) "avatar") = false) by reflexivity.
  assert (Hm : printable (get (odd_mail visitor) "mail") = false) by reflexivity.
  destruct (handlePostSubmit_succeeds broken visitor site None fresh) as (Hok & _).
  destruct (handlePostSubmit_succeeds broken (odd_mail visitor) site None fresh)
    as (_ & Hfail).
  destruct (Hok H) as (Hans & _).
  split; [exact H|]. split; [exact Hans|].
  split; [split; assumption|].
  rewrite (Hfail Ha Hm). reflexivity.
Defined.

(** C1, as stated, fails for a comment without an avatar whose address is
    an object with a key [toString] of its own: the test of line 468 throws
    outside the inner [try], and the handler answers FAIL. *)
Lemma unprintable_mail_fails_the_request :
  handlePostSubmit quiet (submit (odd_mail visitor) site None) fresh
  = (Ok (Failure FAIL (MsgError TypeError)), fresh,
     [Log LogStart; Log (ErrPostSubmit TypeError)]).
Proof. reflexivity. Qed.

Lemma equalsMail_true a b : equalsMail a b = Ok true -> same_mail a b.
Proof.
  unfold equalsMail, falsy, same_mail.
  destruct (truthy a), (truthy b); simpl; try discriminate.
  destruct (normalizeMail a) as [x|]; simpl; [|discriminate].
  destruct (normalizeMail b) as [y|]; simpl; [|discriminate].
  intros [= H]. apply String.eqb_eq in H. subst y. eauto.
Qed.

Lemma is_str_false v s : v <> VStr s -> is_str v s = false.
Proof.
  intros H. destruct v; simpl; try reflexivity.
  destruct (String.eqb_spec s0 s); [subst; congruence | reflexivity].
Qed.

Lemma get_insert_ne (o : object) k k' v : k <> k' -> get (<[k := v]> o) k' = get o k'.
Proof. intros H. unfold get. rewrite lookup_insert_ne by exact H. reflexivity. Qed.

Lemma never_noticeMaster_mail_owner W comment config :
  equalsMail (get config "BLOGGER_EMAIL") (get comment "mail") = Ok true ->
  never is_mail_sent (noticeMaster W comment (Some config)).
Proof.
  intros H. unfold noticeMaster. rewrite H.
  apply never_bind; [never_tac|]. intros [|]; [never_tac|].
  apply never_bind_lift. intros a [= <-]. never_tac.
Qed.

Lemma noticeMaster_skips_owner W comment config :
  equalsMail (get config "BLOGGER_EMAIL") (get comment "mail") = Ok true ->
  returns (fun r => r = None) (noticeMaster W comment (Some config)).
Proof.
  intros H. unfold noticeMaster. rewrite H.
  eapply returns_bind; [apply settles_no_mailer|].
  intros [] _; [|eapply returns_bind_lift; [reflexivity|]];
    (eapply returns_bind; [apply settles_console|]);
    intros _ _; apply returns_ret; reflexivity.
Qed.

(** C3 (amended). For every comment whose address is the configured owner
    address up to case and surrounding blanks: [noticeMaster] returns
    without sending a mail, [noticePushoo] returns without a push, and,
    unless the comment already carries a truthy [isSpam],
    [postCheckSpam] answers [false] at once: its only effect is the console
    line, no provider is called. *)
Theorem owner_comment_exempt W comment config st :
  same_mail (get comment "mail") (get config "BLOGGER_EMAIL") ->
  (outcome (noticeMaster W comment (Some config) st) = Ok None
   /\ existsb is_mail_sent (events (noticeMaster W comment (Some config) st)) = false)
  /\ (outcome (noticePushoo W comment (Some config) st) = Ok tt
      /\ existsb is_push_sent (events (noticePushoo W comment (Some config) st)) = false)
  /\ (truthy (get comment "isSpam") = false ->
      postCheckSpam W comment (Some config) st
      = (Ok (VBool false), st, [Log (LogSpamVerdict (VBool false))])).
Proof.
  intros Hsame.
  assert (Heq : equalsMail (get config "BLOGGER_EMAIL") (get comment "mail") = Ok true).
  { rewrite equalsMail_sym. apply equalsMail_same. exact Hsame. }
  split; [|split].
  - split.
    + destruct (noticeMaster_skips_owner W comment config Heq st) as (r & Hr & ->).
      exact Hr.
    + apply never_noticeMaster_mail_owner. exact Heq.
  - unfold noticePushoo. rewrite Heq.
    destruct (falsy (get config "PUSHOO_CHANNEL") || falsy (get config "PUSHOO_TOKEN"));
      split; reflexivity.
  - intros Hspam. unfold postCheckSpam, spam_branch_of. rewrite Hspam, Heq.
    reflexivity.
Qed.

Lemma owner_comment_exempt_witness :
  same_mail (get (by_owner visitor) "mail") (get (with_push site) "BLOGGER_EMAIL")
  /\ existsb is_mail_sent
       (events (noticeMaster quiet (by_owner visitor) (Some (with_push site)) fresh)) = false
  /\ existsb is_push_sent
       (events (noticePushoo quiet (by_owner visitor) (Some (with_push site)) fresh)) = false
  /\ postCheckSpam quiet (by_owner visitor) (Some (with_push site)) fresh
     = (Ok (VBool false), fresh, [Log (LogSpamVerdict (VBool false))]).
Proof.
  assert (H : same_mail (get (by_owner visitor) "mail")
                (get (with_push site) "BLOGGER_EMAIL")).
  { split; [reflexivity|]. split; [reflexivity|].
    exists "owner@example.com". split; reflexivity. }
  destruct (owner_comment_exempt quiet _ _ fresh H) as ((_ & Hmail) & (_ & Hpush) & Hspam).
  split; [exact H|]. split; [exact Hmail|]. split; [exact Hpush|].
  apply Hspam. reflexivity.
Defined.

(** C3, as stated, fails for a comment of the owner that already carries
    [isSpam = true]: the first branch of [postCheckSpam] wins and the answer
    is [true], not [false]. *)
Lemma flagged_owner_comment_stays_spam :
  same_mail (get (flagged (by_owner visitor)) "mail") (get site "BLOGGER_EMAIL")
  /\ outcome (postCheckSpam quiet (flagged (by_owner visitor)) (Some site) fresh)
     = Ok (VBool true).
Proof.
  split; [|reflexivity].
  split; [reflexivity|]. split; [reflexivity|].
  exists "owner@example.com". split; reflexivity.
Qed.

Lemma never_noticeReply_mail W comment config parentComment :
  reply_not_due comment config parentComment ->
  never is_mail_sent (noticeReply W comment (Some config) parentComment).
Proof.
  intros H. unfold noticeReply.
  destruct (falsy (get comment "pid")) eqn:Hpid; [never_tac|].
  destruct H as [H|[->|[(p & -> & H)|(p & -> & H)]]].
  - unfold falsy in Hpid. rewrite H in Hpid. discriminate.
  - never_tac.
  - rewrite equalsMail_sym, (equalsMail_same _ _ H).
    apply never_bind; [never_tac|]. intros [|]; [never_tac|].
    apply never_bind_lift. intros a [= <-]. never_tac.
  - rewrite (equalsMail_same _ _ H).
    apply never_bind; [never_tac|]. intros [|]; [never_tac|].
    apply never_bind_lift. intros [|] _; [never_tac|].
    apply never_bind_lift. intros a [= <-]. never_tac.
Qed.

Lemma noticeReply_skips W comment config parentComment :
  reply_not_due comment config parentComment ->
  printable (get config "BLOGGER_EMAIL") = true ->
  returns (fun r => r = None) (noticeReply W comment (Some config) parentComment).
Proof.
  intros H Hprint. unfold noticeReply.
  assert (Hlog : forall l, returns (fun r : option send_result => r = None)
                             (console l ;; ret None)).
  { intros l. eapply returns_bind; [apply settles_console|].
    intros _ _. apply returns_ret. reflexivity. }
  destruct (falsy (get comment "pid")) eqn:Hpid; [apply Hlog|].
  destruct H as [H|[->|[(p & -> & H)|(p & -> & H)]]].
  - unfold falsy in Hpid. rewrite H in Hpid. discriminate.
  - apply Hlog.
  - rewrite equalsMail_sym, (equalsMail_same _ _ H).
    eapply returns_bind; [apply settles_no_mailer|]. intros [] _; [apply Hlog|].
    eapply returns_bind_lift; [reflexivity | apply Hlog].
  - rewrite (equalsMail_same _ _ H).
    eapply returns_bind; [apply settles_no_mailer|].
    intros [] _; [apply Hlog|].
    destruct H as (_ & Hp & n & _ & Hn).
    assert (Heq : exists b, equalsMail (get config "BLOGGER_EMAIL") (get p "mail") = Ok b).
    { unfold equalsMail, normalizeMail in *.
      destruct (falsy _ || falsy _); [eauto|].
      rewrite (ToString_printable _ Hprint). simpl.
      destruct (ToString (get p "mail")); simpl in *; [eauto | discriminate]. }
    destruct Heq as (b & Heq).
    eapply returns_bind_lift; [exact Heq|].
    destruct b; [apply Hlog|].
    eapply returns_bind_lift; [reflexivity | apply Hlog].
Qed.

(** The two tests that come before the mail transport is looked at. *)
Lemma noticeReply_early W comment config parentComment :
  truthy (get comment "pid") = false \/ parentComment = None ->
  returns (fun r => r = None) (noticeReply W comment config parentComment).
Proof.
  intros H. unfold noticeReply, falsy.
  assert (Hlog : forall l, returns (fun r : option send_result => r = None)
                             (console l ;; ret None)).
  { intros l. eapply returns_bind; [apply settles_console|].
    intros _ _. apply returns_ret. reflexivity. }
  destruct H as [-> | ->]; [apply Hlog|].
  destruct (negb _); apply Hlog.
Qed.

(** C4. [noticeReply] sends no mail in each of the four situations taken
    alone, whatever the other inputs are: the comment has no [pid];
    [parentComment] is [null]; the address of the parent is the owner's;
    the address of the commenter is the parent's.  It then returns nothing.
    The one exception is in the last situation, when the owner address is
    an object without a string form: unless the mail transport is missing,
    the owner test, which comes first, throws a TypeError there. *)
Theorem noticeReply_not_due W comment config parentComment st :
  reply_not_due comment config parentComment ->
  (outcome (noticeReply W comment (Some config) parentComment st) = Ok None
   \/ (printable (get config "BLOGGER_EMAIL") = false
       /\ truthy (get comment "pid") = true
       /\ (exists p, parentComment = Some p
                     /\ same_mail (get comment "mail") (get p "mail"))
       /\ outcome (noticeReply W comment (Some config) parentComment st)
          = Throw TypeError))
  /\ existsb is_mail_sent (events (noticeReply W comment (Some config) parentComment st))
     = false.
Proof.
  intros H. split; [|apply never_noticeReply_mail; exact H].
  assert (Hnone : forall m : M (option send_result),
             returns (fun r => r = None) m -> outcome (m st) = Ok None).
  { intros m Hm. destruct (Hm st) as (r & Hr & ->). exact Hr. }
  destruct (printable (get config "BLOGGER_EMAIL")) eqn:Hprint.
  { left. apply Hnone, noticeReply_skips; [exact H | exact Hprint]. }
  destruct (truthy (get comment "pid")) eqn:Hpid.
  2:{ left. apply Hnone, noticeReply_early. left. exact Hpid. }
  destruct H as [H|[->|[(p & -> & H)|(p & -> & H)]]].
  - congruence.
  - left. apply Hnone, noticeReply_early. right. reflexivity.
  - destruct H as (_ & _ & n & _ & Hn). unfold normalizeMail in Hn.
    rewrite (printable_throws _ Hprint) in Hn. discriminate Hn.
  - assert (Hthrow : equalsMail (get config "BLOGGER_EMAIL") (get p "mail")
                     = Throw TypeError).
    { destruct H as (_ & Hp & _). unfold equalsMail, falsy, normalizeMail.
      rewrite (unprintable_truthy _ Hprint), Hp, (printable_throws _ Hprint).
      reflexivity. }
    destruct (settles_no_mailer W (Some config) st) as (skip & Hskip & _).
    assert (Hout : outcome (noticeReply W comment (Some config) (Some p) st)
                   = if skip then Ok None else Throw TypeError).
    { unfold noticeReply, falsy. rewrite Hpid. cbn [negb]. cbv beta iota.
      unfold outcome in Hskip. unfold bind at 1.
      destruct (no_mailer W (Some config) st) as [[r st1] ev1]. simpl in Hskip. subst r.
      destruct skip; [reflexivity|]. cbv beta iota.
      rewrite (bind_lift_throw _ TypeError) by exact Hthrow. reflexivity. }
    rewrite Hout. destruct skip; [left; reflexivity|].
    right. split; [reflexivity|]. split; [reflexivity|].
    split; [exists p; split; [reflexivity | exact H] | reflexivity].
Qed.

Lemma noticeReply_not_due_witness :
  (reply_not_due visitor site (Some author)
      /\ outcome (noticeReply quiet visitor (Some site) (Some author) fresh) = Ok None
      /\ existsb is_mail_sent
           (events (noticeReply quiet visitor (Some site) (Some author) fresh)) = false)
  /\ (reply_not_due (reply_to visitor) site None
      /\ existsb is_mail_sent
           (events (noticeReply quiet (reply_to visitor) (Some site) None fresh)) = false)
  /\ (reply_not_due (reply_to visitor) site (Some (by_owner author))
      /\ existsb is_mail_sent
           (events (noticeReply quiet (reply_to visitor) (Some site)
                      (Some (by_owner author)) fresh))
         = false)
  /\ (reply_not_due (reply_to visitor) site (Some (reply_to visitor))
      /\ existsb is_mail_sent
           (events (noticeReply quiet (reply_to visitor) (Some site)
                      (Some (reply_to visitor)) fresh))
         = false).
Proof.
  assert (H1 : reply_not_due visitor site (Some author)) by (left; reflexivity).
  assert (H2 : reply_not_due (reply_to visitor) site None) by (right; left; reflexivity).
  assert (H3 : reply_not_due (reply_to visitor) site (Some (by_owner author))).
  { right; right; left. eexists. split; [reflexivity|].
    split; [reflexivity|]. split; [reflexivity|].
    exists "owner@example.com". split; reflexivity. }
  assert (H4 : reply_not_due (reply_to visitor) site (Some (reply_to visitor))).
  { right; right; right. eexists. split; [reflexivity|].
    split; [reflexivity|]. split; [reflexivity|].
    exists "bob@example.com". split; reflexivity. }
  split.
  { split; [exact H1|].
    destruct (noticeReply_not_due quiet _ _ _ fresh H1) as ([Ho|(Hp & _)] & Hn);
      [split; [exact Ho | exact Hn] | discriminate Hp]. }
  split; [split; [exact H2 | apply (noticeReply_not_due quiet _ _ _ fresh H2)]|].
  split; [split; [exact H3 | apply (noticeReply_not_due quiet _ _ _ fresh H3)]|].
  split; [exact H4 | apply (noticeReply_not_due quiet _ _ _ fresh H4)].
Defined.

(** When none of the four situations holds and the transport is usable, the
    reply mail does go out. *)
Example noticeReply_due :
  existsb is_mail_sent
    (events (noticeReply quiet (reply_to visitor) (Some site) (Some author) fresh))
  = true.
Proof. reflexivity. Qed.

(** *** Spam classification *)

Lemma postCheckSpam_flagged W comment config st :
  truthy (get comment "isSpam") = true ->
  postCheckSpam W comment config st
  = (Ok (VBool true), st, [Log (LogSpamVerdict (VBool true))]).
Proof.
  intros H. unfold postCheckSpam. rewrite H. reflexivity.
Qed.

Lemma ensures_resolve_qq_avatar W comment k :
  k <> "avatar" ->
  ensures (fun c => get c k = get comment k) (resolve_qq_avatar W comment).
Proof.
  intros Hk. unfold resolve_qq_avatar.
  apply ensures_bind. intros [|]; [|apply ensures_ret; reflexivity].
  apply ensures_try; [|intros e; apply ensures_bind; intros _; apply ensures_ret; reflexivity].
  apply ensures_bind; intros m. apply ensures_bind; intros avatar.
  destruct (truthy avatar); [|apply ensures_ret; reflexivity].
  apply ensures_bind; intros _. apply ensures_ret.
  apply get_insert_ne. congruence.
Qed.

Lemma never_provider_sendNotice W comment config parentComment :
  never is_provider_call (sendNotice W comment config parentComment).
Proof.
  unfold sendNotice, noticeMaster, noticeReply, noticePushoo, push. never_tac.
Qed.

Lemma never_spam_line_sendNotice W comment config parentComment :
  never is_spam_check_line (sendNotice W comment config parentComment).
Proof.
  unfold sendNotice, noticeMaster, noticeReply, noticePushoo, push. never_tac.
Qed.

Lemma never_provider_resolve_qq_avatar W comment :
  never is_provider_call (resolve_qq_avatar W comment).
Proof. unfold resolve_qq_avatar. never_tac. Qed.

Lemma never_spam_line_resolve_qq_avatar W comment :
  never is_spam_check_line (resolve_qq_avatar W comment).
Proof. unfold resolve_qq_avatar. never_tac. Qed.

Lemma classify_flagged W comment config st :
  truthy (get comment "isSpam") = true ->
  classify W comment config st = (Ok (get comment "isSpam"), st, []).
Proof. intros H. unfold classify, falsy. rewrite H. reflexivity. Qed.

(** A run of [handlePostSubmit] on a comment that is already flagged. *)
Lemma never_handlePostSubmit_flagged P W comment config parentComment :
  truthy (get comment "isSpam") = true ->
  quiet_on_handler_lines P ->
  (forall c, never P (resolve_qq_avatar W c)) ->
  (forall c, never P (sendNotice W c config parentComment)) ->
  never P (handlePostSubmit W (Some (SubmitData (Some comment) config parentComment))).
Proof.
  intros Hspam (Hstart & Hdone & Hfail & Hpost) Hres Hsend. unfold handlePostSubmit.
  apply never_try.
  2:{ intros e. apply never_bind; [apply never_console, Hpost|].
      intros _. apply never_ret. }
  apply never_bind; [apply never_console, Hstart|]. intros _.
  eapply never_bind_post;
    [apply (ensures_resolve_qq_avatar W comment "isSpam"); discriminate | apply Hres |].
  intros c' Hc'. cbv beta in Hc'.
  apply never_bind.
  { intros st. rewrite classify_flagged by (rewrite Hc'; exact Hspam). reflexivity. }
  intros isSpam. apply never_bind; [|intros _; apply never_ret].
  apply never_try.
  - apply never_bind; [apply Hsend|]. intros _. apply never_console, Hdone.
  - intros e. apply never_console, Hfail.
Qed.

(** Every run of [postCheckSpam] leaves one of its console lines. *)
Lemma postCheckSpam_leaves_a_line W comment config st :
  existsb is_spam_check_line (events (postCheckSpam W comment config st)) = true.
Proof.
  unfold postCheckSpam, events.
  destruct (truthy (get comment "isSpam")); [reflexivity|].
  destruct config as [config|]; [|reflexivity].
  destruct (spam_branch_of comment config) as [[| | | |]|e]; try reflexivity.
  - unfold qcloud_check, try_catch, bind, external, lift, console, verdict, ret.
    destruct (respond W (clock st) _); simpl; [|reflexivity].
    destruct (base64_utf8 W _); simpl; [|reflexivity].
    destruct (respond W (S (clock st)) _); reflexivity.
  - unfold try_catch, bind, external, lift, console, verdict, ret.
    destruct (respond W (clock st) _); simpl; [|reflexivity].
    destruct (falsy v); simpl; [reflexivity|].
    destruct (respond W (S (clock st)) _); reflexivity.
Qed.

(** C5. For a comment whose [isSpam] is already set (true, or any truthy
    value), [postCheckSpam] takes its first branch and answers [true] with
    no other effect than its console line, so without a call to the
    moderation or the spam-detection provider, and without even reading the
    configuration; and a run of [handlePostSubmit] does not run
    [postCheckSpam] at all (none of its console lines appears) and makes no
    provider call.  Whenever that run answers SUCCESS, which it does unless
    the address test of line 468 throws, the answer carries the comment's
    own [isSpam]. *)
Theorem flagged_comment_skips_providers W comment config parentComment st :
  truthy (get comment "isSpam") = true ->
  spam_branch_of comment config = Ok Flagged
  /\ (forall settings,
        postCheckSpam W comment settings st
        = (Ok (VBool true), st, [Log (LogSpamVerdict (VBool true))]))
  /\ (truthy (get comment "avatar") = true \/ printable (get comment "mail") = true ->
      exists avatar,
        outcome (handlePostSubmit W (submit comment config parentComment) st)
        = Ok (SubmitResult SUCCESS (get comment "isSpam") avatar))
  /\ existsb is_provider_call
       (events (handlePostSubmit W (submit comment config parentComment) st)) = false
  /\ existsb is_spam_check_line
       (events (handlePostSubmit W (submit comment config parentComment) st)) = false.
Proof.
  intros Hspam. split; [unfold spam_branch_of; rewrite Hspam; reflexivity|].
  split; [intros settings; apply postCheckSpam_flagged; exact Hspam|].
  split; [|split].
  - intros Hw. destruct (wants_qq_avatar_ok comment Hw) as (b & Hb).
    assert (H : returns (fun r => exists avatar,
                           r = SubmitResult SUCCESS (get comment "isSpam") avatar)
                  (handlePostSubmit W (submit comment config parentComment))).
    { unfold handlePostSubmit, submit. apply returns_try.
      eapply returns_bind; [apply settles_console|]. intros _ _.
      eapply returns_bind.
      { apply returns_ensures; [apply (settles_resolve_qq_avatar W comment b Hb)|].
        apply (ensures_resolve_qq_avatar W comment "isSpam"). discriminate. }
      intros c' Hc'. cbv beta in Hc'.
      eapply returns_bind with (Q1 := fun v => v = get comment "isSpam").
      { intros st'. rewrite classify_flagged by (rewrite Hc'; exact Hspam).
        eexists. split; [reflexivity | exact Hc']. }
      intros isSpam ->.
      eapply returns_bind with (Q1 := fun _ => True).
      { apply settles_try. intros e. apply settles_console. }
      intros _ _. apply returns_ret. eauto. }
    destruct (H st) as (r & Hr & avatar & ->). eauto.
  - apply never_handlePostSubmit_flagged; try exact Hspam.
    + repeat split.
    + intros c. apply never_provider_resolve_qq_avatar.
    + intros c. apply never_provider_sendNotice.
  - apply never_handlePostSubmit_flagged; try exact Hspam.
    + repeat split.
    + intros c. apply never_spam_line_resolve_qq_avatar.
    + intros c. apply never_spam_line_sendNotice.
Qed.

Lemma flagged_comment_skips_providers_witness :
  truthy (get (flagged visitor) "isSpam") = true
  /\ postCheckSpam broken (flagged visitor) (Some site) fresh
     = (Ok (VBool true), fresh, [Log (LogSpamVerdict (VBool true))])
  /\ (truthy (get (flagged visitor) "avatar") = true
      \/ printable (get (flagged visitor) "mail") = true)
  /\ (exists avatar,
        outcome (handlePostSubmit broken (submit (flagged visitor) site None) fresh)
        = Ok (SubmitResult SUCCESS (VBool true) avatar))
  /\ existsb is_provider_call
       (events (handlePostSubmit broken (submit (flagged visitor) site None) fresh))
     = false.
Proof.
  assert (H : truthy (get (flagged visitor) "isSpam") = true) by reflexivity.
  assert (Hw : truthy (get (flagged visitor) "avatar") = true
               \/ printable (get (flagged visitor) "mail") = true)
    by (right; reflexivity).
  destruct (flagged_comment_skips_providers broken _ site None fresh H)
    as (_ & Hp & Hs & Hc & _).
  split; [exact H|]. split; [exact (Hp (Some site))|].
  split; [exact Hw|]. split; [exact (Hs Hw) | exact Hc].
Defined.

(** *** Owner mail and push *)

Lemma noticeMaster_push_preferred W comment config :
  truthy (get config "PUSHOO_CHANNEL") = true ->
  truthy (get config "PUSHOO_TOKEN") = true ->
  get config "SC_MAIL_NOTIFY" <> VStr "true" ->
  (forall b, equalsMail (get config "BLOGGER_EMAIL") (get comment "mail") = Ok b ->
             returns (fun r => r = None) (noticeMaster W comment (Some config)))
  /\ never is_mail_sent (noticeMaster W comment (Some config)).
Proof.
  intros Hch Htok Hsc. unfold noticeMaster, js_and.
  rewrite Hch, Htok, (is_str_false _ _ Hsc). simpl. split.
  - intros b Hb.
    eapply returns_bind; [apply settles_no_mailer|].
    intros [] _; [|eapply returns_bind_lift; [exact Hb|]; destruct b];
      (eapply returns_bind; [apply settles_console|]);
      intros _ _; apply returns_ret; reflexivity.
  - never_tac.
Qed.

Lemma noticePushoo_proceeds W comment config :
  truthy (get config "PUSHOO_CHANNEL") = true ->
  truthy (get config "PUSHOO_TOKEN") = true ->
  equalsMail (get config "BLOGGER_EMAIL") (get comment "mail") = Ok false ->
  forall st, noticePushoo W comment (Some config) st = push W comment config st.
Proof.
  intros Hch Htok Hne st. unfold noticePushoo, falsy.
  rewrite Hch, Htok. simpl. rewrite (bind_lift_ok _ false) by exact Hne. reflexivity.
Qed.

Lemma push_calls_gateway W comment config m st :
  push_message_of comment config = Ok m ->
  In (Call (Pushoo (get config "PUSHOO_CHANNEL") m)) (events (push W comment config st)).
Proof.
  intros Hm. unfold push, bind, lift, external, console, events. rewrite Hm.
  destruct (respond W (clock st) _); simpl; left; reflexivity.
Qed.

(** C6. With PUSHOO_CHANNEL and PUSHOO_TOKEN configured and SC_MAIL_NOTIFY
    anything but the string "true", [noticeMaster] sends no mail and
    returns nothing; the one other way it can end is the TypeError of its
    owner test, which comes first, on an address without a string form.
    Meanwhile [noticePushoo], for a commenter whom that test tells apart
    from the owner, passes both of its guards and goes on to the push: it
    calls the gateway with the message composed from the comment (for a
    comment whose text and link are strings, so that the message can be
    composed). *)
Theorem push_replaces_owner_mail W comment config st :
  truthy (get config "PUSHOO_CHANNEL") = true ->
  truthy (get config "PUSHOO_TOKEN") = true ->
  get config "SC_MAIL_NOTIFY" <> VStr "true" ->
  ((outcome (noticeMaster W comment (Some config) st) = Ok None
    \/ (equalsMail (get config "BLOGGER_EMAIL") (get comment "mail") = Throw TypeError
        /\ outcome (noticeMaster W comment (Some config) st) = Throw TypeError))
   /\ existsb is_mail_sent (events (noticeMaster W comment (Some config) st)) = false)
  /\ (equalsMail (get config "BLOGGER_EMAIL") (get comment "mail") = Ok false ->
      (forall st', noticePushoo W comment (Some config) st' = push W comment config st')
      /\ forall m, push_message_of comment config = Ok m ->
           In (Call (Pushoo (get config "PUSHOO_CHANNEL") m))
              (events (noticePushoo W comment (Some config) st))).
Proof.
  intros Hch Htok Hsc. split.
  - destruct (noticeMaster_push_preferred W comment config Hch Htok Hsc) as (Hr & Hn).
    split; [|apply Hn].
    destruct (equalsMail (get config "BLOGGER_EMAIL") (get comment "mail")) as [b|e] eqn:Heq.
    { left. destruct (Hr b eq_refl st) as (r & Ho & ->). exact Ho. }
    pose proof (equalsMail_TypeError _ _ _ Heq) as ->.
    destruct (settles_no_mailer W (Some config) st) as (skip & Hskip & _).
    assert (Hout : outcome (noticeMaster W comment (Some config) st)
                   = if skip then Ok None else Throw TypeError).
    { unfold noticeMaster. unfold outcome in Hskip. unfold bind at 1.
      destruct (no_mailer W (Some config) st) as [[r st1] ev1]. simpl in Hskip. subst r.
      destruct skip; [reflexivity|]. cbv beta iota.
      rewrite (bind_lift_throw _ TypeError) by exact Heq. reflexivity. }
    rewrite Hout. destruct skip; [left; reflexivity | right; split; reflexivity].
  - intros Heq.
    split; [apply noticePushoo_proceeds; assumption|].
    intros m Hm. rewrite noticePushoo_proceeds by assumption.
    apply push_calls_gateway. exact Hm.
Qed.

Lemma push_replaces_owner_mail_witness :
  (truthy (get (with_push site) "PUSHOO_CHANNEL") = true
   /\ truthy (get (with_push site) "PUSHOO_TOKEN") = true
   /\ get (with_push site) "SC_MAIL_NOTIFY" <> VStr "true")
  /\ equalsMail (get (with_push site) "BLOGGER_EMAIL") (get visitor "mail") = Ok false
  /\ outcome (noticeMaster quiet visitor (Some (with_push site)) fresh) = Ok None
  /\ existsb is_mail_sent (events (noticeMaster quiet visitor (Some (with_push site)) fresh))
     = false
  /\ existsb is_push_sent (events (noticePushoo quiet visitor (Some (with_push site)) fresh))
     = true.
Proof.
  assert (H1 : truthy (get (with_push site) "PUSHOO_CHANNEL") = true) by reflexivity.
  assert (H2 : truthy (get (with_push site) "PUSHOO_TOKEN") = true) by reflexivity.
  assert (H3 : get (with_push site) "SC_MAIL_NOTIFY" <> VStr "true") by discriminate.
  assert (H4 : equalsMail (get (with_push site) "BLOGGER_EMAIL") (get visitor "mail")
               = Ok false) by reflexivity.
  destruct (push_replaces_owner_mail quiet visitor _ fresh H1 H2 H3)
    as ((Hret & Hmail) & Hpush).
  split; [auto|]. split; [exact H4|].
  split; [destruct Hret as [Ho|(Hx & _)]; [exact Ho | discriminate Hx]|].
  split; [exact Hmail|].
  destruct (Hpush H4) as (_ & Hcall).
  specialize (Hcall _ eq_refl).
  apply existsb_exists. eexists. split; [exact Hcall | reflexivity].
Defined.

(** Without the push configuration the same comment is mailed to the owner. *)
Example owner_mail_without_push :
  existsb is_mail_sent (events (noticeMaster quiet visitor (Some site) fresh)) = true.
Proof. reflexivity. Qed.

(** C9. [equalsMail] is false as soon as one of the two values is absent,
    null or the empty string; hence, when BLOGGER_EMAIL is not configured or
    the comment has no mail, the owner exemption of the spam check is not
    the branch taken, and neither [noticeMaster] nor [noticePushoo] takes
    its owner skip. *)
Theorem equalsMail_needs_both W comment config st :
  (forall a b, missing a \/ missing b -> equalsMail a b = Ok false)
  /\ (missing (get config "BLOGGER_EMAIL") \/ missing (get comment "mail") ->
      spam_branch_of comment config <> Ok OwnerExempt
      /\ existsb is_owner_skip (events (noticeMaster W comment (Some config) st)) = false
      /\ existsb is_owner_skip (events (noticePushoo W comment (Some config) st)) = false).
Proof.
  assert (Hgen : forall a b, missing a \/ missing b -> equalsMail a b = Ok false).
  { intros a b [H|H]; apply equalsMail_falsy; [left|right]; apply missing_falsy, H. }
  split; [exact Hgen|]. intros H. specialize (Hgen _ _ H). split; [|split].
  - unfold spam_branch_of. rewrite Hgen.
    destruct (truthy (get comment "isSpam")); [discriminate|]. simpl.
    destruct (truthy (js_and _ _)); [discriminate|].
    destruct (truthy (get config "AKISMET_KEY")); discriminate.
  - revert st. change (never is_owner_skip (noticeMaster W comment (Some config))).
    unfold noticeMaster. rewrite Hgen.
    apply never_bind; [never_tac|]. intros [|]; [never_tac|].
    apply never_bind_lift. intros a [= <-]. never_tac.
  - revert st. change (never is_owner_skip (noticePushoo W comment (Some config))).
    unfold noticePushoo, push. rewrite Hgen.
    destruct (falsy _ || falsy _); [never_tac|].
    apply never_bind_lift. intros a [= <-]. never_tac.
Qed.

Lemma equalsMail_needs_both_witness :
  (missing (get (delete "BLOGGER_EMAIL" site) "BLOGGER_EMAIL") \/ missing (get visitor "mail"))
  /\ equalsMail (get (delete "BLOGGER_EMAIL" site) "BLOGGER_EMAIL") (VStr "") = Ok false
  /\ spam_branch_of visitor (delete "BLOGGER_EMAIL" site) <> Ok OwnerExempt
  /\ existsb is_owner_skip
       (events (noticeMaster quiet visitor (Some (delete "BLOGGER_EMAIL" site)) fresh))
     = false.
Proof.
  assert (H : missing (get (delete "BLOGGER_EMAIL" site) "BLOGGER_EMAIL")
              \/ missing (get visitor "mail")) by (left; left; reflexivity).
  destruct (equalsMail_needs_both quiet visitor (delete "BLOGGER_EMAIL" site) fresh)
    as (Hgen & Hrest).
  destruct (Hrest H) as (Hb & Hm & _).
  split; [exact H|]. split; [apply Hgen; right; right; right; reflexivity|].
  split; [exact Hb | exact Hm].
Defined.

(** *** Fan-out *)




Lemma rejects_only_weaken {A} (S S' : exn -> Prop) (m : M A) :
  rejects_only S m -> (forall e, S e -> S' e) -> rejects_only S' m.
Proof. intros Hm HS st e He. apply HS, (Hm st e He). Qed.










Lemma settles_settle {A} (m : M A) : settles (settle m).
Proof. unfold settle. settles_tac. Qed.









(** ** Strings *)

Lemma indexOf_absent c s : ~ occurs c s -> indexOf s c = -1.
Proof.
  unfold occurs. induction s as [|d s IH]; simpl; [reflexivity|].
  intros H. destruct (Ascii.eqb_spec d c) as [->|Hne].
  - exfalso. apply H. left. reflexivity.
  - rewrite IH by (intros Hin; apply H; right; exact Hin). reflexivity.
Qed.

Lemma append_cons d p r : String d p +:+ r = String d (p +:+ r).
Proof. reflexivity. Qed.

Lemma append_nil r : "" +:+ r = r.
Proof. reflexivity. Qed.

Lemma indexOf_first c p r :
  ~ occurs c p -> indexOf (p +:+ String c r) c = Z.of_nat (String.length p).
Proof.
  unfold occurs. induction p as [|d p IH]; intros H.
  - rewrite append_nil. simpl. rewrite Ascii.eqb_refl. reflexivity.
  - rewrite append_cons. cbn [indexOf String.length].
    destruct (Ascii.eqb_spec d c) as [->|Hne].
    + exfalso. apply H. left. reflexivity.
    + rewrite IH by (intros Hin; apply H; right; exact Hin).
      destruct (Z.eqb_spec (Z.of_nat (String.length p)) (-1)); lia.
Qed.

Lemma substring_prefix p r :
  String.substring 0 (String.length p) (p +:+ r) = p.
Proof.
  induction p as [|d p IH].
  - rewrite append_nil. destruct r; reflexivity.
  - rewrite append_cons. cbn [String.length String.substring]. rewrite IH. reflexivity.
Qed.

Lemma length_append p r :
  String.length (p +:+ r) = (String.length p + String.length r)%nat.
Proof.
  induction p as [|d p IH]; [reflexivity|].
  rewrite append_cons. cbn [String.length]. rewrite IH. reflexivity.
Qed.

Lemma js_substring_prefix p r :
  js_substring (p +:+ r) 0 (Z.of_nat (String.length p)) = p.
Proof.
  unfold js_substring. rewrite length_append.
  replace (Z.min (Z.max 0 0) _) with 0 by lia.
  replace (Z.min (Z.max (Z.of_nat (String.length p)) 0) _)
    with (Z.of_nat (String.length p)) by lia.
  replace (Z.min 0 _) with 0 by lia.
  replace (Z.max 0 (Z.of_nat (String.length p))) with (Z.of_nat (String.length p)) by lia.
  rewrite Z.sub_0_r, Nat2Z.id. apply substring_prefix.
Qed.

(** C7. [appendHashToUrl url hash], for a string [url] and the string form
    [h] of the hash: when [url] has no "#", the result is [url], "#", and
    [h]; when [url] has one, the result is the part of [url] before its
    first "#", then "#" and [h].  (A hash without a string form makes the
    call throw, in both cases.)  So "https://x/y#old" with "abc" gives
    "https://x/y#abc". *)
Theorem appendHashToUrl_permalink :
  (forall url hash,
     ~ occurs "#" url ->
     appendHashToUrl (VStr url) hash
     = (h <-? ToString hash ;; Ok (url +:+ "#" +:+ h)))
  /\ (forall before rest hash,
        ~ occurs "#" before ->
        appendHashToUrl (VStr (before +:+ "#" +:+ rest)) hash
        = (h <-? ToString hash ;; Ok (before +:+ "#" +:+ h)))
  /\ appendHashToUrl (VStr "https://x/y#old") (VStr "abc") = Ok "https://x/y#abc".
Proof.
  split; [|split].
  - intros url hash H. unfold appendHashToUrl.
    rewrite (indexOf_absent _ _ H). reflexivity.
  - intros before rest hash H. unfold appendHashToUrl.
    change ("#" +:+ rest) with (String "#" rest).
    rewrite (indexOf_first _ _ rest H).
    destruct (Z.eqb_spec (Z.of_nat (String.length before)) (-1)); [lia|].
    rewrite js_substring_prefix. reflexivity.
  - reflexivity.
Qed.

Lemma appendHashToUrl_permalink_witness :
  (~ occurs "#" "https://x/y"
   /\ appendHashToUrl (VStr "https://x/y") (VStr "abc") = Ok "https://x/y#abc")
  /\ (~ occurs "#" "https://x/y"
      /\ appendHashToUrl (VStr "https://x/y#old#older") (VStr "abc") = Ok "https://x/y#abc").
Proof.
  assert (H : ~ occurs "#" "https://x/y").
  { unfold occurs. simpl. intros Hin.
    repeat (destruct Hin as [Hin|Hin]; [discriminate Hin|]). exact Hin. }
  destruct appendHashToUrl_permalink as (Hno & Hyes & _).
  split; split; try exact H.
  - exact (Hno "https://x/y" (VStr "abc") H).
  - exact (Hyes "https://x/y" "old#older" (VStr "abc") H).
Defined.

(** ** Regular expressions *)

Lemma repeat_once p next c s n :
  p c = true -> next s = Some n ->
  Re.repeat (Re.once p) next 0 (String c s) = Some (S n).
Proof.
  intros Hp Hn. cbn [Re.repeat Re.once Re.rmax Re.rmin Re.accepts Re.below].
  rewrite Hp. cbn [Nat.ltb Nat.leb andb].
  destruct s as [|c' s']; cbn [Re.repeat Re.rmax Re.rmin Re.accepts Re.below Nat.ltb Nat.leb andb];
    rewrite Hn; reflexivity.
Qed.

Lemma repeat_once_reject p next c s :
  p c = false -> Re.repeat (Re.once p) next 0 (String c s) = None.
Proof.
  intros Hp. cbn [Re.repeat Re.once Re.rmax Re.rmin Re.accepts Re.below].
  rewrite Hp. rewrite andb_false_r. reflexivity.
Qed.

(** A bounded repetition that meets exactly the characters it may take. *)
Lemma repeat_run p lo hi next ds : forall k rest n,
  forallb p (list_ascii_of_string ds) = true ->
  (lo <= k + String.length ds <= hi)%nat ->
  match rest with String c _ => p c = false | EmptyString => True end ->
  next rest = Some n ->
  Re.repeat (Re.rep p lo hi) next k (ds +:+ rest) = Some (String.length ds + n)%nat.
Proof.
  induction ds as [|d ds IH]; intros k rest n Hall Hlen Hrest Hnext.
  - rewrite append_nil. cbn [String.length] in *.
    assert (Hlo : (lo <=? k)%nat = true) by (apply Nat.leb_le; lia).
    destruct rest as [|c r];
      cbn [Re.repeat Re.rep Re.rmax Re.rmin Re.accepts Re.below].
    + rewrite Hlo. exact Hnext.
    + rewrite Hrest, andb_false_r, Hlo. exact Hnext.
  - rewrite append_cons. cbn [String.length list_ascii_of_string forallb] in *.
    apply andb_true_iff in Hall as (Hd & Hall).
    cbn [Re.repeat Re.rep Re.rmax Re.rmin Re.accepts Re.below].
    assert (Hk : (k <? hi)%nat = true) by (apply Nat.ltb_lt; lia).
    rewrite Hk, Hd. cbn [andb].
    change (Re.Atom p lo (Some hi)) with (Re.rep p lo hi).
    rewrite (IH (S k) rest n) by (try assumption; lia). reflexivity.
Qed.

Lemma isQQ_mail_form d c :
  qq_number d -> c <> LF -> c <> CR ->
  isQQ (VStr (d +:+ "@qq" +:+ String c "com")) = Ok true.
Proof.
  intros (c1 & ds & -> & Hc1 & Hds & Hlen) Hlf Hcr.
  assert (Hdot : Re.dot c = true).
  { unfold Re.dot, char_code. apply negb_true_iff, orb_false_iff.
    split; apply N.eqb_neq; intros E; [apply Hlf | apply Hcr];
      rewrite <- (ascii_N_embedding c), E; reflexivity. }
  unfold isQQ. cbn [ToString rbind]. f_equal. apply orb_true_iff. right.
  unfold Re.test, re_qq_mail. cbn [Re.bol Re.atoms Re.eol].
  rewrite append_cons. cbn [app Re.match_here].
  erewrite repeat_once; [reflexivity | exact Hc1 |].
  apply repeat_run; [exact Hds | lia | reflexivity |].
  change ("@qq" +:+ String c "com")
    with (String "@" (String "q" (String "q" (String c "com")))).
  cbn [Re.word_i app Re.match_here].
  repeat (eapply repeat_once; [first [exact Hdot | reflexivity]|]).
  reflexivity.
Qed.

Lemma isQQ_wildcard_example : isQQ (VStr "12345@qqxcom") = Ok true.
Proof. vm_compute. reflexivity. Qed.

Lemma handleGetQQAvatar_wildcard_run W st :
  handleGetQQAvatar W (Some (VStr "12345@qqxcom")) st
  = (avatar <- getQQAvatar W (VStr "12345@qqxcom") ;; ret (AvatarResult SUCCESS avatar)) st
  /\ (exists avatar,
        outcome (handleGetQQAvatar W (Some (VStr "12345@qqxcom")) st)
        = Ok (AvatarResult SUCCESS avatar))
  /\ (exists rest,
        events (handleGetQQAvatar W (Some (VStr "12345@qqxcom")) st)
        = Call (HttpGet "https://aq.qq.com/cn2/get_img/get_face?img_type=3&uin=12345")
            :: rest).
Proof.
  assert (E1 : Re.replace re_qq_suffix "" "12345@qqxcom" = "12345@qqxcom")
    by (vm_compute; reflexivity).
  assert (E2 : "https://aq.qq.com/cn2/get_img/get_face?img_type=3&uin="
               +:+ Re.replace re_qq_anywhere "" "12345@qqxcom"
               = "https://aq.qq.com/cn2/get_img/get_face?img_type=3&uin=12345")
    by (vm_compute; reflexivity).
  unfold handleGetQQAvatar, getQQAvatar, try_catch, bind, lift, external, console, ret,
    outcome, events.
  rewrite isQQ_wildcard_example. cbn [negb as_string]. cbv beta iota zeta.
  rewrite E1, E2.
  destruct (respond W (clock st) _); simpl; eauto.
Qed.

(** C10 (amended). [isQQ] accepts every string made of a QQ number (five
    to eleven digits, the first not 0), "@qq", one character other than a
    line terminator, and "com": the dot of its pattern is a wildcard.
    [handleGetQQAvatar] removes only a true "@qq.com" suffix.  So for
    "12345@qqxcom" the action answers SUCCESS, not FAIL, and [getQQAvatar]
    is called with the whole string "12345@qqxcom"; the pattern of
    [getQQAvatar] has the same wildcard and removes "@qqxcom", so that the
    HTTP request carries uin=12345. *)
Theorem isQQ_dot_is_wildcard W st :
  (forall d c, qq_number d -> c <> LF -> c <> CR ->
               isQQ (VStr (d +:+ "@qq" +:+ String c "com")) = Ok true)
  /\ Re.replace re_qq_suffix "" "12345@qq.com" = "12345"
  /\ Re.replace re_qq_suffix "" "12345@qqxcom" = "12345@qqxcom"
  /\ handleGetQQAvatar W (Some (VStr "12345@qqxcom")) st
     = (avatar <- getQQAvatar W (VStr "12345@qqxcom") ;;
        ret (AvatarResult SUCCESS avatar)) st
  /\ (exists avatar,
        outcome (handleGetQQAvatar W (Some (VStr "12345@qqxcom")) st)
        = Ok (AvatarResult SUCCESS avatar))
  /\ (exists rest,
        events (handleGetQQAvatar W (Some (VStr "12345@qqxcom")) st)
        = Call (HttpGet "https://aq.qq.com/cn2/get_img/get_face?img_type=3&uin=12345")
            :: rest).
Proof.
  split; [exact isQQ_mail_form|].
  split; [vm_compute; reflexivity|].
  split; [vm_compute; reflexivity|].
  apply handleGetQQAvatar_wildcard_run.
Qed.

Lemma isQQ_dot_is_wildcard_witness :
  (qq_number "12345678901" /\ "-"%char <> LF /\ "-"%char <> CR)
  /\ isQQ (VStr "12345678901@qq-com") = Ok true.
Proof.
  assert (Hd : qq_number "12345678901").
  { exists "1"%char, "2345678901". repeat split; try reflexivity; simpl; lia. }
  assert (Hlf : "-"%char <> LF) by discriminate.
  assert (Hcr : "-"%char <> CR) by discriminate.
  destruct (isQQ_dot_is_wildcard quiet fresh) as (H & _).
  split; [auto|].
  exact (H "12345678901" "-"%char Hd Hlf Hcr).
Defined.

(** C10, as stated, fails twice.  The character after "@qq" cannot be a
    line feed: the dot of the pattern does not match a line terminator.
    And for "12345@qqxcom" the HTTP lookup does receive the numeric id:
    [getQQAvatar] strips "@qqxcom" with its own pattern. *)
Lemma isQQ_rejects_line_feed :
  isQQ (VStr ("12345@qq" +:+ String LF "com")) = Ok false
  /\ events (handleGetQQAvatar quiet (Some (VStr "12345@qqxcom")) fresh)
     = [Call (HttpGet "https://aq.qq.com/cn2/get_img/get_face?img_type=3&uin=12345")].
Proof. split; vm_compute; reflexivity. Qed.

(** ** Template substitution *)

Lemma append_assoc a b c : (a +:+ b) +:+ c = a +:+ (b +:+ c).
Proof.
  induction a as [|x a IH]; [reflexivity|].
  rewrite !append_cons, IH. reflexivity.
Qed.

Lemma occurs_cons c d s : occurs c (String d s) <-> d = c \/ occurs c s.
Proof. reflexivity. Qed.

Lemma occurs_append c a b : occurs c (a +:+ b) <-> occurs c a \/ occurs c b.
Proof.
  induction a as [|x a IH].
  - rewrite append_nil. unfold occurs at 2. simpl. tauto.
  - rewrite append_cons, !occurs_cons, IH. tauto.
Qed.

(** A literal word matches exactly where it is a prefix. *)
Lemma match_word_prefix w rest :
  Re.match_here (Re.word w) false (w +:+ rest) = Some (String.length w).
Proof.
  induction w as [|c w IH].
  - rewrite append_nil. destruct rest; reflexivity.
  - rewrite append_cons. cbn [Re.word Re.match_here String.length].
    apply repeat_once; [apply Ascii.eqb_refl | exact IH].
Qed.

Lemma match_word_head c w d s :
  c <> d -> Re.match_here (Re.word (String c w)) false (String d s) = None.
Proof.
  intros H. cbn [Re.word Re.match_here]. apply repeat_once_reject.
  apply Ascii.eqb_neq. exact H.
Qed.

Lemma match_word_cons c w s :
  Re.match_here (Re.word (String c w)) false (String c s)
  = option_map S (Re.match_here (Re.word w) false s).
Proof.
  cbn [Re.word Re.match_here].
  destruct (Re.match_here (Re.word w) false s) as [n|] eqn:E.
  - apply repeat_once; [apply Ascii.eqb_refl | exact E].
  - cbn [Re.repeat Re.once Re.rmax Re.rmin Re.accepts Re.below Re.chr option_map].
    rewrite Ascii.eqb_refl. cbn [Nat.ltb Nat.leb andb].
    destruct s; cbn [Re.repeat Re.rmax Re.rmin Re.accepts Re.below Nat.ltb Nat.leb andb];
      rewrite E; reflexivity.
Qed.

(** Two names followed by "}" can only match when they are equal. *)
Lemma match_name_differs a b rest :
  ~ occurs "}" a -> ~ occurs "}" b -> a <> b ->
  Re.match_here (Re.word (a +:+ "}")) false (b +:+ "}" +:+ rest) = None.
Proof.
  revert b. induction a as [|x a IH]; intros [|y b] Ha Hb Hne.
  - congruence.
  - rewrite append_nil, append_cons. apply match_word_head.
    intros <-. apply Hb. left. reflexivity.
  - rewrite append_nil, append_cons.
    change ("}" +:+ rest) with (String "}" rest). apply match_word_head.
    intros ->. apply Ha. left. reflexivity.
  - rewrite !append_cons. destruct (ascii_dec x y) as [->|Hxy].
    + rewrite match_word_cons, IH; [reflexivity | | | congruence].
      * intros H. apply Ha. right. exact H.
      * intros H. apply Hb. right. exact H.
    + apply match_word_head. exact Hxy.
Qed.

Lemma match_token_other n m rest :
  ~ occurs "}" n -> ~ occurs "}" m -> n <> m ->
  Re.match_here (Re.word (token n)) false (token m +:+ rest) = None.
Proof.
  intros Hn Hm Hne. unfold token.
  change ("${" +:+ n +:+ "}") with (String "$" (String "{" (n +:+ "}"))).
  change ("${" +:+ m +:+ "}") with (String "$" (String "{" (m +:+ "}"))).
  rewrite !append_cons, !match_word_cons, append_assoc.
  rewrite match_name_differs by assumption. reflexivity.
Qed.

Lemma get_substitution_plain before matched after repl :
  plain repl -> Re.get_substitution before matched after repl = repl.
Proof.
  unfold plain. induction repl as [|c repl IH]; intros H; [reflexivity|].
  assert (Hc : c <> "$"%char) by (intros ->; apply H; left; reflexivity).
  assert (Hr : ~ occurs "$" repl) by (intros Hin; apply H; right; exact Hin).
  specialize (IH Hr).
  cbn [Re.get_substitution].
  destruct c as [[] [] [] [] [] [] [] []]; try (rewrite IH; reflexivity).
  congruence.
Qed.

Section Pass.

(** One pass of [replace] for the placeholder [N] and a replacement text
    free of "$". *)
Variables (N repl : string).
Hypothesis N_name : is_name N.
Hypothesis repl_plain : plain repl.

Lemma atoms_placeholder : Re.atoms (re_placeholder N) = Re.word (token N).
Proof. reflexivity. Qed.

Lemma token_cons n : token n = String "$" (String "{" (n +:+ "}")).
Proof. reflexivity. Qed.

Lemma scan_before_irrelevant s : forall b1 b2 skip active,
  Re.scan (re_placeholder N) repl b1 s skip active = Re.scan (re_placeholder N) repl b2 s skip active.
Proof.
  induction s as [|c s IH]; intros b1 b2 skip active.
  - destruct skip; [|reflexivity]. cbn [Re.scan].
    destruct (if active then _ else _); [|reflexivity].
    rewrite !get_substitution_plain by exact repl_plain. reflexivity.
  - destruct skip as [|k]; cbn [Re.scan]; [|apply IH].
    destruct (if active then _ else _) as [[|n]|].
    + rewrite !get_substitution_plain by exact repl_plain.
      rewrite (IH (b1 +:+ String c "") (b2 +:+ String c "")). reflexivity.
    + rewrite !get_substitution_plain by exact repl_plain.
      rewrite (IH (b1 +:+ String c "") (b2 +:+ String c "")). reflexivity.
    + rewrite (IH (b1 +:+ String c "") (b2 +:+ String c "")). reflexivity.
Qed.

Lemma scan_skip w : forall b rest active,
  Re.scan (re_placeholder N) repl b (w +:+ rest) (String.length w) active
  = Re.scan (re_placeholder N) repl b rest 0 active.
Proof.
  induction w as [|c w IH]; intros b rest active.
  - rewrite append_nil. reflexivity.
  - rewrite append_cons. cbn [String.length Re.scan].
    rewrite IH. apply scan_before_irrelevant.
Qed.

Lemma scan_end b : Re.scan (re_placeholder N) repl b "" 0 true = "".
Proof. reflexivity. Qed.

Lemma scan_text t : forall b rest,
  plain t ->
  Re.scan (re_placeholder N) repl b (t +:+ rest) 0 true = t +:+ Re.scan (re_placeholder N) repl b rest 0 true.
Proof.
  induction t as [|c t IH]; intros b rest Ht.
  - rewrite !append_nil. reflexivity.
  - rewrite !append_cons. cbn [Re.scan].
    rewrite atoms_placeholder, token_cons, match_word_head.
    2:{ intros <-. apply Ht. left. reflexivity. }
    rewrite IH by (intros H; apply Ht; right; exact H).
    f_equal. f_equal. apply scan_before_irrelevant.
Qed.

Lemma scan_token_same b rest :
  Re.scan (re_placeholder N) repl b (token N +:+ rest) 0 true = repl +:+ Re.scan (re_placeholder N) repl b rest 0 true.
Proof.
  pose proof (match_word_prefix (token N) rest) as Hm.
  rewrite token_cons in Hm at 2 3. rewrite token_cons at 1.
  rewrite !append_cons in *. cbn [Re.scan String.length] in *.
  rewrite atoms_placeholder. cbn [Re.eol re_placeholder].
  rewrite Hm, get_substitution_plain by exact repl_plain.
  f_equal.
  change (String "{" ((N +:+ "}") +:+ rest)) with (String "{" (N +:+ "}") +:+ rest).
  change (S (String.length (N +:+ "}"))) with (String.length (String "{" (N +:+ "}"))).
  rewrite scan_skip. apply scan_before_irrelevant.
Qed.

Lemma scan_try b c s :
  Re.scan (re_placeholder N) repl b (String c s) 0 true
  = match Re.match_here (Re.word (token N)) false (String c s) with
    | Some n =>
        Re.get_substitution b (str_take n (String c s)) (str_drop n (String c s)) repl
        +:+ match n with
            | O => String c (Re.scan (re_placeholder N) repl (b +:+ String c "") s 0 true)
            | S k => Re.scan (re_placeholder N) repl (b +:+ String c "") s k true
            end
    | None => String c (Re.scan (re_placeholder N) repl (b +:+ String c "") s 0 true)
    end.
Proof. reflexivity. Qed.

Lemma scan_token_other n b rest :
  is_name n -> n <> N ->
  Re.scan (re_placeholder N) repl b (token n +:+ rest) 0 true = token n +:+ Re.scan (re_placeholder N) repl b rest 0 true.
Proof.
  intros (Hplain & Hbrace) Hne.
  pose proof (match_token_other N n rest (proj2 N_name) Hbrace (not_eq_sym Hne)) as Hm.
  rewrite (token_cons n) in *. rewrite !append_cons in *.
  rewrite scan_try, Hm. f_equal.
  change (String "{" ((n +:+ "}") +:+ rest)) with (String "{" (n +:+ "}") +:+ rest).
  rewrite scan_text.
  - rewrite append_cons. f_equal. f_equal. apply scan_before_irrelevant.
  - unfold plain. rewrite occurs_cons, occurs_append.
    intros [H|[H|H]]; [discriminate H | exact (Hplain H) |].
    destruct H as [H|[]]. discriminate H.
Qed.

Lemma replace_pieces ps :
  Forall plain_piece ps ->
  Re.replace (re_placeholder N) repl (source ps) = source (map (fill_one N repl) ps).
Proof.
  unfold Re.replace. generalize "" as b.
  induction ps as [|[t|n] ps IH]; intros b Hps.
  - reflexivity.
  - inversion Hps as [|? ? Ht Hrest]; subst. cbn [source map fill_one].
    rewrite scan_text by exact Ht. rewrite IH by exact Hrest. reflexivity.
  - inversion Hps as [|? ? Hn Hrest]; subst. cbn [source map fill_one].
    destruct (String.eqb_spec N n) as [<-|Hne].
    + rewrite scan_token_same, IH by exact Hrest. reflexivity.
    + rewrite scan_token_other by (try exact Hn; congruence).
      rewrite IH by exact Hrest. reflexivity.
Qed.

Lemma fill_one_plain ps :
  Forall plain_piece ps -> Forall plain_piece (map (fill_one N repl) ps).
Proof.
  induction 1 as [|[t|n] ps Hp Hps IH]; cbn [map fill_one]; constructor; try assumption.
  destruct (String.eqb N n); [exact repl_plain | exact Hp].
Qed.

End Pass.

Lemma filled_nil ps : filled [] ps = source ps.
Proof.
  induction ps as [|[t|n] ps IH]; cbn [filled source lookup_value];
    rewrite ?IH; reflexivity.
Qed.

Lemma filled_cons n v table ps :
  filled ((n, v) :: table) ps = filled table (map (fill_one n (text v)) ps).
Proof.
  induction ps as [|[t|m] ps IH]; cbn [filled map fill_one lookup_value].
  - reflexivity.
  - rewrite IH. reflexivity.
  - destruct (String.eqb n m); cbn [filled]; rewrite IH; reflexivity.
Qed.

(** The passes of [substitute], one after the other, amount to filling
    every token at once. *)
Lemma substitute_pieces table : forall ps,
  Forall plain_piece ps -> Forall plain_entry table ->
  substitute table (source ps) = Ok (filled table ps).
Proof.
  induction table as [|[n v] table IH]; intros ps Hps Htable.
  - rewrite filled_nil. reflexivity.
  - inversion Htable as [|? ? (Hn & s & Hs & Hv) Hrest]; subst. cbn [fst snd] in *.
    cbn [substitute]. rewrite Hs. cbn [rbind].
    rewrite (replace_pieces n s Hn Hv ps Hps).
    rewrite IH by (try assumption; apply fill_one_plain; assumption).
    rewrite filled_cons. unfold text. rewrite Hs. reflexivity.
Qed.

(** What [substitute] answers is the result of the passes, each with the
    string form of its value. *)
Lemma substitute_ok table : forall template r,
  substitute table template = Ok r ->
  r = fold_left (fun s e => Re.replace (re_placeholder e.1) (text e.2) s) table template.
Proof.
  induction table as [|[n v] table IH]; intros template r; cbn [substitute fold_left].
  - intros [= <-]. reflexivity.
  - unfold text at 2. cbn [fst snd].
    destruct (ToString v); cbn [rbind]; [apply IH | discriminate].
Qed.

(** The other values only have to have a string form. *)
Lemma master_content_greeting config SITE_URL SITE_NAME IMG IP MAIL POST_URL html :
  get config "MAIL_TEMPLATE_ADMIN" = VStr "Hi ${NICK}, ${COMMENT}" ->
  master_content config SITE_URL SITE_NAME (VStr "Bob") IMG IP MAIL (VStr "hello") POST_URL
  = Ok html ->
  html = BodyRendered "Hi Bob, hello".
Proof.
  intros H Hc. unfold master_content in Hc. rewrite H in Hc.
  change (truthy (VStr "Hi ${NICK}, ${COMMENT}")) with true in Hc.
  cbn [as_string rbind] in Hc.
  destruct (substitute _ _) as [r|] eqn:E; [|discriminate Hc].
  apply substitute_ok in E. cbn [rbind] in Hc. injection Hc as <-. subst r.
  vm_compute. reflexivity.
Qed.

Lemma source_not_empty ps : source ps <> "" -> truthy (VStr (source ps)) = true.
Proof.
  intros H. cbn [truthy]. destruct (String.eqb_spec (source ps) ""); [contradiction|].
  reflexivity.
Qed.

(** C8 (amended). In the owner-notification renderer: for a template made
    of text and placeholder tokens, where neither the text nor the string
    forms of the values contain a "$", every occurrence of each of the
    eight named placeholders is replaced by its value and every other token
    is left as it is; and for the template "Hi ${NICK}, ${COMMENT}" with
    nick "Bob" and comment "hello" the body of the composed message is
    exactly "Hi Bob, hello", whatever the other fields hold. *)
Theorem master_template_substitution W comment config :
  (forall ps SITE_URL SITE_NAME NICK IMG IP MAIL COMMENT POST_URL,
     let table := [("SITE_URL", SITE_URL); ("SITE_NAME", SITE_NAME); ("NICK", NICK);
                   ("IMG", IMG); ("IP", IP); ("MAIL", MAIL); ("COMMENT", COMMENT);
                   ("POST_URL", VStr POST_URL)] in
     get config "MAIL_TEMPLATE_ADMIN" = VStr (source ps) ->
     source ps <> "" ->
     Forall plain_piece ps ->
     Forall (fun e => plain_value e.2) table ->
     master_content config SITE_URL SITE_NAME NICK IMG IP MAIL COMMENT POST_URL
     = Ok (BodyRendered (filled table ps)))
  /\ (get config "MAIL_TEMPLATE_ADMIN" = VStr "Hi ${NICK}, ${COMMENT}" ->
      get comment "nick" = VStr "Bob" ->
      get comment "comment" = VStr "hello" ->
      forall m, master_mail W comment config = Ok m ->
                mail_html m = BodyRendered "Hi Bob, hello").
Proof.
  split.
  - intros ps SITE_URL SITE_NAME NICK IMG IP MAIL COMMENT POST_URL table Ht Hne Hps Hv.
    unfold master_content. rewrite Ht, (source_not_empty _ Hne). cbn [as_string rbind].
    fold table. rewrite substitute_pieces; [reflexivity | exact Hps |].
    assert (Hname : forall s : string,
               forallb (fun c => negb (Ascii.eqb c "$" || Ascii.eqb c "}"))
                 (list_ascii_of_string s) = true -> is_name s).
    { intros s Hs. rewrite forallb_forall in Hs.
      split; intros Hin; apply Hs in Hin; discriminate Hin. }
    unfold table in *. clear table.
    repeat match goal with
           | H : Forall _ (_ :: _) |- _ => inversion H; subst; clear H
           end.
    repeat (constructor; [split; [apply Hname; reflexivity | assumption]|]).
    constructor.
  - intros Ht Hnick Hcomment m Hm. unfold master_mail, master_draft, addressed in Hm.
    rewrite Hnick, Hcomment in Hm.
    destruct (getAvatar W comment config) as [IMG|]; [|discriminate Hm].
    destruct (post_url comment config) as [POST_URL|]; [|discriminate Hm].
    cbn [rbind] in Hm.
    destruct (if truthy (get config "MAIL_SUBJECT_ADMIN") then _ else _)
      as [emailSubject|]; [|discriminate Hm].
    cbn [rbind] in Hm.
    destruct (master_content _ _ _ _ _ _ _ _ _) as [html|] eqn:Hc; [|discriminate Hm].
    apply (master_content_greeting config _ _ _ _ _ _ _ Ht) in Hc. subst html.
    cbn [rbind fst snd] in Hm.
    destruct (sender config) as [from|]; [|discriminate Hm].
    cbn [rbind] in Hm. injection Hm as <-. reflexivity.
Qed.

Lemma master_template_substitution_witness :
  (get greeting "MAIL_TEMPLATE_ADMIN" = VStr "Hi ${NICK}, ${COMMENT}"
   /\ get bob "nick" = VStr "Bob"
   /\ get bob "comment" = VStr "hello")
  /\ html_of (master_mail broken (<["avatar" := VStr "a.png"]> bob) greeting)
     = Ok (BodyRendered "Hi Bob, hello")
  /\ master_content
       (<["MAIL_TEMPLATE_ADMIN" := VStr (source [Hole "NICK"; Text ": "; Hole "FOO"; Hole "NICK"])]> site)
       VNull VNull (VStr "Bob") VNull VNull VNull VNull "u"
     = Ok (BodyRendered "Bob: ${FOO}Bob").
Proof.
  destruct (master_template_substitution broken (<["avatar" := VStr "a.png"]> bob) greeting)
    as (_ & Hex).
  specialize (Hex eq_refl eq_refl eq_refl).
  split; [repeat split|]. split.
  - unfold html_of.
    destruct (master_mail broken (<["avatar" := VStr "a.png"]> bob) greeting)
      as [m|e] eqn:E.
    + cbn [rbind]. rewrite (Hex m eq_refl). reflexivity.
    + vm_compute in E. discriminate E.
  - assert (Hplain : forall s : string,
               forallb (fun c => negb (Ascii.eqb c "$")) (list_ascii_of_string s) = true ->
               plain s).
    { intros s Hs Hin. rewrite forallb_forall in Hs. apply Hs in Hin. discriminate Hin. }
    assert (Hname : forall s : string,
               forallb (fun c => negb (Ascii.eqb c "$" || Ascii.eqb c "}"))
                 (list_ascii_of_string s) = true -> is_name s).
    { intros s Hs. rewrite forallb_forall in Hs.
      split; intros Hin; apply Hs in Hin; discriminate Hin. }
    destruct (master_template_substitution quiet bob
                (<["MAIL_TEMPLATE_ADMIN" :=
                     VStr (source [Hole "NICK"; Text ": "; Hole "FOO"; Hole "NICK"])]> site))
      as (Hgen & _).
    apply (Hgen [Hole "NICK"; Text ": "; Hole "FOO"; Hole "NICK"]).
    + reflexivity.
    + discriminate.
    + repeat constructor; first [apply Hname; reflexivity | apply Hplain; reflexivity].
    + repeat constructor; (eexists; split; [reflexivity | apply Hplain; reflexivity]).
Defined.

(** C8, as stated, fails when a value contains "$": [replace] reads "$&"
    in the nick as "the matched text", so the token is put back instead of
    the nick; and a nick that spells a later placeholder is itself replaced
    by the next pass. *)
Lemma dollar_in_value_is_a_pattern :
  html_of (master_mail quiet (<["nick" := VStr "$&"]> bob) greeting)
  = Ok (BodyRendered "Hi ${NICK}, hello")
  /\ html_of (master_mail quiet (<["nick" := VStr "${COMMENT}"]> bob) greeting)
     = Ok (BodyRendered "Hi hello, hello").
Proof. split; vm_compute; reflexivity. Qed.

(** Tokens that are not among the named placeholders stay, also next to a
    literal "$". *)
Example other_tokens_stay :
  html_of (master_mail quiet bob
             (<["MAIL_TEMPLATE_ADMIN" := VStr "Hi ${NICK}, ${FOO} costs $5"]> site))
  = Ok (BodyRendered "Hi Bob, ${FOO} costs $5").
Proof. vm_compute. reflexivity. Qed.

(** ** Normalisation of addresses *)

Lemma lower_idempotent c : lower (lower c) = lower c.
Proof. destruct c as [[] [] [] [] [] [] [] []]; reflexivity. Qed.

Lemma is_white_lower c : is_white (lower c) = is_white c.
Proof. destruct c as [[] [] [] [] [] [] [] []]; reflexivity. Qed.

Lemma toLowerCase_idempotent s : toLowerCase (toLowerCase s) = toLowerCase s.
Proof.
  induction s as [|c s IH]; [reflexivity|].
  cbn [toLowerCase]. rewrite lower_idempotent, IH. reflexivity.
Qed.

Lemma toLowerCase_empty s : String.eqb (toLowerCase s) "" = String.eqb s "".
Proof. destruct s; reflexivity. Qed.

Lemma trimStart_lower s : trimStart (toLowerCase s) = toLowerCase (trimStart s).
Proof.
  induction s as [|c s IH]; [reflexivity|].
  cbn [toLowerCase trimStart]. rewrite is_white_lower.
  destruct (is_white c); [exact IH | reflexivity].
Qed.

Lemma trimEnd_lower s : trimEnd (toLowerCase s) = toLowerCase (trimEnd s).
Proof.
  induction s as [|c s IH]; [reflexivity|].
  cbn [toLowerCase trimEnd]. rewrite is_white_lower, IH, toLowerCase_empty.
  destruct (is_white c && String.eqb (trimEnd s) ""); reflexivity.
Qed.

Lemma trimEnd_idempotent s : trimEnd (trimEnd s) = trimEnd s.
Proof.
  induction s as [|c s IH]; [reflexivity|].
  cbn [trimEnd].
  destruct (is_white c && String.eqb (trimEnd s) "") eqn:E; [reflexivity|].
  cbn [trimEnd]. rewrite IH, E. reflexivity.
Qed.

Lemma trimStart_head s :
  trimStart s = "" \/ exists c t, trimStart s = String c t /\ is_white c = false.
Proof.
  induction s as [|c s IH]; [left; reflexivity|].
  cbn [trimStart]. destruct (is_white c) eqn:E; [exact IH|].
  right. exists c, s. split; [reflexivity | exact E].
Qed.

Lemma trim_idempotent s : trim (trim s) = trim s.
Proof.
  unfold trim. destruct (trimStart_head s) as [->|(c & t & -> & Hc)]; [reflexivity|].
  cbn [trimEnd]. rewrite Hc. cbn [andb trimStart]. rewrite Hc.
  cbn [trimEnd]. rewrite Hc, trimEnd_idempotent. reflexivity.
Qed.

Lemma normalize_idempotent s :
  toLowerCase (trim (toLowerCase (trim s))) = toLowerCase (trim s).
Proof.
  unfold trim.
  rewrite trimStart_lower, trimEnd_lower, toLowerCase_idempotent.
  fold (trim s). fold (trim (trim s)).
  rewrite trim_idempotent. reflexivity.
Qed.

Lemma normalizeMail_idempotent v n :
  normalizeMail v = Ok n -> normalizeMail (VStr n) = Ok n.
Proof.
  unfold normalizeMail. cbn [ToString rbind].
  destruct (ToString v) as [s|]; [|discriminate]. cbn [rbind].
  intros [= <-]. rewrite normalize_idempotent. reflexivity.
Qed.

(** An address whose normal form is the configured one is the same
    address in the sense of [same_mail]. *)
Lemma same_mail_normalized mail owner n :
  truthy mail = true -> normalizeMail mail = Ok n -> owner = VStr n ->
  truthy owner = true -> same_mail mail owner.
Proof.
  intros Hm Hn -> Ho. split; [exact Hm|]. split; [exact Ho|].
  exists n. split; [exact Hn | exact (normalizeMail_idempotent _ _ Hn)].
Qed.

(** With every external service failing and every option in use, the
    answer is still SUCCESS. *)
Example handlePostSubmit_all_down :
  outcome (handlePostSubmit broken
             (submit (reply_to (<["mail" := VStr "12345@qq.com"]> visitor))
                (<["AKISMET_KEY" := VStr "k"]> (with_push site)) (Some author)) fresh)
  = Ok (SubmitResult SUCCESS VUndefined VUndefined).
Proof. vm_compute. reflexivity. Qed.

(** * Further properties

    ** Addresses *)

(** X1. [equalsMail] is a partial equivalence: it is symmetric and
    transitive, and a value with a string form equals itself exactly when
    it is truthy, so an absent or empty address equals nothing, not even
    itself.  A value without a string form cannot be compared with itself:
    the comparison throws. *)
Theorem equalsMail_partial_equivalence :
  (forall a b, equalsMail a b = equalsMail b a)
  /\ (forall a b c, equalsMail a b = Ok true -> equalsMail b c = Ok true ->
                    equalsMail a c = Ok true)
  /\ (forall a, equalsMail a a = if printable a then Ok (truthy a) else Throw TypeError).
Proof.
  split; [|split].
  - exact equalsMail_sym.
  - intros a b c Hab Hbc.
    apply equalsMail_true in Hab as (Ha & _ & n & Hna & Hnb).
    apply equalsMail_true in Hbc as (_ & Hc & n' & Hnb' & Hnc).
    apply equalsMail_same. split; [exact Ha|]. split; [exact Hc|].
    exists n. split; [exact Hna|]. congruence.
  - intros a. destruct (printable a) eqn:Hp.
    + unfold equalsMail, falsy, normalizeMail. rewrite (ToString_printable _ Hp).
      destruct (truthy a); simpl; [|reflexivity].
      rewrite String.eqb_refl. reflexivity.
    + unfold equalsMail, falsy, normalizeMail.
      rewrite (unprintable_truthy _ Hp), (printable_throws _ Hp). reflexivity.
Qed.

Lemma equalsMail_partial_equivalence_witness :
  (equalsMail (VStr "A@x.org ") (VStr "a@x.org") = Ok true
   /\ equalsMail (VStr "a@x.org") (VStr " a@X.org") = Ok true)
  /\ equalsMail (VStr "A@x.org ") (VStr " a@X.org") = Ok true.
Proof.
  assert (H1 : equalsMail (VStr "A@x.org ") (VStr "a@x.org") = Ok true) by reflexivity.
  assert (H2 : equalsMail (VStr "a@x.org") (VStr " a@X.org") = Ok true) by reflexivity.
  destruct equalsMail_partial_equivalence as (_ & Htrans & _).
  split; [split; assumption|].
  exact (Htrans _ _ _ H1 H2).
Defined.

Lemma normalizeMail_lower s : normalizeMail (VStr (toLowerCase s)) = normalizeMail (VStr s).
Proof.
  unfold normalizeMail, trim. cbn [ToString rbind].
  rewrite trimStart_lower, trimEnd_lower, toLowerCase_idempotent. reflexivity.
Qed.

Lemma normalizeMail_trim s : normalizeMail (VStr (trim s)) = normalizeMail (VStr s).
Proof. unfold normalizeMail. cbn [ToString rbind]. rewrite trim_idempotent. reflexivity. Qed.

(** X2. The comparison of addresses ignores case and surrounding blanks:
    lower-casing an address never changes what it equals, and neither does
    trimming it, as long as something is left of it. *)
Theorem equalsMail_ignores_case_and_blanks s v :
  equalsMail (VStr (toLowerCase s)) v = equalsMail (VStr s) v
  /\ (trim s <> "" -> equalsMail (VStr (trim s)) v = equalsMail (VStr s) v).
Proof.
  split.
  - unfold equalsMail, falsy. cbn [truthy].
    rewrite toLowerCase_empty, normalizeMail_lower. reflexivity.
  - intros H. unfold equalsMail, falsy. cbn [truthy].
    rewrite normalizeMail_trim.
    destruct (String.eqb_spec (trim s) ""); [contradiction|].
    destruct (String.eqb_spec s ""); [subst; contradiction|]. reflexivity.
Qed.

Lemma equalsMail_ignores_case_and_blanks_witness :
  trim "  Bob@Example.com " <> ""
  /\ equalsMail (VStr (trim "  Bob@Example.com ")) (VStr "bob@example.com")
     = equalsMail (VStr "  Bob@Example.com ") (VStr "bob@example.com").
Proof.
  assert (H : trim "  Bob@Example.com " <> "") by discriminate.
  split; [exact H|].
  apply (equalsMail_ignores_case_and_blanks "  Bob@Example.com " (VStr "bob@example.com")).
  exact H.
Defined.

(** ** Permalinks *)

Lemma append_empty s : s +:+ "" = s.
Proof. induction s as [|c s IH]; [reflexivity|]. rewrite append_cons, IH. reflexivity. Qed.

(** Every string splits at its first "#". *)
Lemma split_at_hash u :
  exists p r, u = p +:+ r /\ ~ occurs "#" p /\ (r = "" \/ exists r', r = String "#" r').
Proof.
  induction u as [|c u (p & r & -> & Hp & Hr)].
  - exists "", "". repeat split; [intros [] | left; reflexivity].
  - destruct (ascii_dec c "#") as [->|Hc].
    + exists "", (String "#" (p +:+ r)). repeat split; [intros [] | right; eauto].
    + exists (String c p), r. repeat split; [|exact Hr].
      rewrite occurs_cons. intros [H|H]; [congruence | exact (Hp H)].
Qed.

Lemma appendHashToUrl_prefix p r hash :
  ~ occurs "#" p -> (r = "" \/ exists r', r = String "#" r') ->
  appendHashToUrl (VStr (p +:+ r)) hash = (h <-? ToString hash ;; Ok (p +:+ "#" +:+ h)).
Proof.
  intros Hp [->|(r' & ->)]; unfold appendHashToUrl.
  - rewrite append_empty, (indexOf_absent _ _ Hp). reflexivity.
  - rewrite (indexOf_first _ _ r' Hp).
    destruct (Z.eqb_spec (Z.of_nat (String.length p)) (-1)); [lia|].
    rewrite js_substring_prefix. reflexivity.
Qed.



(** X3. For every string [url], [appendHashToUrl] answers a prefix of
    [url] that is free of "#", followed by "#" and the string form of the
    hash; and appending to such a result again replaces the anchor instead
    of adding a second one. *)
Theorem appendHashToUrl_replaces_anchor url h1 h2 :
  exists p,
    ~ occurs "#" p
    /\ (exists rest, url = p +:+ rest)
    /\ appendHashToUrl (VStr url) h1 = (s1 <-? ToString h1 ;; Ok (p +:+ "#" +:+ s1))
    /\ appendHashToUrl (VStr (p +:+ "#" +:+ text h1)) h2
       = (s2 <-? ToString h2 ;; Ok (p +:+ "#" +:+ s2)).
Proof.
  destruct (split_at_hash url) as (p & r & -> & Hp & Hr).
  exists p. split; [exact Hp|]. split; [eauto|]. split.
  - apply appendHashToUrl_prefix; assumption.
  - change ("#" +:+ text h1) with (String "#" (text h1)).
    apply appendHashToUrl_prefix; [exact Hp | right; eauto].
Qed.

Lemma js_add_string_r a s :
  printable a = true -> exists t, js_add a (VStr s) = Ok (VStr t).
Proof.
  intros Hp. unfold js_add, ToPrimitive.
  destruct a as [| | [] | [[]|] | | |]; try rewrite (ToString_printable _ Hp);
    cbn [rbind ToString]; eauto.
Qed.

(** X4. The link of a notification (lines 209, 280, 347).  When
    [comment.href] is a non-empty string, or is falsy while [comment.url] is
    a string and SITE_URL has a string form, the link is a text free of "#"
    followed by "#" and the id of the comment ([_id] when [id] is falsy), in
    its string form.  When [href] is falsy and neither [SITE_URL] nor [url]
    is a string, an object or an array, their sum is a number and composing
    the link throws a TypeError. *)
Theorem post_url_anchor comment config :
  ((exists s, get comment "href" = VStr s /\ s <> "")
   \/ (truthy (get comment "href") = false
       /\ printable (get config "SITE_URL") = true
       /\ exists s, get comment "url" = VStr s) ->
   exists p, ~ occurs "#" p
             /\ post_url comment config
                = (h <-? ToString (js_or (get comment "id") (get comment "_id")) ;;
                   Ok (p +:+ "#" +:+ h)))
  /\ (truthy (get comment "href") = false ->
      adds_as_number (get config "SITE_URL") = true ->
      adds_as_number (get comment "url") = true ->
      post_url comment config = Throw TypeError).
Proof.
  split.
  - intros H.
    assert (Hs : exists s,
               (if truthy (get comment "href") then Ok (get comment "href")
                else js_add (get config "SITE_URL") (get comment "url")) = Ok (VStr s)).
    { destruct H as [(s & Hs & Hne)|(Hf & Hp & s & Hs)].
      - exists s. rewrite Hs. cbn [truthy].
        destruct (String.eqb_spec s ""); [contradiction | reflexivity].
      - rewrite Hf, Hs. apply js_add_string_r. exact Hp. }
    destruct Hs as (s & Hs). unfold post_url. rewrite Hs. cbn [rbind].
    destruct (split_at_hash s) as (p & r & -> & Hp & Hr).
    exists p. split; [exact Hp|]. apply appendHashToUrl_prefix; assumption.
  - intros Hf Hsite Hurl. unfold post_url. rewrite Hf.
    destruct (get config "SITE_URL"), (get comment "url"); try discriminate;
      cbn [js_add ToPrimitive rbind ToNumber];
      repeat match goal with
             | |- context [match ?x with _ => _ end] => destruct x
             end; reflexivity.
Qed.

Lemma post_url_anchor_witness :
  ((truthy (get (<["url" := VStr "/post#top"]> (delete "href" visitor)) "href") = false
    /\ printable (get site "SITE_URL") = true
    /\ exists s, get (<["url" := VStr "/post#top"]> (delete "href" visitor)) "url" = VStr s)
   /\ post_url (<["url" := VStr "/post#top"]> (delete "href" visitor)) site
      = Ok "https://x/post#abc")
  /\ ((truthy (get (delete "href" visitor) "href") = false
       /\ adds_as_number (get (∅ : object) "SITE_URL") = true
       /\ adds_as_number (get (delete "href" visitor) "url") = true)
      /\ post_url (delete "href" visitor) ∅ = Throw TypeError).
Proof.
  split.
  - assert (H : truthy (get (<["url" := VStr "/post#top"]> (delete "href" visitor)) "href")
                = false
                /\ printable (get site "SITE_URL") = true
                /\ exists s, get (<["url" := VStr "/post#top"]> (delete "href" visitor)) "url"
                             = VStr s)
      by (split; [reflexivity | split; [reflexivity | eexists; reflexivity]]).
    split; [exact H|].
    destruct (post_url_anchor (<["url" := VStr "/post#top"]> (delete "href" visitor)) site)
      as (Hok & _).
    destruct (Hok (or_intror H)) as (p & _ & Hp).
    rewrite Hp. vm_compute in Hp. injection Hp as Hp. rewrite Hp. reflexivity.
  - destruct (post_url_anchor (delete "href" visitor) ∅) as (_ & Hbad).
    split; [repeat split|]. apply Hbad; reflexivity.
Defined.

(** ** Markup removal *)

Lemma repeat_once_eq p next c s :
  Re.repeat (Re.once p) next 0 (String c s)
  = if p c then option_map S (next s) else None.
Proof.
  destruct (p c) eqn:Hp; [|apply repeat_once_reject; exact Hp].
  destruct (next s) as [n|] eqn:Hn; [apply repeat_once; assumption|].
  cbn [Re.repeat Re.once Re.rmax Re.rmin Re.accepts Re.below]. rewrite Hp.
  cbn [Nat.ltb Nat.leb andb].
  destruct s; cbn [Re.repeat Re.rmax Re.rmin Re.accepts Re.below Nat.ltb Nat.leb andb];
    rewrite Hn; reflexivity.
Qed.

(** [[^>]*>] takes everything up to the first ">". *)
Lemma match_close s : forall k,
  Re.repeat (Re.star (Re.not_chr ">")) (Re.match_here [Re.once (Re.chr ">")] false) k s
  = upto_close s.
Proof.
  induction s as [|c s IH]; intros k; [reflexivity|].
  cbn [Re.repeat Re.star Re.rmax Re.rmin Re.accepts Re.below upto_close Nat.leb andb].
  change (Re.Atom (Re.not_chr ">") 0 None) with (Re.star (Re.not_chr ">")).
  rewrite IH. unfold Re.not_chr.
  rewrite (Ascii.eqb_sym ">" c).
  destruct (Ascii.eqb_spec c ">") as [->|Hc]; cbn [negb].
  - cbn [Re.match_here]. rewrite repeat_once_eq. destruct s; reflexivity.
  - destruct (upto_close s); [reflexivity|].
    cbn [Re.match_here]. rewrite repeat_once_eq. unfold Re.chr.
    rewrite (Ascii.eqb_sym ">" c).
    destruct (Ascii.eqb_spec c ">"); [contradiction | reflexivity].
Qed.

Lemma match_tag c s :
  Re.match_here (Re.atoms re_tag) false (String c s)
  = if Ascii.eqb c "<" then option_map S (upto_close s) else None.
Proof.
  cbn [re_tag Re.atoms Re.match_here]. rewrite repeat_once_eq.
  unfold Re.chr at 1. rewrite (Ascii.eqb_sym "<" c).
  destruct (Ascii.eqb c "<"); [|reflexivity].
  f_equal. apply (match_close s 0).
Qed.

(** One step of [html.replace(/<[^>]*>/g, '')]. *)
Lemma scan_tag c s b :
  Re.scan re_tag "" b (String c s) 0 true
  = match (if Ascii.eqb c "<" then upto_close s else None) with
    | Some n => Re.scan re_tag "" (b +:+ String c "") s n true
    | None => String c (Re.scan re_tag "" (b +:+ String c "") s 0 true)
    end.
Proof.
  cbn [Re.scan]. change (Re.eol re_tag) with false. rewrite match_tag.
  destruct (Ascii.eqb c "<"); [|reflexivity].
  destruct (upto_close s); reflexivity.
Qed.

Lemma scan_tag_keeps d s : forall b k,
  occurs d (Re.scan re_tag "" b s k true) -> occurs d s.
Proof.
  induction s as [|c s IH]; intros b k.
  - destruct k; intros H; exact H.
  - destruct k as [|k].
    + rewrite scan_tag.
      destruct (if Ascii.eqb c "<" then upto_close s else None).
      * intros H. right. exact (IH _ _ H).
      * intros [H|H]; [left; exact H | right; exact (IH _ _ H)].
    + cbn [Re.scan]. intros H. right. exact (IH _ _ H).
Qed.

Lemma upto_close_none s : upto_close s = None -> ~ occurs ">" s.
Proof.
  induction s as [|c s IH]; cbn [upto_close]; [intros _ []|].
  destruct (Ascii.eqb_spec c ">"); [discriminate|].
  destruct (upto_close s); [discriminate|].
  intros _ [H|H]; [contradiction | exact (IH eq_refl H)].
Qed.

Lemma existsb_occurs c s :
  existsb (Ascii.eqb c) (list_ascii_of_string s) = false <-> ~ occurs c s.
Proof.
  unfold occurs. induction s as [|d s IH]; cbn [list_ascii_of_string existsb].
  - split; [intros _ [] | reflexivity].
  - rewrite orb_false_iff, IH. destruct (Ascii.eqb_spec c d) as [->|Hne].
    + split; [intros [H _]; discriminate | intros H; exfalso; apply H; left; reflexivity].
    + split; [intros [_ H] [E|Hin]; [congruence | exact (H Hin)]|].
      intros H. split; [reflexivity|]. intros Hin. apply H. right. exact Hin.
Qed.

Lemma scan_tag_clean s : forall b k, has_tag (Re.scan re_tag "" b s k true) = false.
Proof.
  induction s as [|c s IH]; intros b k.
  - destruct k; reflexivity.
  - destruct k as [|k]; [|cbn [Re.scan]; apply IH].
    rewrite scan_tag.
    destruct (Ascii.eqb_spec c "<") as [->|Hc].
    + destruct (upto_close s) eqn:E; [apply IH|].
      cbn [has_tag]. rewrite IH, orb_false_r, andb_true_l.
      apply existsb_occurs. intros H. apply scan_tag_keeps in H.
      exact (upto_close_none _ E H).
    + cbn [has_tag]. rewrite IH.
      destruct (Ascii.eqb_spec c "<"); [contradiction | reflexivity].
Qed.

Lemma has_tag_trimStart s : has_tag s = false -> has_tag (trimStart s) = false.
Proof.
  induction s as [|c s IH]; [reflexivity|].
  intros H. cbn [trimStart]. destruct (is_white c); [|exact H].
  apply IH. cbn [has_tag] in H. apply orb_false_iff in H. apply H.
Qed.

Lemma occurs_trimEnd c s : occurs c (trimEnd s) -> occurs c s.
Proof.
  induction s as [|d s IH]; [intros H; exact H|].
  cbn [trimEnd]. destruct (is_white d && String.eqb (trimEnd s) ""); [intros []|].
  intros [H|H]; [left; exact H | right; exact (IH H)].
Qed.

Lemma has_tag_trimEnd s : has_tag s = false -> has_tag (trimEnd s) = false.
Proof.
  induction s as [|c s IH]; [reflexivity|].
  cbn [has_tag trimEnd]. intros H. apply orb_false_iff in H as (Hc & Hs).
  destruct (is_white c && String.eqb (trimEnd s) ""); [reflexivity|].
  cbn [has_tag]. rewrite (IH Hs), orb_false_r.
  destruct (Ascii.eqb c "<"); [|reflexivity]. cbn [andb] in *.
  apply existsb_occurs. intros H. apply occurs_trimEnd in H.
  apply existsb_occurs in Hc. exact (Hc H).
Qed.

Lemma has_tag_between a b c : has_tag (a +:+ "<" +:+ b +:+ ">" +:+ c) = true.
Proof.
  induction a as [|x a IH].
  - rewrite append_nil. change ("<" +:+ b +:+ ">" +:+ c) with (String "<" (b +:+ ">" +:+ c)).
    cbn [has_tag]. apply orb_true_iff. left. cbn [Ascii.eqb andb].
    destruct (existsb _ _) eqn:E; [reflexivity|]. exfalso.
    apply existsb_occurs in E. apply E. apply occurs_append. right.
    left. reflexivity.
  - rewrite append_cons. cbn [has_tag]. rewrite IH. apply orb_true_r.
Qed.

Lemma scan_tag_plain s : forall b,
  ~ occurs "<" s -> Re.scan re_tag "" b s 0 true = s.
Proof.
  induction s as [|c s IH]; intros b H; [reflexivity|].
  rewrite scan_tag. destruct (Ascii.eqb_spec c "<") as [->|Hc].
  - exfalso. apply H. left. reflexivity.
  - rewrite IH; [reflexivity|]. intros Hin. apply H. right. exact Hin.
Qed.

Lemma stripHtml_clean html t : stripHtml html = Ok t -> has_tag t = false.
Proof.
  destruct html; try discriminate. unfold stripHtml. cbn [as_string rbind].
  intros H. injection H as <-.
  unfold trim, Re.replace. apply has_tag_trimEnd, has_tag_trimStart, scan_tag_clean.
Qed.

Lemma no_tag_after_strip t :
  has_tag t = false -> forall a b c, t <> a +:+ "<" +:+ b +:+ ">" +:+ c.
Proof. intros H a b c E. rewrite E, has_tag_between in H. discriminate H. Qed.

(** X5. What [stripHtml] answers for a string never contains a "<" that
    is followed, anywhere later, by a ">": no tag is left, whatever the
    nesting of the brackets in the input.  A text without "<" only loses
    its surrounding blanks.  On anything but a string ([comment.comment]
    missing, say) it throws a TypeError. *)
Theorem stripHtml_leaves_no_tag html :
  (forall s, html = VStr s ->
     exists t, stripHtml html = Ok t
               /\ (forall a b c, t <> a +:+ "<" +:+ b +:+ ">" +:+ c)
               /\ (~ occurs "<" s -> t = trim s))
  /\ ((forall s, html <> VStr s) -> stripHtml html = Throw TypeError).
Proof.
  split.
  - intros s ->. exists (trim (Re.replace re_tag "" s)).
    split; [reflexivity|]. split.
    + apply no_tag_after_strip, (stripHtml_clean (VStr s)). reflexivity.
    + intros H. unfold Re.replace. rewrite scan_tag_plain by exact H. reflexivity.
  - intros H. destruct html; try reflexivity. exfalso. exact (H s eq_refl).
Qed.

Lemma stripHtml_leaves_no_tag_witness :
  stripHtml (VStr " a < b <i>and</i> c > d ") = Ok "a and c > d"
  /\ ((forall s, VUndefined <> VStr s) /\ stripHtml VUndefined = Throw TypeError).
Proof.
  split.
  - destruct (stripHtml_leaves_no_tag (VStr " a < b <i>and</i> c > d ")) as (H & _).
    destruct (H _ eq_refl) as (t & Ht & _). rewrite Ht. vm_compute in Ht.
    injection Ht as <-. reflexivity.
  - assert (H : forall s, VUndefined <> VStr s) by discriminate.
    split; [exact H|].
    destruct (stripHtml_leaves_no_tag VUndefined) as (_ & Hbad). exact (Hbad H).
Defined.

(** ** Avatars *)

(** X6. The avatar address depends on the comment only through its
    [avatar], [mailMd5], [nick] and the normal form of its [mail]: two
    comments that agree on the first three and whose addresses are the same
    up to case and surrounding blanks get the same avatar, for every
    configuration and every hash library. *)
Theorem getAvatar_by_address W c1 c2 config :
  get c1 "avatar" = get c2 "avatar" ->
  get c1 "mailMd5" = get c2 "mailMd5" ->
  get c1 "nick" = get c2 "nick" ->
  same_mail (get c1 "mail") (get c2 "mail") ->
  getAvatar W c1 config = getAvatar W c2 config.
Proof.
  intros Ha Hh Hn (H1 & H2 & n & Hn1 & Hn2).
  unfold getAvatar, getMailMd5, getMailSha256. rewrite Ha, Hh, Hn, H1, H2, Hn1, Hn2.
  reflexivity.
Qed.

Lemma getAvatar_by_address_witness :
  (get visitor "avatar" = get (<["mail" := VStr " BOB@example.com"]> visitor) "avatar"
   /\ get visitor "mailMd5" = get (<["mail" := VStr " BOB@example.com"]> visitor) "mailMd5"
   /\ get visitor "nick" = get (<["mail" := VStr " BOB@example.com"]> visitor) "nick"
   /\ same_mail (get visitor "mail")
        (get (<["mail" := VStr " BOB@example.com"]> visitor) "mail"))
  /\ getAvatar quiet visitor site
     = getAvatar quiet (<["mail" := VStr " BOB@example.com"]> visitor) site.
Proof.
  assert (Hs : same_mail (get visitor "mail")
                 (get (<["mail" := VStr " BOB@example.com"]> visitor) "mail")).
  { split; [reflexivity|]. split; [reflexivity|].
    exists "bob@example.com". split; reflexivity. }
  split; [split; [reflexivity|]; split; [reflexivity|]; split; [reflexivity | exact Hs]|].
  apply (getAvatar_by_address quiet visitor _ site eq_refl eq_refl eq_refl Hs).
Defined.

(** ** The mail transport *)

Lemma initMailer_incomplete W config throwErr st :
  smtp_incomplete config = true ->
  initMailer W (Some config) throwErr st
  = if throwErr then (Throw (init_error config), st, [Log (ErrMailerInit (init_error config))])
    else (Ok false, st, [Log (WarnMailerInit (init_error config))]).
Proof.
  unfold smtp_incomplete, initMailer, init_error, smtp_server_of. intros H.
  destruct (falsy (get config "SMTP_USER") || falsy (get config "SMTP_PASS")).
  - destruct throwErr; reflexivity.
  - cbn [orb] in H. apply andb_true_iff in H as (Hs & Hh). unfold falsy in Hs, Hh |- *.
    apply negb_true_iff in Hs. rewrite Hs.
    destruct (truthy (get config "SMTP_HOST")); cbn [negb orb] in *.
    + apply negb_true_iff in Hh. rewrite (printable_throws _ Hh).
      destruct throwErr; reflexivity.
    + destruct throwErr; reflexivity.
Qed.

Lemma no_mailer_incomplete W config st :
  smtp_incomplete config = true -> transporter st = None ->
  no_mailer W (Some config) st
  = (Ok true, st, [Log (WarnMailerInit (init_error config))]).
Proof.
  intros H Hnone. unfold no_mailer, bind, get_transporter. rewrite Hnone.
  cbv beta iota. rewrite (initMailer_incomplete W config false st H). reflexivity.
Qed.

Lemma smtp_server_complete config :
  smtp_incomplete config = false ->
  falsy (get config "SMTP_USER") || falsy (get config "SMTP_PASS") = false
  /\ smtp_server_of config = Ok (server (transport_of config)).
Proof.
  unfold smtp_incomplete, smtp_server_of, transport_of, falsy. intros H.
  apply orb_false_iff in H as (Hcred & Hsrv). split; [exact Hcred|].
  cbn [server]. destruct (truthy (get config "SMTP_SERVICE")); [reflexivity|].
  cbn [negb andb] in Hsrv. apply orb_false_iff in Hsrv as (Hh & Hp).
  apply negb_false_iff in Hh, Hp. rewrite Hh, (ToString_printable _ Hp). reflexivity.
Qed.

(** The run of [initMailer] on complete settings, by what the two calls
    answer. *)
Lemma initMailer_complete W config throwErr st :
  smtp_incomplete config = false ->
  initMailer W (Some config) throwErr st
  = match respond W (clock st) (CreateTransport (transport_of config)) with
    | Raised msg =>
        init_failed throwErr (ErrExternal msg) (State (transporter st) (S (clock st)))
          [Call (CreateTransport (transport_of config))]
    | Returned _ =>
        match respond W (S (clock st)) VerifyTransport with
        | Raised msg =>
            init_failed throwErr (ErrSmtpVerify (ErrExternal msg))
              (State (Some (transport_of config)) (S (S (clock st))))
              [Call (CreateTransport (transport_of config)); Call VerifyTransport]
        | Returned success =>
            (Ok true, State (Some (transport_of config)) (S (S (clock st))),
             Call (CreateTransport (transport_of config)) :: Call VerifyTransport
               :: (if truthy success then [Log LogSmtpOk] else []))
        end
    end.
Proof.
  intros Hcomplete. unfold init_failed.
  destruct (smtp_server_complete config Hcomplete) as (Hcred & Hsrv).
  unfold initMailer. rewrite Hcred, Hsrv.
  change (TransportConfig (get config "SMTP_USER") (get config "SMTP_PASS")
            (server (transport_of config))) with (transport_of config).
  unfold try_catch, bind, lift, ret, external, set_transporter, throw, console;
    cbn [clock transporter];
    (destruct (respond W (clock st) (CreateTransport _)) as [created|msg];
     [|destruct throwErr; reflexivity]);
    cbn [clock transporter];
    (destruct (respond W (S (clock st)) VerifyTransport) as [success|msg];
     [destruct (truthy success); reflexivity | destruct throwErr; reflexivity]).
Qed.

(** X7. With SMTP_USER or SMTP_PASS missing, or without SMTP_SERVICE when
    SMTP_HOST is missing too or SMTP_PORT has no string form, [initMailer]
    calls nothing and leaves the transporter as it is: it answers [false]
    after a warning, or, asked to throw, throws the error after an error
    line; so it does without any configuration.  From a state without a
    transporter, [noticeMaster] and (for a reply whose parent was found)
    [noticeReply] then end after two console lines, without any call. *)
Theorem incomplete_settings_send_nothing W comment config st :
  smtp_incomplete config = true ->
  initMailer W (Some config) false st
  = (Ok false, st, [Log (WarnMailerInit (init_error config))])
  /\ initMailer W (Some config) true st
     = (Throw (init_error config), st, [Log (ErrMailerInit (init_error config))])
  /\ initMailer W None false st = (Ok false, st, [Log (WarnMailerInit ErrNoConfig)])
  /\ (transporter st = None ->
      noticeMaster W comment (Some config) st
      = (Ok None, st, [Log (WarnMailerInit (init_error config)); Log LogNoMailer])
      /\ forall p, truthy (get comment "pid") = true ->
           noticeReply W comment (Some config) (Some p) st
           = (Ok None, st, [Log (WarnMailerInit (init_error config)); Log LogNoMailer])).
Proof.
  intros H.
  split; [exact (initMailer_incomplete W config false st H)|].
  split; [exact (initMailer_incomplete W config true st H)|].
  split; [reflexivity|].
  intros Hnone. pose proof (no_mailer_incomplete W config st H Hnone) as Hskip. split.
  - unfold noticeMaster, bind. rewrite Hskip. reflexivity.
  - intros p Hpid. unfold noticeReply, falsy. rewrite Hpid. cbn [negb].
    unfold bind. rewrite Hskip. reflexivity.
Qed.

Lemma incomplete_settings_send_nothing_witness :
  (smtp_incomplete (delete "SMTP_SERVICE" site) = true /\ transporter fresh = None)
  /\ init_error (delete "SMTP_SERVICE" site) = ErrNoSmtpServer
  /\ noticeMaster quiet visitor (Some (delete "SMTP_SERVICE" site)) fresh
     = (Ok None, fresh, [Log (WarnMailerInit ErrNoSmtpServer); Log LogNoMailer]).
Proof.
  assert (H : smtp_incomplete (delete "SMTP_SERVICE" site) = true) by reflexivity.
  destruct (incomplete_settings_send_nothing quiet visitor _ fresh H) as (_ & _ & _ & Hn).
  destruct (Hn eq_refl) as (Hm & _).
  split; [split; [exact H | reflexivity]|]. split; [reflexivity | exact Hm].
Defined.

(** *** A transporter, once created, stays *)

Section Keeps.

Context {A B : Type}.
Variable t : transport_config.
Variable P : event -> bool.

Lemma keeps_ret (a : A) : keeps t P (ret a).
Proof. intros st H. split; [exact H | reflexivity]. Qed.

Lemma keeps_throw (e : exn) : keeps t P (@throw A e).
Proof. intros st H. split; [exact H | reflexivity]. Qed.

Lemma keeps_lift (r : result A) : keeps t P (lift r).
Proof. intros st H. split; [exact H | reflexivity]. Qed.

Lemma keeps_bind (m : M A) (k : A -> M B) :
  keeps t P m -> (forall a, keeps t P (k a)) -> keeps t P (bind m k).
Proof.
  intros Hm Hk st H. destruct (Hm st H) as (H1 & E1).
  unfold bind, final, events in *.
  destruct (m st) as [[[a|e] st1] ev1]; simpl in *; [|auto].
  destruct (Hk a st1 H1) as (H2 & E2). unfold final, events in *.
  destruct (k a st1) as [[r st2] ev2]; simpl in *.
  rewrite existsb_app, E1, E2. auto.
Qed.

Lemma keeps_try (m : M A) (h : exn -> M A) :
  keeps t P m -> (forall e, keeps t P (h e)) -> keeps t P (try_catch m h).
Proof.
  intros Hm Hh st H. destruct (Hm st H) as (H1 & E1).
  unfold try_catch, final, events in *.
  destruct (m st) as [[[a|e] st1] ev1]; simpl in *; [auto|].
  destruct (Hh e st1 H1) as (H2 & E2). unfold final, events in *.
  destruct (h e st1) as [[r st2] ev2]; simpl in *.
  rewrite existsb_app, E1, E2. auto.
Qed.

End Keeps.

Lemma keeps_console t P l : P (Log l) = false -> keeps t P (console l).
Proof. intros H st Ht. split; [exact Ht|]. simpl. rewrite H. reflexivity. Qed.

Lemma keeps_external t P W r : P (Call r) = false -> keeps t P (external W r).
Proof.
  intros H st Ht. unfold external, final, events.
  destruct (respond W (clock st) r); simpl; rewrite H; auto.
Qed.

(** With a transporter in place, [no_mailer] answers at once. *)
Lemma no_mailer_cached W config st t :
  transporter st = Some t -> no_mailer W config st = (Ok false, st, []).
Proof. intros H. unfold no_mailer, bind, get_transporter. rewrite H. reflexivity. Qed.

Lemma keeps_no_mailer {B} t P W config (k : bool -> M B) :
  keeps t P (k false) -> keeps t P (bind (no_mailer W config) k).
Proof.
  intros Hk st H. unfold bind. rewrite (no_mailer_cached W config st t H).
  destruct (Hk st H) as (H1 & E1). unfold final, events in *.
  destruct (k false st) as [[r st1] ev1]; simpl in *. auto.
Qed.

Ltac keeps_step :=
  lazymatch goal with
  | |- keeps _ _ (bind (no_mailer _ _) _) => apply keeps_no_mailer
  | |- keeps _ _ (bind _ _) => apply keeps_bind; [| intros ?]
  | |- keeps _ _ (try_catch _ _) => apply keeps_try; [| intros ?]
  | |- keeps _ _ (ret _) => apply keeps_ret
  | |- keeps _ _ (throw _) => apply keeps_throw
  | |- keeps _ _ (lift _) => apply keeps_lift
  | |- keeps _ _ (console _) => apply keeps_console; reflexivity
  | |- keeps _ _ (external _ _) => apply keeps_external; reflexivity
  | |- keeps _ _ (send _ _) => unfold send
  | |- keeps _ _ (settle _) => unfold settle
  | |- keeps _ _ (join _) => unfold join
  | |- keeps _ _ (promise_all _) => unfold promise_all
  | |- keeps _ _ (if ?c then _ else _) => destruct c
  | |- keeps _ _ (match ?x with _ => _ end) => destruct x
  end.

Ltac keeps_tac := repeat (cbv beta iota zeta; keeps_step).

(** X8. Once a transporter exists, a notification never sets the mail
    transport up again: from a state that holds a transporter, a run of
    [sendNotice], and a whole run of [handlePostSubmit], ends with the same
    transporter, without a call to createTransport or verify and without a
    line of [initMailer], whatever the request holds, SMTP settings
    included. *)
Theorem cached_transporter_is_reused W comment config parentComment data st t :
  transporter st = Some t ->
  (transporter (final (sendNotice W comment config parentComment st)) = Some t
   /\ existsb is_transport_setup (events (sendNotice W comment config parentComment st))
      = false)
  /\ (transporter (final (handlePostSubmit W data st)) = Some t
      /\ existsb is_transport_setup (events (handlePostSubmit W data st)) = false).
Proof.
  revert st.
  assert (Hsend : keeps t is_transport_setup (sendNotice W comment config parentComment)).
  { unfold sendNotice, noticeMaster, noticeReply, noticePushoo, push. keeps_tac. }
  assert (Hpost : keeps t is_transport_setup (handlePostSubmit W data)).
  { unfold handlePostSubmit, resolve_qq_avatar, classify, postCheckSpam, qcloud_check,
      verdict, getQQAvatar, sendNotice, noticeMaster, noticeReply, noticePushoo, push.
    keeps_tac. }
  intros st H. split; [exact (Hsend st H) | exact (Hpost st H)].
Qed.

Lemma cached_transporter_is_reused_witness :
  transporter cached = Some (transport_of site)
  /\ existsb is_transport_setup (events (sendNotice broken visitor (Some ∅) None cached))
     = false
  /\ existsb is_mail_sent
       (events (sendNotice broken (with_avatar visitor) (Some ∅) None cached))
     = true.
Proof.
  assert (H : transporter cached = Some (transport_of site)) by reflexivity.
  split; [exact H|]. split; [|reflexivity].
  apply (cached_transporter_is_reused broken visitor (Some ∅) None None cached _ H).
Defined.

(** *** Sending *)

Lemma send_run W m st :
  send W (Ok m) st
  = (Ok (sent_as W (clock st) m), State (transporter st) (S (clock st)), [Call (SendMail m)]).
Proof.
  unfold send, sent_as, try_catch, bind, lift, external, ret.
  destruct (respond W (clock st) (SendMail m)); reflexivity.
Qed.

(** A message that cannot be addressed is not sent. *)
Lemma send_unaddressed W e st : send W (Throw e) st = (Ok (NotSent e), st, []).
Proof. reflexivity. Qed.

Lemma addressed_to config to draft m :
  addressed config to draft = Ok m ->
  sender config = Ok (mail_from m) /\ mail_to m = to.
Proof.
  unfold addressed. destruct (sender config) as [from|]; [|discriminate].
  cbn [rbind]. intros [= <-]. split; reflexivity.
Qed.

Lemma master_mail_to W comment config m :
  master_mail W comment config = Ok m ->
  sender config = Ok (mail_from m)
  /\ mail_to m = js_or (get config "BLOGGER_EMAIL") (get config "SENDER_EMAIL").
Proof.
  unfold master_mail. destruct (master_draft W comment config); [|discriminate].
  cbn [rbind]. apply addressed_to.
Qed.

Lemma reply_mail_to W comment config p m :
  reply_mail W comment config p = Ok m ->
  sender config = Ok (mail_from m) /\ mail_to m = get p "mail".
Proof.
  unfold reply_mail. destruct (reply_draft W comment config p); [|discriminate].
  cbn [rbind]. apply addressed_to.
Qed.

Lemma noticeMaster_ready W comment config st st1 ev m :
  no_mailer W (Some config) st = (Ok false, st1, ev) ->
  equalsMail (get config "BLOGGER_EMAIL") (get comment "mail") = Ok false ->
  push_preferred config = false ->
  master_mail W comment config = Ok m ->
  noticeMaster W comment (Some config) st
  = (Ok (Some (sent_as W (clock st1) m)), State (transporter st1) (S (clock st1)),
     (ev ++ [Call (SendMail m); Log (LogMasterResult (sent_as W (clock st1) m))])%list).
Proof.
  intros Hready Hne Hpush Hm.
  unfold master_mail in Hm.
  destruct (master_draft W comment config) as [draft|] eqn:Hd; [|discriminate Hm].
  cbn [rbind] in Hm.
  unfold noticeMaster. unfold bind at 1. rewrite Hready. cbv beta iota.
  rewrite (bind_lift_ok _ false _ _ Hne). cbv beta iota zeta.
  unfold push_preferred in Hpush. rewrite Hpush.
  rewrite (bind_lift_ok _ draft _ _ Hd), Hm.
  unfold bind, console, ret. rewrite send_run. reflexivity.
Qed.

(** X9. The transporter is stored before it is verified.  When the
    verification fails, the [noticeMaster] that set it up sends nothing and
    warns, but the transporter stays; the next [noticeMaster] finds it,
    skips the set-up, and sends its mail through the transporter that never
    passed verification. *)
Theorem unverified_transporter_is_used W comment config st created msg m :
  transporter st = None ->
  smtp_incomplete config = false ->
  respond W (clock st) (CreateTransport (transport_of config)) = Returned created ->
  respond W (S (clock st)) VerifyTransport = Raised msg ->
  equalsMail (get config "BLOGGER_EMAIL") (get comment "mail") = Ok false ->
  push_preferred config = false ->
  master_mail W comment config = Ok m ->
  noticeMaster W comment (Some config) st
  = (Ok None, State (Some (transport_of config)) (S (S (clock st))),
     [Call (CreateTransport (transport_of config)); Call VerifyTransport;
      Log (WarnMailerInit (ErrSmtpVerify (ErrExternal msg))); Log LogNoMailer])
  /\ events (noticeMaster W comment (Some config)
               (final (noticeMaster W comment (Some config) st)))
     = [Call (SendMail m);
        Log (LogMasterResult (sent_as W (S (S (clock st))) m))].
Proof.
  intros Hnone Hcomplete Hcreate Hverify Hne Hpush Hm.
  assert (Hfirst : noticeMaster W comment (Some config) st
                   = (Ok None, State (Some (transport_of config)) (S (S (clock st))),
                      [Call (CreateTransport (transport_of config)); Call VerifyTransport;
                       Log (WarnMailerInit (ErrSmtpVerify (ErrExternal msg)));
                       Log LogNoMailer])).
  { unfold noticeMaster, no_mailer.
    unfold bind at 1 2. unfold get_transporter at 1. rewrite Hnone. cbv beta iota.
    unfold bind at 1.
    rewrite (initMailer_complete W config false st Hcomplete).
    rewrite Hcreate, Hverify. reflexivity. }
  split; [exact Hfirst|]. rewrite Hfirst. unfold final. cbn [fst snd].
  set (st1 := State (Some (transport_of config)) (S (S (clock st)))).
  rewrite (noticeMaster_ready W comment config st1 st1 [] m
             (no_mailer_cached W (Some config) st1 (transport_of config) eq_refl)
             Hne Hpush Hm).
  reflexivity.
Qed.

Lemma unverified_transporter_is_used_witness :
  (transporter fresh = None
   /\ smtp_incomplete site = false
   /\ respond (failing_at 1) (clock fresh) (CreateTransport (transport_of site))
      = Returned VUndefined
   /\ respond (failing_at 1) (S (clock fresh)) VerifyTransport = Raised "down"
   /\ equalsMail (get site "BLOGGER_EMAIL") (get visitor "mail") = Ok false
   /\ push_preferred site = false)
  /\ outcome (noticeMaster (failing_at 1) visitor (Some site) fresh) = Ok None
  /\ existsb is_mail_sent
       (events (noticeMaster (failing_at 1) visitor (Some site)
                  (final (noticeMaster (failing_at 1) visitor (Some site) fresh)))) = true.
Proof.
  destruct (master_mail (failing_at 1) visitor site) as [m|] eqn:Hm;
    [|vm_compute in Hm; discriminate Hm].
  assert (H1 : transporter fresh = None) by reflexivity.
  assert (H2 : smtp_incomplete site = false) by reflexivity.
  assert (H3 : respond (failing_at 1) (clock fresh) (CreateTransport (transport_of site))
               = Returned VUndefined) by reflexivity.
  assert (H4 : respond (failing_at 1) (S (clock fresh)) VerifyTransport = Raised "down")
    by reflexivity.
  assert (H5 : equalsMail (get site "BLOGGER_EMAIL") (get visitor "mail") = Ok false)
    by reflexivity.
  assert (H6 : push_preferred site = false) by reflexivity.
  destruct (unverified_transporter_is_used (failing_at 1) visitor site fresh _ _ m
              H1 H2 H3 H4 H5 H6 Hm) as (Hfirst & Hsecond).
  split; [auto 10|]. split.
  - rewrite Hfirst. reflexivity.
  - rewrite Hsecond. reflexivity.
Defined.

(** X10. When the transport is usable ([no_mailer] answers [false]), the
    commenter is not the owner and the push does not take the place of the
    mail, [noticeMaster] makes exactly one more call: it sends the composed
    message, from the configured sender to BLOGGER_EMAIL, or to
    SENDER_EMAIL when no owner address is configured.  It answers the
    result of the sending; a failure of the sending is that result, not a
    rejection. *)
Theorem noticeMaster_sends W comment config st st1 ev m :
  no_mailer W (Some config) st = (Ok false, st1, ev) ->
  equalsMail (get config "BLOGGER_EMAIL") (get comment "mail") = Ok false ->
  push_preferred config = false ->
  master_mail W comment config = Ok m ->
  noticeMaster W comment (Some config) st
  = (Ok (Some (sent_as W (clock st1) m)), State (transporter st1) (S (clock st1)),
     (ev ++ [Call (SendMail m); Log (LogMasterResult (sent_as W (clock st1) m))])%list)
  /\ sender config = Ok (mail_from m)
  /\ mail_to m = js_or (get config "BLOGGER_EMAIL") (get config "SENDER_EMAIL").
Proof.
  intros Hready Hne Hpush Hm.
  split; [apply noticeMaster_ready; assumption|].
  exact (master_mail_to W comment config m Hm).
Qed.

Lemma noticeMaster_sends_witness :
  (no_mailer broken (Some site) cached = (Ok false, cached, [])
   /\ equalsMail (get site "BLOGGER_EMAIL") (get (with_avatar visitor) "mail") = Ok false
   /\ push_preferred site = false)
  /\ outcome (noticeMaster broken (with_avatar visitor) (Some site) cached)
     = Ok (Some (NotSent (ErrExternal "down"))).
Proof.
  assert (H1 : no_mailer broken (Some site) cached = (Ok false, cached, []))
    by reflexivity.
  assert (H2 : equalsMail (get site "BLOGGER_EMAIL") (get (with_avatar visitor) "mail")
               = Ok false) by reflexivity.
  assert (H3 : push_preferred site = false) by reflexivity.
  split; [auto|].
  destruct (master_mail broken (with_avatar visitor) site) as [m|] eqn:Hm;
    [|vm_compute in Hm; discriminate Hm].
  destruct (noticeMaster_sends broken _ site _ _ _ m H1 H2 H3 Hm) as (Hrun & _).
  rewrite Hrun. reflexivity.
Defined.

(** X11. When a reply is due (the comment has a [pid], its parent was
    found, the parent is neither the owner nor the commenter) and the
    transport is usable, [noticeReply] makes exactly one more call: it
    sends the composed message from the configured sender to the address of
    the parent comment, whatever that field holds.  It answers the result
    of the sending; a failure of the sending is that result, not a
    rejection. *)
Theorem noticeReply_sends W comment config p st st1 ev m :
  truthy (get comment "pid") = true ->
  no_mailer W (Some config) st = (Ok false, st1, ev) ->
  equalsMail (get config "BLOGGER_EMAIL") (get p "mail") = Ok false ->
  equalsMail (get comment "mail") (get p "mail") = Ok false ->
  reply_mail W comment config p = Ok m ->
  noticeReply W comment (Some config) (Some p) st
  = (Ok (Some (sent_as W (clock st1) m)), State (transporter st1) (S (clock st1)),
     (ev ++ [Call (SendMail m); Log (LogReplyResult (sent_as W (clock st1) m))])%list)
  /\ sender config = Ok (mail_from m)
  /\ mail_to m = get p "mail".
Proof.
  intros Hpid Hready Howner Hself Hm. split; [|exact (reply_mail_to W comment config p m Hm)].
  unfold reply_mail in Hm.
  destruct (reply_draft W comment config p) as [draft|] eqn:Hd; [|discriminate Hm].
  cbn [rbind] in Hm.
  unfold noticeReply, falsy. rewrite Hpid. cbn [negb].
  unfold bind at 1. rewrite Hready. cbv beta iota.
  rewrite (bind_lift_ok _ false _ _ Howner). cbv beta iota.
  rewrite (bind_lift_ok _ false _ _ Hself). cbv beta iota.
  rewrite (bind_lift_ok _ draft _ _ Hd), Hm.
  unfold bind, console, ret. rewrite send_run. reflexivity.
Qed.

Lemma noticeReply_sends_witness :
  (truthy (get (reply_to visitor) "pid") = true
   /\ no_mailer quiet (Some site) cached = (Ok false, cached, [])
   /\ equalsMail (get site "BLOGGER_EMAIL") (get author "mail") = Ok false
   /\ equalsMail (get (reply_to visitor) "mail") (get author "mail") = Ok false)
  /\ outcome (noticeReply quiet (reply_to visitor) (Some site) (Some author) cached)
     = Ok (Some (Sent VUndefined)).
Proof.
  assert (H1 : truthy (get (reply_to visitor) "pid") = true) by reflexivity.
  assert (H0 : no_mailer quiet (Some site) cached = (Ok false, cached, []))
    by reflexivity.
  assert (H2 : equalsMail (get site "BLOGGER_EMAIL") (get author "mail") = Ok false)
    by reflexivity.
  assert (H3 : equalsMail (get (reply_to visitor) "mail") (get author "mail") = Ok false)
    by reflexivity.
  split; [auto|].
  destruct (reply_mail quiet (reply_to visitor) site author) as [m|] eqn:Hm;
    [|vm_compute in Hm; discriminate Hm].
  destruct (noticeReply_sends quiet _ site author cached _ _ m H1 H0 H2 H3 Hm)
    as (Hrun & _).
  rewrite Hrun. reflexivity.
Defined.

(** X12. The body of the reply mail.  With a MAIL_TEMPLATE made of text
    and placeholder tokens, where neither the text nor the string forms of
    the values contain a "$", every occurrence of each of the nine
    placeholders is replaced by its value and every other token stays.
    Without a template the built-in layout is used, with the string forms
    of its six values; it throws a TypeError when one of them has none.  A
    template that is truthy but not a string makes the rendering throw a
    TypeError. *)
Theorem reply_template_substitution config
  IMG PARENT_IMG SITE_URL SITE_NAME PARENT_NICK PARENT_COMMENT NICK COMMENT POST_URL :
  (forall ps,
     get config "MAIL_TEMPLATE" = VStr (source ps) ->
     source ps <> "" ->
     Forall plain_piece ps ->
     Forall (fun e => plain_value e.2)
       (reply_table IMG PARENT_IMG SITE_URL SITE_NAME PARENT_NICK PARENT_COMMENT
          NICK COMMENT POST_URL) ->
     reply_content config IMG PARENT_IMG SITE_URL SITE_NAME PARENT_NICK PARENT_COMMENT
       NICK COMMENT POST_URL
     = Ok (BodyRendered
             (filled (reply_table IMG PARENT_IMG SITE_URL SITE_NAME PARENT_NICK
                        PARENT_COMMENT NICK COMMENT POST_URL) ps)))
  /\ (truthy (get config "MAIL_TEMPLATE") = false ->
      reply_content config IMG PARENT_IMG SITE_URL SITE_NAME PARENT_NICK PARENT_COMMENT
        NICK COMMENT POST_URL
      = if forallb printable
             [SITE_URL; SITE_NAME; PARENT_NICK; PARENT_COMMENT; NICK; COMMENT]
        then Ok (BodyNewReply (text SITE_URL) (text SITE_NAME) (text PARENT_NICK)
                   (text PARENT_COMMENT) (text NICK) (text COMMENT) POST_URL)
        else Throw TypeError)
  /\ (truthy (get config "MAIL_TEMPLATE") = true ->
      (forall s, get config "MAIL_TEMPLATE" <> VStr s) ->
      reply_content config IMG PARENT_IMG SITE_URL SITE_NAME PARENT_NICK PARENT_COMMENT
        NICK COMMENT POST_URL
      = Throw TypeError).
Proof.
  split; [|split].
  - intros ps Ht Hne Hps Hv.
    unfold reply_content. rewrite Ht, (source_not_empty _ Hne). cbn [as_string rbind].
    fold (reply_table IMG PARENT_IMG SITE_URL SITE_NAME PARENT_NICK PARENT_COMMENT
            NICK COMMENT POST_URL).
    rewrite substitute_pieces; [reflexivity | exact Hps |].
    assert (Hname : forall s : string,
               forallb (fun c => negb (Ascii.eqb c "$" || Ascii.eqb c "}"))
                 (list_ascii_of_string s) = true -> is_name s).
    { intros s Hs. rewrite forallb_forall in Hs.
      split; intros Hin; apply Hs in Hin; discriminate Hin. }
    unfold reply_table in *.
    repeat match goal with
           | H : Forall _ (_ :: _) |- _ => inversion H; subst; clear H
           end.
    repeat (constructor; [split; [apply Hname; reflexivity | assumption]|]).
    constructor.
  - intros H. unfold reply_content. rewrite H. cbn [forallb].
    repeat match goal with
           | |- context [printable ?v] =>
               let E := fresh "E" in
               destruct (printable v) eqn:E;
               [rewrite (ToString_printable _ E) | rewrite (printable_throws _ E)];
               cbn [rbind andb]; try reflexivity
           end.
  - intros H Hns. unfold reply_content. rewrite H.
    destruct (get config "MAIL_TEMPLATE"); try reflexivity.
    exfalso. exact (Hns s eq_refl).
Qed.

Lemma reply_template_substitution_witness :
  (get (<["MAIL_TEMPLATE" := VStr (source reply_greeting)]> site) "MAIL_TEMPLATE"
   = VStr (source reply_greeting)
   /\ source reply_greeting <> "")
  /\ reply_content (<["MAIL_TEMPLATE" := VStr (source reply_greeting)]> site)
       VNull VNull VNull VNull (VStr "Ann") VNull (VStr "Bob") (VStr "hi") "u"
     = Ok (BodyRendered "Ann, Bob wrote: hi${X}").
Proof.
  assert (Hplain : forall s : string,
             forallb (fun c => negb (Ascii.eqb c "$")) (list_ascii_of_string s) = true ->
             plain s).
  { intros s Hs Hin. rewrite forallb_forall in Hs. apply Hs in Hin. discriminate Hin. }
  assert (Hname : forall s : string,
             forallb (fun c => negb (Ascii.eqb c "$" || Ascii.eqb c "}"))
               (list_ascii_of_string s) = true -> is_name s).
  { intros s Hs. rewrite forallb_forall in Hs.
    split; intros Hin; apply Hs in Hin; discriminate Hin. }
  split; [split; [reflexivity | discriminate]|].
  destruct (reply_template_substitution
              (<["MAIL_TEMPLATE" := VStr (source reply_greeting)]> site)
              VNull VNull VNull VNull (VStr "Ann") VNull (VStr "Bob") (VStr "hi") "u")
    as (Hgen & _).
  apply (Hgen reply_greeting).
  - reflexivity.
  - discriminate.
  - repeat constructor; first [apply Hname; reflexivity | apply Hplain; reflexivity].
  - repeat constructor; (eexists; split; [reflexivity | apply Hplain; reflexivity]).
Defined.

(** ** Push and fan-out *)





Lemma emits_bind_lift {A B} (x : event) (r : result A) (a : A) (k : A -> M B) :
  r = Ok a -> emits x (k a) -> emits x (bind (lift r) k).
Proof. intros Hr Hk st. rewrite (bind_lift_ok r a) by exact Hr. apply Hk. Qed.

(** X14. The push does not depend on the fate of the mails.  Unless the
    comment is flagged and NOTIFY_SPAM is "false", with the push configured
    and a commenter who is not the owner, every run of [sendNotice] calls
    the push gateway with the composed message, whatever the mail transport
    and the two mail attempts do. *)
Theorem push_survives_mail_failure W comment config parentComment st m :
  truthy (get comment "isSpam") && is_str (get config "NOTIFY_SPAM") "false" = false ->
  truthy (get config "PUSHOO_CHANNEL") = true ->
  truthy (get config "PUSHOO_TOKEN") = true ->
  equalsMail (get config "BLOGGER_EMAIL") (get comment "mail") = Ok false ->
  push_message_of comment config = Ok m ->
  In (Call (Pushoo (get config "PUSHOO_CHANNEL") m))
     (events (sendNotice W comment (Some config) parentComment st)).
Proof.
  intros Hguard Hch Htok Hne Hm. revert st.
  change (emits (Call (Pushoo (get config "PUSHOO_CHANNEL") m))
            (sendNotice W comment (Some config) parentComment)).
  unfold sendNotice.
  eapply emits_bind_lift; [rewrite notice_suppressed_some, Hguard; reflexivity|].
  apply emits_try.
  unfold join. apply emits_bind_l. cbn [promise_all].
  apply emits_bind_r; [apply settles_settle|]. intros o1. apply emits_bind_l.
  apply emits_bind_r; [apply settles_settle|]. intros o2. apply emits_bind_l.
  apply emits_bind_l. unfold settle. apply emits_try. apply emits_bind_l.
  intros st. rewrite noticePushoo_proceeds by assumption.
  apply push_calls_gateway. exact Hm.
Qed.

Lemma push_survives_mail_failure_witness :
  (truthy (get visitor "isSpam")
   && is_str (get (with_push (<["SC_MAIL_NOTIFY" := VStr "true"]> site)) "NOTIFY_SPAM")
        "false" = false
   /\ truthy (get (with_push (<["SC_MAIL_NOTIFY" := VStr "true"]> site)) "PUSHOO_CHANNEL")
      = true
   /\ truthy (get (with_push (<["SC_MAIL_NOTIFY" := VStr "true"]> site)) "PUSHOO_TOKEN")
      = true
   /\ equalsMail (get (with_push (<["SC_MAIL_NOTIFY" := VStr "true"]> site)) "BLOGGER_EMAIL")
        (get visitor "mail") = Ok false)
  /\ existsb is_push_sent
       (events (sendNotice broken visitor
                  (Some (with_push (<["SC_MAIL_NOTIFY" := VStr "true"]> site))) None fresh))
     = true.
Proof.
  assert (H0 : truthy (get visitor "isSpam")
               && is_str (get (with_push (<["SC_MAIL_NOTIFY" := VStr "true"]> site))
                            "NOTIFY_SPAM") "false" = false) by reflexivity.
  assert (H1 : truthy (get (with_push (<["SC_MAIL_NOTIFY" := VStr "true"]> site))
                         "PUSHOO_CHANNEL") = true) by reflexivity.
  assert (H2 : truthy (get (with_push (<["SC_MAIL_NOTIFY" := VStr "true"]> site))
                         "PUSHOO_TOKEN") = true) by reflexivity.
  assert (H3 : equalsMail (get (with_push (<["SC_MAIL_NOTIFY" := VStr "true"]> site))
                             "BLOGGER_EMAIL") (get visitor "mail") = Ok false)
    by reflexivity.
  split; [auto|].
  destruct (push_message_of visitor (with_push (<["SC_MAIL_NOTIFY" := VStr "true"]> site)))
    as [m|] eqn:Hm; [|vm_compute in Hm; discriminate Hm].
  pose proof (push_survives_mail_failure broken visitor _ None fresh m H0 H1 H2 H3 Hm)
    as Hin.
  apply existsb_exists. eexists. split; [exact Hin | reflexivity].
Defined.

(** *** The NOTIFY_SPAM switch *)

(** Two continuations that agree on what [m] can return. *)
Lemma bind_agree {A B} (Q : A -> Prop) (m : M A) (k1 k2 : A -> M B) st :
  ensures Q m -> (forall a st', Q a -> k1 a st' = k2 a st') ->
  bind m k1 st = bind m k2 st.
Proof.
  intros HQ Hk. unfold bind. specialize (HQ st). unfold outcome in HQ.
  destruct (m st) as [[[a|e] st1] ev1]; simpl in *; [|reflexivity].
  rewrite (Hk a st1 (HQ a eq_refl)). reflexivity.
Qed.

Lemma bind_same {A B} (m : M A) (k1 k2 : A -> M B) st :
  (forall a st', k1 a st' = k2 a st') -> bind m k1 st = bind m k2 st.
Proof.
  intros Hk. apply bind_agree with (Q := fun _ => True); [intros ? ? _; exact I|].
  intros a st' _. apply Hk.
Qed.

Lemma try_agree {A} (m1 m2 : M A) (h : exn -> M A) st :
  m1 st = m2 st -> try_catch m1 h st = try_catch m2 h st.
Proof. intros H. unfold try_catch. rewrite H. reflexivity. Qed.

Lemma never_classify_notification W comment config :
  never is_notification (classify W comment config).
Proof. unfold classify, postCheckSpam, qcloud_check, verdict. never_tac. Qed.

Lemma never_resolve_notification W comment :
  never is_notification (resolve_qq_avatar W comment).
Proof. unfold resolve_qq_avatar. never_tac. Qed.

(** X15. For a comment that arrives flagged as spam, with NOTIFY_SPAM set
    to the string "false", a whole run of [handlePostSubmit] sends no mail
    and no push and does not touch the mail transport; the line written
    after the notification step still appears, whenever the run gets past
    the address test of line 468. *)
Theorem flagged_spam_is_not_notified W comment config parentComment st :
  truthy (get comment "isSpam") = true ->
  get config "NOTIFY_SPAM" = VStr "false" ->
  existsb is_notification
    (events (handlePostSubmit W (submit comment config parentComment) st)) = false
  /\ (truthy (get comment "avatar") = true \/ printable (get comment "mail") = true ->
      In (Log LogNoticeDone)
        (events (handlePostSubmit W (submit comment config parentComment) st))).
Proof.
  intros Hspam Hoff.
  assert (Hquiet : forall c, get c "isSpam" = get comment "isSpam" ->
                             notice_suppressed c (Some config) = Ok true).
  { intros c Hc. rewrite notice_suppressed_some, Hc, Hspam, Hoff. reflexivity. }
  split; [|intros Hw; destruct (wants_qq_avatar_ok comment Hw) as (b & Hb)]; revert st.
  - change (never is_notification
              (handlePostSubmit W (submit comment config parentComment))).
    unfold handlePostSubmit, submit. apply never_try; [|intros e; never_tac].
    apply never_bind; [never_tac|]. intros _.
    eapply never_bind_post;
      [apply (ensures_resolve_qq_avatar W comment "isSpam"); discriminate
      | apply never_resolve_notification |].
    intros c Hc. cbv beta in Hc.
    apply never_bind; [apply never_classify_notification|]. intros isSpam.
    unfold sendNotice. rewrite (Hquiet c Hc).
    apply never_bind; [|intros _; never_tac].
    apply never_try; [|intros e; never_tac].
    apply never_bind; [|intros _; never_tac].
    apply never_bind_lift. intros a [= <-]. never_tac.
  - change (emits (Log LogNoticeDone)
              (handlePostSubmit W (submit comment config parentComment))).
    unfold handlePostSubmit, submit. apply emits_try.
    apply emits_bind_r; [apply settles_console|]. intros _.
    apply emits_bind_r; [apply (settles_resolve_qq_avatar W comment b Hb)|]. intros c.
    apply emits_bind_r; [apply settles_classify|]. intros isSpam.
    apply emits_bind_l. apply emits_try.
    apply emits_bind_r; [apply settles_sendNotice|]. intros _.
    apply emits_console.
Qed.

Lemma flagged_spam_is_not_notified_witness :
  (truthy (get (flagged visitor) "isSpam") = true
   /\ get (<["NOTIFY_SPAM" := VStr "false"]> (with_push site)) "NOTIFY_SPAM" = VStr "false"
   /\ (truthy (get (flagged visitor) "avatar") = true
       \/ printable (get (flagged visitor) "mail") = true))
  /\ existsb is_notification
       (events (handlePostSubmit quiet
                  (submit (flagged visitor)
                     (<["NOTIFY_SPAM" := VStr "false"]> (with_push site)) (Some author))
                  fresh))
     = false
  /\ In (Log LogNoticeDone)
       (events (handlePostSubmit quiet
                  (submit (flagged visitor)
                     (<["NOTIFY_SPAM" := VStr "false"]> (with_push site)) (Some author))
                  fresh)).
Proof.
  assert (H1 : truthy (get (flagged visitor) "isSpam") = true) by reflexivity.
  assert (H2 : get (<["NOTIFY_SPAM" := VStr "false"]> (with_push site)) "NOTIFY_SPAM"
               = VStr "false") by reflexivity.
  assert (H3 : truthy (get (flagged visitor) "avatar") = true
               \/ printable (get (flagged visitor) "mail") = true)
    by (right; reflexivity).
  destruct (flagged_spam_is_not_notified quiet _ _ (Some author) fresh H1 H2)
    as (Hnone & Hdone).
  split; [auto|]. split; [exact Hnone | exact (Hdone H3)].
Defined.

Lemma classify_ignores_notify_spam W comment config v :
  classify W comment (Some (<["NOTIFY_SPAM" := v]> config))
  = classify W comment (Some config).
Proof.
  unfold classify, postCheckSpam, spam_branch_of, qcloud_check.
  rewrite !get_insert_ne by discriminate. reflexivity.
Qed.

Lemma fanout_ignores_notify_spam W comment config parentComment v :
  join [settle (noticeMaster W comment (Some (<["NOTIFY_SPAM" := v]> config)));
        settle (noticeReply W comment (Some (<["NOTIFY_SPAM" := v]> config)) parentComment);
        settle (noticePushoo W comment (Some (<["NOTIFY_SPAM" := v]> config)))]
  = join [settle (noticeMaster W comment (Some config));
          settle (noticeReply W comment (Some config) parentComment);
          settle (noticePushoo W comment (Some config))].
Proof.
  unfold noticeMaster, noticeReply, noticePushoo, push, no_mailer, initMailer,
    smtp_server_of, master_draft, master_content, reply_draft, reply_content,
    push_message_of, addressed, getAvatar, post_url, sender.
  rewrite !get_insert_ne by discriminate. reflexivity.
Qed.

Lemma sendNotice_ignores_notify_spam W comment config parentComment v :
  truthy (get comment "isSpam") = false ->
  sendNotice W comment (Some (<["NOTIFY_SPAM" := v]> config)) parentComment
  = sendNotice W comment (Some config) parentComment.
Proof.
  intros H. unfold sendNotice, notice_suppressed.
  rewrite H, fanout_ignores_notify_spam. reflexivity.
Qed.

(** X16. NOTIFY_SPAM only looks at the flag the comment arrives with.  For
    a comment that is not flagged, a run of [handlePostSubmit] is the same
    whatever NOTIFY_SPAM holds: the verdict of the spam check is answered
    but not written to the comment, so a comment that the check itself
    finds to be spam is notified like any other. *)
Theorem notify_spam_reads_only_the_flag W comment config parentComment v st :
  truthy (get comment "isSpam") = false ->
  handlePostSubmit W (submit comment (<["NOTIFY_SPAM" := v]> config) parentComment) st
  = handlePostSubmit W (submit comment config parentComment) st.
Proof.
  intros Hspam. unfold handlePostSubmit, submit. apply try_agree.
  apply bind_same. intros _ st1.
  apply bind_agree with (Q := fun c => get c "isSpam" = get comment "isSpam").
  { apply ensures_resolve_qq_avatar. discriminate. }
  intros c st2 Hc. rewrite classify_ignores_notify_spam.
  apply bind_same. intros isSpam st3.
  rewrite sendNotice_ignores_notify_spam by (rewrite Hc; exact Hspam). reflexivity.
Qed.

Lemma notify_spam_reads_only_the_flag_witness :
  truthy (get visitor "isSpam") = false
  /\ outcome (handlePostSubmit (answering (VBool true))
                (submit visitor (<["NOTIFY_SPAM" := VStr "false"]> (with_akismet site))
                   None) fresh)
     = Ok (SubmitResult SUCCESS (VBool true) VUndefined)
  /\ existsb is_mail_sent
       (events (handlePostSubmit (answering (VBool true))
                  (submit visitor (<["NOTIFY_SPAM" := VStr "false"]> (with_akismet site))
                     None) fresh))
     = true.
Proof.
  assert (H : truthy (get visitor "isSpam") = false) by reflexivity.
  split; [exact H|].
  rewrite (notify_spam_reads_only_the_flag (answering (VBool true)) visitor
             (with_akismet site) None (VStr "false") fresh H).
  split; vm_compute; reflexivity.
Defined.

(** ** Spam classification *)

Lemma never_akismet_qcloud W comment config :
  never is_akismet_call (qcloud_check W comment config).
Proof. unfold qcloud_check. never_tac. Qed.

(** Only a comment that is not flagged takes one of the later branches. *)
Lemma spam_branch_unflagged comment config branch :
  spam_branch_of comment config = Ok branch -> branch <> Flagged ->
  truthy (get comment "isSpam") = false.
Proof.
  unfold spam_branch_of. destruct (truthy (get comment "isSpam")); [|reflexivity].
  intros [= <-] H. contradiction.
Qed.

(** The run of [postCheckSpam] on a branch other than the first. *)
Lemma postCheckSpam_branch W comment config branch st :
  spam_branch_of comment config = Ok branch -> branch <> Flagged ->
  postCheckSpam W comment (Some config) st
  = try_catch
      (match branch with
       | Flagged => verdict (VBool true)
       | OwnerExempt => verdict (VBool false)
       | Qcloud => isSpam <- qcloud_check W comment config ;; verdict isSpam
       | Akismet =>
           isValid <- external W (AkismetVerifyKey (get config "AKISMET_KEY")
                                    (get config "SITE_URL")) ;;
           if falsy isValid
           then console (WarnAkismetKey (get config "AKISMET_KEY")) ;; ret VUndefined
           else
             isSpam <- external W (AkismetCheckSpam (akismet_params_of comment)) ;;
             verdict isSpam
       | NoProvider => verdict VUndefined
       end)
      (fun err => console (ErrSpamCheck err) ;; ret VUndefined) st.
Proof.
  intros Hbranch Hne. unfold postCheckSpam.
  rewrite (spam_branch_unflagged _ _ _ Hbranch Hne).
  unfold try_catch. rewrite (bind_lift_ok _ branch _ _ Hbranch). reflexivity.
Qed.

(** X17. When the comment is neither flagged nor the owner's and both
    QCLOUD settings are present, the Tencent Cloud check is the one that
    runs: Akismet is never called, even when its key is configured.  Any
    suggestion other than the string "Pass" (a "Review", or none at all)
    makes the comment spam; a check that cannot even be started leaves the
    verdict undefined. *)
Theorem qcloud_comes_first W comment config st :
  spam_branch_of comment config = Ok Qcloud ->
  existsb is_akismet_call (events (postCheckSpam W comment (Some config) st)) = false
  /\ (forall client content suggestion,
        respond W (clock st)
          (TmsClient (get config "QCLOUD_SECRET_ID") (get config "QCLOUD_SECRET_KEY"))
        = Returned client ->
        base64_utf8 W (get comment "comment") = Ok content ->
        respond W (S (clock st)) (TextModeration (moderation_params_of comment config content))
        = Returned suggestion ->
        outcome (postCheckSpam W comment (Some config) st)
        = Ok (VBool (negb (is_str suggestion "Pass"))))
  /\ (forall msg,
        respond W (clock st)
          (TmsClient (get config "QCLOUD_SECRET_ID") (get config "QCLOUD_SECRET_KEY"))
        = Raised msg ->
        postCheckSpam W comment (Some config) st
        = (Ok VUndefined, State (transporter st) (S (clock st)),
           [Call (TmsClient (get config "QCLOUD_SECRET_ID") (get config "QCLOUD_SECRET_KEY"));
            Log (WarnTmsFailed (ErrExternal msg)); Log (LogSpamVerdict VUndefined)])).
Proof.
  intros Hbranch.
  rewrite (postCheckSpam_branch W comment config Qcloud st Hbranch) by discriminate.
  split; [|split].
  - revert st.
    change (never is_akismet_call
              (try_catch (isSpam <- qcloud_check W comment config ;; verdict isSpam)
                 (fun err => console (ErrSpamCheck err) ;; ret VUndefined))).
    unfold verdict.
    apply never_try; [|intros e; never_tac].
    apply never_bind; [apply never_akismet_qcloud|]. intros isSpam. never_tac.
  - intros client content suggestion Hclient Hcontent Hmod.
    unfold qcloud_check, verdict, try_catch, bind, external, lift, console, ret, outcome.
    rewrite Hclient, Hcontent. cbn [clock transporter].
    unfold moderation_params_of in Hmod. rewrite Hmod. reflexivity.
  - intros msg Hclient.
    unfold qcloud_check, verdict, try_catch, bind, external, lift, console, ret.
    rewrite Hclient. reflexivity.
Qed.

Lemma qcloud_comes_first_witness :
  spam_branch_of visitor (with_qcloud (with_akismet site)) = Ok Qcloud
  /\ existsb is_akismet_call
       (events (postCheckSpam (answering (VStr "Review")) visitor
                  (Some (with_qcloud (with_akismet site))) fresh)) = false
  /\ outcome (postCheckSpam (answering (VStr "Review")) visitor
                (Some (with_qcloud (with_akismet site))) fresh) = Ok (VBool true).
Proof.
  assert (H : spam_branch_of visitor (with_qcloud (with_akismet site)) = Ok Qcloud)
    by reflexivity.
  destruct (qcloud_comes_first (answering (VStr "Review")) visitor _ fresh H)
    as (Hnever & Hverdict & _).
  split; [exact H|]. split; [exact Hnever|].
  exact (Hverdict _ _ _ eq_refl eq_refl eq_refl).
Defined.

(** X18. On the Akismet branch the key is verified first.  With a key
    that is not valid the check itself is not called: the verdict is
    undefined and the only console line is the warning about the key.
    With a valid key the verdict is what the check answers, as it is. *)
Theorem akismet_key_gates_the_check W comment config st isValid :
  spam_branch_of comment config = Ok Akismet ->
  respond W (clock st) (AkismetVerifyKey (get config "AKISMET_KEY") (get config "SITE_URL"))
  = Returned isValid ->
  (truthy isValid = false ->
   postCheckSpam W comment (Some config) st
   = (Ok VUndefined, State (transporter st) (S (clock st)),
      [Call (AkismetVerifyKey (get config "AKISMET_KEY") (get config "SITE_URL"));
       Log (WarnAkismetKey (get config "AKISMET_KEY"))]))
  /\ (truthy isValid = true ->
      forall isSpam,
        respond W (S (clock st)) (AkismetCheckSpam (akismet_params_of comment))
        = Returned isSpam ->
        postCheckSpam W comment (Some config) st
        = (Ok isSpam, State (transporter st) (S (S (clock st))),
           [Call (AkismetVerifyKey (get config "AKISMET_KEY") (get config "SITE_URL"));
            Call (AkismetCheckSpam (akismet_params_of comment));
            Log (LogSpamVerdict isSpam)])).
Proof.
  intros Hbranch Hkey.
  rewrite (postCheckSpam_branch W comment config Akismet st Hbranch) by discriminate.
  split.
  - intros Hvalid.
    unfold try_catch, bind, external, console, ret, falsy. rewrite Hkey, Hvalid.
    reflexivity.
  - intros Hvalid isSpam Hcheck.
    unfold verdict, try_catch, bind, external, console, ret, falsy. rewrite Hkey, Hvalid.
    cbn [negb clock transporter]. rewrite Hcheck. reflexivity.
Qed.

Lemma akismet_key_gates_the_check_witness :
  (spam_branch_of visitor (with_akismet site) = Ok Akismet
   /\ respond quiet (clock fresh)
        (AkismetVerifyKey (get (with_akismet site) "AKISMET_KEY")
           (get (with_akismet site) "SITE_URL"))
      = Returned VUndefined
   /\ truthy VUndefined = false)
  /\ postCheckSpam quiet visitor (Some (with_akismet site)) fresh
     = (Ok VUndefined, State None 1,
        [Call (AkismetVerifyKey (VStr "k") (VStr "https://x")); Log (WarnAkismetKey (VStr "k"))]).
Proof.
  assert (H1 : spam_branch_of visitor (with_akismet site) = Ok Akismet) by reflexivity.
  assert (H2 : respond quiet (clock fresh)
                 (AkismetVerifyKey (get (with_akismet site) "AKISMET_KEY")
                    (get (with_akismet site) "SITE_URL"))
               = Returned VUndefined) by reflexivity.
  destruct (akismet_key_gates_the_check quiet visitor _ fresh VUndefined H1 H2) as (Hbad & _).
  split; [auto|].
  rewrite (Hbad eq_refl). reflexivity.
Defined.

(** X19. The spam check fails open.  When every call to a provider fails,
    a comment that does not arrive flagged is never classified as spam:
    [postCheckSpam] answers [false] for the owner and [undefined] for
    everyone else (also when the owner test throws), whatever is
    configured, and the verdict that [handlePostSubmit] works with is
    falsy. *)
Theorem spam_check_fails_open W comment config st :
  providers_down W ->
  truthy (get comment "isSpam") = false ->
  outcome (postCheckSpam W comment (Some config) st)
  = Ok (match equalsMail (get config "BLOGGER_EMAIL") (get comment "mail") with
        | Ok true => VBool false
        | _ => VUndefined
        end)
  /\ (exists v, outcome (classify W comment (Some config) st) = Ok v /\ truthy v = false).
Proof.
  intros Hdown Hspam.
  assert (Hcheck : outcome (postCheckSpam W comment (Some config) st)
                   = Ok (match equalsMail (get config "BLOGGER_EMAIL") (get comment "mail")
                         with
                         | Ok true => VBool false
                         | _ => VUndefined
                         end)).
  { unfold postCheckSpam, spam_branch_of. rewrite Hspam.
    destruct (equalsMail _ _) as [[|]|e]; cbn [rbind]; [reflexivity | | reflexivity].
    destruct (truthy (js_and _ _)).
    - destruct (Hdown (clock st) (TmsClient (get config "QCLOUD_SECRET_ID")
                                    (get config "QCLOUD_SECRET_KEY")) eq_refl)
        as (msg & Hmsg).
      unfold qcloud_check, verdict, try_catch, bind, lift, external, console, ret, outcome.
      rewrite Hmsg. reflexivity.
    - destruct (truthy (get config "AKISMET_KEY")); [|reflexivity].
      destruct (Hdown (clock st) (AkismetVerifyKey (get config "AKISMET_KEY")
                                    (get config "SITE_URL")) eq_refl) as (msg & Hmsg).
      unfold try_catch, bind, lift, external, console, ret, outcome.
      rewrite Hmsg. reflexivity. }
  split; [exact Hcheck|].
  unfold classify, falsy. rewrite Hspam. cbn [negb].
  unfold try_catch, bind, outcome in *.
  destruct (postCheckSpam W comment (Some config) st) as [[r st1] ev1]. simpl in Hcheck.
  subst r. simpl. eexists. split; [reflexivity|].
  destruct (equalsMail _ _) as [[|]|e]; reflexivity.
Qed.

Lemma spam_check_fails_open_witness :
  (providers_down broken /\ truthy (get visitor "isSpam") = false)
  /\ outcome (postCheckSpam broken visitor (Some (with_qcloud site)) fresh) = Ok VUndefined.
Proof.
  assert (H1 : providers_down broken) by (intros n req _; exists "down"; reflexivity).
  assert (H2 : truthy (get visitor "isSpam") = false) by reflexivity.
  split; [auto|].
  destruct (spam_check_fails_open broken visitor (with_qcloud site) fresh H1 H2) as (H & _).
  rewrite H. reflexivity.
Defined.

(** ** QQ avatars *)

Lemma get_insert_eq (o : object) k v : get (<[k := v]> o) k = v.
Proof. unfold get. rewrite lookup_insert_eq. reflexivity. Qed.

Lemma getQQAvatar_null_or_truthy W qq :
  returns (fun v => v = VNull \/ truthy v = true) (getQQAvatar W qq).
Proof.
  apply returns_ensures; [unfold getQQAvatar; settles_tac|].
  unfold getQQAvatar. apply ensures_try.
  - apply ensures_bind; intros q. apply ensures_bind; intros url.
    apply ensures_ret. unfold js_or. destruct (truthy url) eqn:E; auto.
  - intros e. apply ensures_bind; intros _. apply ensures_ret. left. reflexivity.
Qed.

Lemma as_string_other v : (forall s, v <> VStr s) -> as_string v = Throw TypeError.
Proof. intros H. destruct v; try reflexivity. exfalso. exact (H s eq_refl). Qed.

Lemma never_lift_throw {A B} P e (k : A -> M B) : never P (bind (lift (Throw e)) k).
Proof. intros st. reflexivity. Qed.

(** X20. A lookup is only ever made for a string.  For a [mail] of any
    other type [handleGetQQAvatar] answers code FAIL without a request:
    "not a QQ mail" when [isQQ] rejects it, and otherwise a TypeError,
    after an error line: the one of [mail.replace] when [isQQ] accepts the
    value (a QQ number sent as a JSON number, or as an array that holds
    one), the one of [isQQ] itself when the value has no string form.  And
    a run of [handlePostSubmit] on a comment with such an address makes no
    HTTP request at all. *)
Theorem handleGetQQAvatar_needs_a_string W mail st :
  (forall s, mail <> VStr s) ->
  handleGetQQAvatar W (Some mail) st
  = match isQQ mail with
    | Ok false => (Ok (Failure FAIL MsgNotQQ), st, [])
    | _ => (Ok (Failure FAIL (MsgError TypeError)), st, [Log (ErrQQAvatar TypeError)])
    end
  /\ (forall comment config parentComment,
        get comment "mail" = mail ->
        existsb is_http_call
          (events (handlePostSubmit W (Some (SubmitData (Some comment) config parentComment))
                     st))
        = false).
Proof.
  intros H. pose proof (as_string_other mail H) as Hs. split.
  - unfold handleGetQQAvatar. rewrite Hs.
    destruct (isQQ mail) as [[|]|e] eqn:E; try reflexivity.
    rewrite (isQQ_TypeError _ _ E). reflexivity.
  - intros comment config parentComment Hmail. revert st.
    change (never is_http_call
              (handlePostSubmit W (Some (SubmitData (Some comment) config parentComment)))).
    unfold handlePostSubmit. apply never_try; [|intros e; never_tac].
    apply never_bind; [never_tac|]. intros _.
    apply never_bind.
    { unfold resolve_qq_avatar. rewrite Hmail, Hs.
      apply never_bind_lift. intros [|] _; [|never_tac].
      apply never_try; [apply never_lift_throw | intros e; never_tac]. }
    intros c.
    unfold classify, postCheckSpam, qcloud_check, verdict, sendNotice, noticeMaster,
      noticeReply, noticePushoo, push.
    never_tac.
Qed.

Lemma handleGetQQAvatar_needs_a_string_witness :
  ((forall s, VNum (Some 12345) <> VStr s)
   /\ isQQ (VNum (Some 12345)) = Ok true
   /\ handleGetQQAvatar quiet (Some (VNum (Some 12345))) fresh
      = (Ok (Failure FAIL (MsgError TypeError)), fresh, [Log (ErrQQAvatar TypeError)])
   /\ existsb is_http_call
        (events (handlePostSubmit quiet
                   (submit (<["mail" := VNum (Some 12345)]> visitor) site None) fresh))
      = false)
  /\ ((forall s, VArray [VNum (Some 12345)] <> VStr s)
      /\ isQQ (VArray [VNum (Some 12345)]) = Ok true
      /\ handleGetQQAvatar quiet (Some (VArray [VNum (Some 12345)])) fresh
         = (Ok (Failure FAIL (MsgError TypeError)), fresh, [Log (ErrQQAvatar TypeError)]))
  /\ ((forall s, unprintable <> VStr s)
      /\ isQQ unprintable = Throw TypeError
      /\ handleGetQQAvatar quiet (Some unprintable) fresh
         = (Ok (Failure FAIL (MsgError TypeError)), fresh, [Log (ErrQQAvatar TypeError)]))
  /\ ((forall s, VObject false <> VStr s)
      /\ handleGetQQAvatar quiet (Some (VObject false)) fresh
         = (Ok (Failure FAIL MsgNotQQ), fresh, [])).
Proof.
  assert (H1 : forall s, VNum (Some 12345) <> VStr s) by discriminate.
  assert (H2 : forall s, VArray [VNum (Some 12345)] <> VStr s) by discriminate.
  assert (H3 : forall s, unprintable <> VStr s) by discriminate.
  assert (H4 : forall s, VObject false <> VStr s) by discriminate.
  split; [|split; [|split]].
  - split; [exact H1|]. split; [reflexivity|].
    destruct (handleGetQQAvatar_needs_a_string quiet (VNum (Some 12345)) fresh H1)
      as (Hrun & Hpost).
    split; [rewrite Hrun; reflexivity|].
    apply Hpost. reflexivity.
  - split; [exact H2|]. split; [reflexivity|].
    destruct (handleGetQQAvatar_needs_a_string quiet (VArray [VNum (Some 12345)]) fresh H2)
      as (Hrun & _).
    rewrite Hrun. reflexivity.
  - split; [exact H3|]. split; [reflexivity|].
    destruct (handleGetQQAvatar_needs_a_string quiet unprintable fresh H3) as (Hrun & _).
    rewrite Hrun. reflexivity.
  - split; [exact H4|].
    destruct (handleGetQQAvatar_needs_a_string quiet (VObject false) fresh H4)
      as (Hrun & _).
    rewrite Hrun. reflexivity.
Defined.

(** *** From the address to the lookup *)

Lemma at_is_no_digit c :
  Ascii.eqb (lower c) "@" = true -> Re.range "0" "9" c = false.
Proof. destruct c as [[] [] [] [] [] [] [] []]; intros H; try discriminate H; reflexivity. Qed.

Lemma digit_is_no_at c : Re.range "0" "9" c = true -> Re.chr_i "@" c = false.
Proof. destruct c as [[] [] [] [] [] [] [] []]; intros H; try discriminate H; reflexivity. Qed.

Lemma lower_dot c : Ascii.eqb (lower c) "." = true -> Re.dot c = true.
Proof. destruct c as [[] [] [] [] [] [] [] []]; intros H; try discriminate H; reflexivity. Qed.

Lemma first_digit c : Re.range "1" "9" c = true -> Re.range "0" "9" c = true.
Proof. destruct c as [[] [] [] [] [] [] [] []]; intros H; try discriminate H; reflexivity. Qed.

(** Where the first atom of a pattern accepts no character of [s], a
    replacement leaves [s] as it is, and goes on behind it. *)
Lemma scan_unmatched r p atoms' repl s : forall b rest,
  Re.atoms r = Re.once p :: atoms' ->
  forallb (fun c => negb (p c)) (list_ascii_of_string s) = true ->
  exists b', Re.scan r repl b (s +:+ rest) 0 true
             = s +:+ Re.scan r repl b' rest 0 true.
Proof.
  induction s as [|c s IH]; intros b rest Hr Hs.
  - exists b. reflexivity.
  - cbn [list_ascii_of_string forallb] in Hs. apply andb_true_iff in Hs as (Hc & Hs).
    apply negb_true_iff in Hc.
    destruct (IH (b +:+ String c "") rest Hr Hs) as (b' & E).
    exists b'. rewrite append_cons. cbn [Re.scan]. rewrite Hr. cbn [Re.match_here].
    rewrite repeat_once_reject by exact Hc. rewrite E. reflexivity.
Qed.

Lemma digits_unmatched d :
  digits d = true ->
  forallb (fun c => negb (Re.chr_i "@" c)) (list_ascii_of_string d) = true.
Proof.
  unfold digits. induction (list_ascii_of_string d) as [|c l IH]; [reflexivity|].
  cbn [forallb]. intros H. apply andb_true_iff in H as (Hc & Hl).
  rewrite (digit_is_no_at c Hc), (IH Hl). reflexivity.
Qed.

Lemma qq_number_digits d : qq_number d -> digits d = true.
Proof.
  intros (c & ds & -> & Hc & Hds & _). unfold digits.
  cbn [list_ascii_of_string forallb]. rewrite (first_digit c Hc). exact Hds.
Qed.

(** The seven characters of a suffix that reads "@qq.com" in any case. *)
Lemma qq_suffix_chars sfx :
  toLowerCase sfx = "@qq.com" ->
  exists c1 c2 c3 c4 c5 c6 c7,
    sfx = String c1 (String c2 (String c3 (String c4 (String c5 (String c6 (String c7 ""))))))
    /\ lower c1 = "@"%char /\ lower c2 = "q"%char /\ lower c3 = "q"%char
    /\ lower c4 = "."%char
    /\ lower c5 = "c"%char /\ lower c6 = "o"%char /\ lower c7 = "m"%char.
Proof.
  intros H.
  do 7 (destruct sfx as [|? sfx]; [discriminate H|]).
  destruct sfx; [|discriminate H].
  cbn [toLowerCase] in H. injection H as H1 H2 H3 H4 H5 H6 H7.
  do 7 eexists. split; [reflexivity|]. auto 10.
Qed.

Lemma chr_i_lower x c : lower c = x -> lower x = x -> Re.chr_i x c = true.
Proof. intros H Hx. unfold Re.chr_i. rewrite H, Hx. apply Ascii.eqb_refl. Qed.

(** [qq.replace(/@qq.com/ig, '')] on a number. *)
Lemma strip_digits d :
  digits d = true -> Re.replace re_qq_anywhere "" d = d.
Proof.
  intros Hd. unfold Re.replace.
  destruct (scan_unmatched re_qq_anywhere (Re.chr_i "@")
              (Re.word_i "qq" ++ [Re.once Re.dot] ++ Re.word_i "com")%list "" d "" ""
              eq_refl (digits_unmatched d Hd)) as (b' & E).
  rewrite append_empty in E. rewrite E. cbn [Re.scan].
  destruct (Re.match_here _ _ _); rewrite ?append_empty; reflexivity.
Qed.

(** [mail.replace(/@qq\.com$/i, '')] on a number with or without the
    suffix. *)
Lemma strip_suffix d sfx :
  digits d = true -> sfx = "" \/ toLowerCase sfx = "@qq.com" ->
  Re.replace re_qq_suffix "" (d +:+ sfx) = d.
Proof.
  intros Hd Hsfx. unfold Re.replace.
  destruct (scan_unmatched re_qq_suffix (Re.chr_i "@") (Re.word_i "qq.com") "" d "" sfx
              eq_refl (digits_unmatched d Hd)) as (b' & E).
  rewrite E. rewrite <- (append_empty d) at 2. f_equal.
  destruct Hsfx as [->|H]; [reflexivity|].
  destruct (qq_suffix_chars sfx H)
    as (c1 & c2 & c3 & c4 & c5 & c6 & c7 & -> & H1 & H2 & H3 & H4 & H5 & H6 & H7).
  assert (Hm : Re.match_here (Re.atoms re_qq_suffix) (Re.eol re_qq_suffix)
                 (String c1 (String c2 (String c3 (String c4
                    (String c5 (String c6 (String c7 "")))))))
               = Some 7%nat).
  { cbn [re_qq_suffix Re.atoms Re.eol Re.word_i Re.match_here].
    repeat (eapply repeat_once; [apply chr_i_lower; [eassumption | reflexivity]|]).
    reflexivity. }
  cbn [Re.scan]. rewrite Hm. reflexivity.
Qed.

Lemma isQQ_address d sfx :
  qq_number d -> sfx = "" \/ toLowerCase sfx = "@qq.com" ->
  isQQ (VStr (d +:+ sfx)) = Ok true.
Proof.
  intros (c & ds & -> & Hc & Hds & Hlen) Hsfx. unfold isQQ. cbn [ToString rbind].
  f_equal. apply orb_true_iff. destruct Hsfx as [->|H].
  - left. rewrite append_empty.
    unfold Re.test, re_qq_number. cbn [Re.bol Re.atoms Re.eol Re.match_here].
    assert (Hrun : Re.repeat (Re.rep (Re.range "0" "9") 4 10) (Re.match_here [] true) 0
                     (ds +:+ "") = Some (String.length ds + 0)%nat)
      by (apply repeat_run; [exact Hds | lia | exact I | reflexivity]).
    rewrite append_empty in Hrun.
    erewrite repeat_once; [reflexivity | exact Hc | exact Hrun].
  - right.
    destruct (qq_suffix_chars sfx H)
      as (c1 & c2 & c3 & c4 & c5 & c6 & c7 & -> & H1 & H2 & H3 & H4 & H5 & H6 & H7).
    unfold Re.test, re_qq_mail. cbn [Re.bol Re.atoms Re.eol].
    rewrite append_cons. cbn [app Re.match_here].
    erewrite repeat_once; [reflexivity | exact Hc |].
    apply repeat_run; [exact Hds | lia | |].
    + apply at_is_no_digit. rewrite H1. reflexivity.
    + cbn [Re.word_i app Re.match_here].
      repeat (eapply repeat_once;
              [first [apply lower_dot; rewrite H4; reflexivity
                     | apply chr_i_lower; [eassumption | reflexivity]]|]).
      reflexivity.
Qed.

Lemma begins_bind_l {A B} ev (m : M A) (k : A -> M B) :
  begins ev m -> begins ev (bind m k).
Proof.
  intros Hm st. destruct (Hm st) as (rest & E). unfold bind, events in *.
  destruct (m st) as [[[a|e] st1] ev1]; simpl in *; [|eauto].
  destruct (k a st1) as [[r st2] ev2]; simpl. subst ev1.
  rewrite <- app_assoc. eauto.
Qed.

Lemma begins_try {A} ev (m : M A) h : begins ev m -> begins ev (try_catch m h).
Proof.
  intros Hm st. destruct (Hm st) as (rest & E). unfold try_catch, events in *.
  destruct (m st) as [[[a|e] st1] ev1]; simpl in *; [eauto|].
  destruct (h e st1) as [[r st2] ev2]; simpl. subst ev1.
  rewrite <- app_assoc. eauto.
Qed.

Lemma begins_console {B} ev l (k : unit -> M B) :
  begins ev (k tt) -> begins (Log l :: ev) (bind (console l) k).
Proof.
  intros Hk st. destruct (Hk st) as (rest & E). unfold bind, console, events in *.
  destruct (k tt st) as [[r st2] ev2]; simpl in *. subst ev2. eauto.
Qed.

Lemma begins_lift {A B} ev (a : A) (k : A -> M B) :
  begins ev (k a) -> begins ev (bind (lift (Ok a)) k).
Proof.
  intros Hk st. destruct (Hk st) as (rest & E). unfold bind, lift, events in *.
  destruct (k a st) as [[r st2] ev2]; simpl in *. eauto.
Qed.

(** The test of line 468 on a comment without avatar. *)
Lemma wants_qq_avatar_plain comment :
  truthy (get comment "avatar") = false ->
  wants_qq_avatar comment = isQQ (get comment "mail").
Proof. intros H. unfold wants_qq_avatar, falsy. rewrite H. reflexivity. Qed.

(** X21. For every QQ number [d] (five to eleven digits, the first not 0),
    given bare or followed by "@qq.com" in any mix of cases: [isQQ] accepts
    the address, and the first thing [handleGetQQAvatar] does is the lookup
    request for the account [d]; so does [handlePostSubmit], right after
    its opening line, for a comment with this address and no avatar. *)
Theorem qq_lookup_carries_the_number W d sfx st :
  qq_number d ->
  sfx = "" \/ toLowerCase sfx = "@qq.com" ->
  isQQ (VStr (d +:+ sfx)) = Ok true
  /\ (exists rest,
        events (handleGetQQAvatar W (Some (VStr (d +:+ sfx))) st)
        = Call (HttpGet (qq_face_url d)) :: rest)
  /\ (forall comment config parentComment,
        truthy (get comment "avatar") = false ->
        get comment "mail" = VStr (d +:+ sfx) ->
        exists rest,
          events (handlePostSubmit W
                    (Some (SubmitData (Some comment) config parentComment)) st)
          = Log LogStart :: Call (HttpGet (qq_face_url d)) :: rest).
Proof.
  intros Hd Hsfx.
  pose proof (isQQ_address d sfx Hd Hsfx) as Hqq.
  pose proof (qq_number_digits d Hd) as Hdigits.
  split; [exact Hqq|].
  assert (Hlookup : begins [Call (HttpGet (qq_face_url d))] (getQQAvatar W (VStr d))).
  { intros st'. unfold getQQAvatar. cbn [as_string].
    unfold try_catch, bind, lift, external, console, ret, events.
    rewrite (strip_digits d Hdigits). fold (qq_face_url d).
    destruct (respond W (clock st') _); simpl; eauto. }
  split.
  - revert st.
    change (begins [Call (HttpGet (qq_face_url d))]
              (handleGetQQAvatar W (Some (VStr (d +:+ sfx))))).
    unfold handleGetQQAvatar. rewrite Hqq. cbn [as_string].
    apply begins_try, begins_lift. cbn [negb]. apply begins_lift. cbv zeta.
    rewrite (strip_suffix d sfx Hdigits Hsfx). apply begins_bind_l, Hlookup.
  - intros comment config parentComment Havatar Hmail. revert st.
    change (begins [Log LogStart; Call (HttpGet (qq_face_url d))]
              (handlePostSubmit W (Some (SubmitData (Some comment) config parentComment)))).
    unfold handlePostSubmit, resolve_qq_avatar.
    rewrite (wants_qq_avatar_plain comment Havatar), Hmail, Hqq.
    cbn [as_string].
    apply begins_try, begins_console, begins_bind_l, begins_lift, begins_try, begins_lift.
    cbv zeta.
    rewrite (strip_suffix d sfx Hdigits Hsfx). apply begins_bind_l, Hlookup.
Qed.

Lemma qq_lookup_carries_the_number_witness :
  (qq_number "10001" /\ ("@QQ.Com" = "" \/ toLowerCase "@QQ.Com" = "@qq.com"))
  /\ isQQ (VStr "10001@QQ.Com") = Ok true
  /\ events (handleGetQQAvatar quiet (Some (VStr "10001@QQ.Com")) fresh)
     = [Call (HttpGet "https://aq.qq.com/cn2/get_img/get_face?img_type=3&uin=10001")].
Proof.
  assert (Hd : qq_number "10001").
  { exists "1"%char, "0001". repeat split; try reflexivity; simpl; lia. }
  assert (Hs : "@QQ.Com" = "" \/ toLowerCase "@QQ.Com" = "@qq.com") by (right; reflexivity).
  destruct (qq_lookup_carries_the_number quiet "10001" "@QQ.Com" fresh Hd Hs)
    as (Hqq & (rest & Hev) & _).
  split; [auto|]. split; [exact Hqq|].
  change "10001@QQ.Com" with ("10001" +:+ "@QQ.Com").
  rewrite Hev. vm_compute in Hev. injection Hev as <-. reflexivity.
Defined.

(** Without the test of line 468 answering yes, the avatar step does
    nothing. *)
Lemma resolve_qq_avatar_skips W comment st :
  wants_qq_avatar comment = Ok false ->
  resolve_qq_avatar W comment st = (Ok comment, st, []).
Proof.
  intros H. unfold resolve_qq_avatar. rewrite (bind_lift_ok _ false _ _ H). reflexivity.
Qed.

(** X22. A comment that has an avatar of its own, or whose address [isQQ]
    rejects, triggers no lookup: a run of [handlePostSubmit] makes no HTTP
    request, and the answer carries the avatar field of the comment as it
    came. *)
Theorem own_avatar_is_kept W comment config parentComment st :
  truthy (get comment "avatar") = true \/ isQQ (get comment "mail") = Ok false ->
  existsb is_http_call
    (events (handlePostSubmit W (submit comment config parentComment) st)) = false
  /\ exists isSpam,
       outcome (handlePostSubmit W (submit comment config parentComment) st)
       = Ok (SubmitResult SUCCESS isSpam (get comment "avatar")).
Proof.
  intros H.
  assert (Hwant : wants_qq_avatar comment = Ok false).
  { unfold wants_qq_avatar, falsy.
    destruct H as [-> | ->]; [reflexivity | destruct (truthy _); reflexivity]. }
  split.
  - revert st.
    change (never is_http_call (handlePostSubmit W (submit comment config parentComment))).
    unfold handlePostSubmit, submit.
    apply never_try; [|intros e; never_tac].
    apply never_bind; [never_tac|]. intros _.
    apply never_bind.
    { intros st. rewrite (resolve_qq_avatar_skips W comment st Hwant). reflexivity. }
    intros c.
    unfold classify, postCheckSpam, qcloud_check, verdict, sendNotice, noticeMaster,
      noticeReply, noticePushoo, push.
    never_tac.
  - assert (Hr : returns (fun r => exists isSpam,
                            r = SubmitResult SUCCESS isSpam (get comment "avatar"))
                   (handlePostSubmit W (submit comment config parentComment))).
    { unfold handlePostSubmit, submit. apply returns_try.
      eapply returns_bind; [apply settles_console|]. intros _ _.
      eapply returns_bind with (Q1 := fun c => c = comment).
      { intros st'. rewrite (resolve_qq_avatar_skips W comment st' Hwant).
        eexists. split; reflexivity. }
      intros c ->.
      eapply returns_bind; [apply settles_classify|]. intros isSpam _.
      eapply returns_bind with (Q1 := fun _ => True).
      { apply settles_try. intros e. apply settles_console. }
      intros _ _. apply returns_ret. eauto. }
    destruct (Hr st) as (r & Ho & isSpam & ->). eauto.
Qed.

Lemma own_avatar_is_kept_witness :
  (truthy (get (with_avatar qq_user) "avatar") = true
   \/ isQQ (get (with_avatar qq_user) "mail") = Ok false)
  /\ existsb is_http_call
       (events (handlePostSubmit quiet (submit (with_avatar qq_user) site None) fresh))
     = false
  /\ existsb is_http_call (events (handlePostSubmit quiet (submit qq_user site None) fresh))
     = true.
Proof.
  assert (H : truthy (get (with_avatar qq_user) "avatar") = true
              \/ isQQ (get (with_avatar qq_user) "mail") = Ok false)
    by (left; reflexivity).
  split; [exact H|]. split; [|vm_compute; reflexivity].
  apply (own_avatar_is_kept quiet _ site None fresh H).
Defined.

Lemma ensures_resolved_avatar W comment :
  ensures (fun c => get c "avatar" = get comment "avatar" \/ truthy (get c "avatar") = true)
    (resolve_qq_avatar W comment).
Proof.
  unfold resolve_qq_avatar.
  apply ensures_bind. intros [|]; [|apply ensures_ret; left; reflexivity].
  apply ensures_try;
    [|intros e; apply ensures_bind; intros _; apply ensures_ret; left; reflexivity].
  apply ensures_bind; intros m. apply ensures_bind; intros avatar.
  destruct (truthy avatar) eqn:E; [|apply ensures_ret; left; reflexivity].
  apply ensures_bind; intros _. apply ensures_ret. right.
  rewrite get_insert_eq. exact E.
Qed.

(** X23. A lookup that fails is not an error.  [getQQAvatar] never
    rejects, and what it answers is [null] or a truthy value.  So the
    getQQAvatar action answers SUCCESS for every string that [isQQ]
    accepts, with a [null] avatar when the lookup failed; and, for a
    comment on which the test of line 468 can be made (it has an avatar, or
    its address has a string form), [handlePostSubmit] answers SUCCESS with
    the avatar the comment came with or a truthy one that was looked up,
    never a falsy replacement. *)
Theorem lookup_failure_is_not_an_error W st :
  (forall qq, exists avatar,
      outcome (getQQAvatar W qq st) = Ok avatar
      /\ (avatar = VNull \/ truthy avatar = true))
  /\ (forall mail, isQQ (VStr mail) = Ok true ->
        exists avatar,
          outcome (handleGetQQAvatar W (Some (VStr mail)) st)
          = Ok (AvatarResult SUCCESS avatar)
          /\ (avatar = VNull \/ truthy avatar = true))
  /\ (forall comment config parentComment,
        truthy (get comment "avatar") = true \/ printable (get comment "mail") = true ->
        exists isSpam avatar,
          outcome (handlePostSubmit W (submit comment config parentComment) st)
          = Ok (SubmitResult SUCCESS isSpam avatar)
          /\ (avatar = get comment "avatar" \/ truthy avatar = true)).
Proof.
  split; [|split].
  - intros qq. apply getQQAvatar_null_or_truthy.
  - intros mail Hqq.
    assert (H : returns (fun r => exists avatar, r = AvatarResult SUCCESS avatar
                                   /\ (avatar = VNull \/ truthy avatar = true))
                  (handleGetQQAvatar W (Some (VStr mail)))).
    { unfold handleGetQQAvatar. apply returns_try.
      eapply returns_bind_lift; [exact Hqq|]. cbn [negb as_string].
      eapply returns_bind_lift; [reflexivity|].
      eapply returns_bind; [apply getQQAvatar_null_or_truthy|]. intros avatar Ha.
      apply returns_ret. eauto. }
    destruct (H st) as (r & Hr & avatar & -> & Ha). eauto.
  - intros comment config parentComment Hw.
    destruct (wants_qq_avatar_ok comment Hw) as (b & Hb).
    assert (H : returns (fun r => exists isSpam avatar,
                           r = SubmitResult SUCCESS isSpam avatar
                           /\ (avatar = get comment "avatar" \/ truthy avatar = true))
                  (handlePostSubmit W (submit comment config parentComment))).
    { unfold handlePostSubmit, submit. apply returns_try.
      eapply returns_bind; [apply settles_console|]. intros _ _.
      eapply returns_bind.
      { apply returns_ensures;
          [apply (settles_resolve_qq_avatar W comment b Hb)
          | apply ensures_resolved_avatar]. }
      intros c Hc. cbv beta in Hc.
      eapply returns_bind; [apply settles_classify|]. intros isSpam _.
      eapply returns_bind with (Q1 := fun _ => True).
      { apply settles_try. intros e. apply settles_console. }
      intros _ _. apply returns_ret. eauto. }
    destruct (H st) as (r & Hr & isSpam & avatar & -> & Ha). eauto.
Qed.

Lemma lookup_failure_is_not_an_error_witness :
  isQQ (VStr "12345@qq.com") = Ok true
  /\ outcome (handleGetQQAvatar broken (Some (VStr "12345@qq.com")) fresh)
     = Ok (AvatarResult SUCCESS VNull)
  /\ (truthy (get qq_user "avatar") = true \/ printable (get qq_user "mail") = true)
  /\ outcome (handlePostSubmit broken (submit qq_user site None) fresh)
     = Ok (SubmitResult SUCCESS VUndefined VUndefined).
Proof.
  assert (H : isQQ (VStr "12345@qq.com") = Ok true) by (vm_compute; reflexivity).
  assert (Hw : truthy (get qq_user "avatar") = true \/ printable (get qq_user "mail") = true)
    by (right; reflexivity).
  split; [exact H|].
  destruct (lookup_failure_is_not_an_error broken fresh) as (_ & Hq & Hp).
  destruct (Hq "12345@qq.com" H) as (avatar & Ho & _).
  split; [rewrite Ho; vm_compute in Ho; injection Ho as <-; reflexivity|].
  split; [exact Hw|].
  destruct (Hp qq_user site None Hw) as (isSpam & avatar' & Ho' & _).
  rewrite Ho'. vm_compute in Ho'. injection Ho' as <- <-. reflexivity.
Defined.

Lemma outcome_try_ok {A} (m : M A) h st a :
  outcome (m st) = Ok a -> outcome (try_catch m h st) = Ok a.
Proof.
  unfold try_catch, outcome. destruct (m st) as [[r st1] ev1]. simpl.
  intros ->. reflexivity.
Qed.

Lemma outcome_bind {A B} (m : M A) (k : A -> M B) st a st1 ev :
  m st = (Ok a, st1, ev) -> outcome (bind m k st) = outcome (k a st1).
Proof.
  intros H. unfold bind, outcome. rewrite H.
  destruct (k a st1) as [[r st2] ev2]. reflexivity.
Qed.

(** What [handlePostSubmit] answers, by the comment that the avatar step
    leaves. *)
Lemma handlePostSubmit_after_resolve W comment config parentComment st c st1 ev :
  resolve_qq_avatar W comment st = (Ok c, st1, ev) ->
  exists isSpam,
    outcome (handlePostSubmit W (Some (SubmitData (Some comment) config parentComment)) st)
    = Ok (SubmitResult SUCCESS isSpam (get c "avatar")).
Proof.
  intros Hres.
  assert (Htail : returns (fun r => exists isSpam,
                             r = SubmitResult SUCCESS isSpam (get c "avatar"))
                    (isSpam <- classify W c config ;;
                     try_catch
                       (sendNotice W c config parentComment ;; console LogNoticeDone)
                       (fun e => console (ErrNoticeFailed e)) ;;
                     ret (SubmitResult SUCCESS isSpam (get c "avatar")))).
  { eapply returns_bind; [apply settles_classify|]. intros isSpam _.
    eapply returns_bind with (Q1 := fun _ => True).
    { apply settles_try. intros e. apply settles_console. }
    intros _ _. apply returns_ret. eauto. }
  destruct (Htail st1) as (r & Hr & isSpam & ->). exists isSpam.
  unfold handlePostSubmit. apply outcome_try_ok.
  rewrite (outcome_bind (console LogStart) _ st tt st [Log LogStart] eq_refl).
  rewrite (outcome_bind (resolve_qq_avatar W comment) _ st c st1 ev Hres).
  exact Hr.
Qed.

(** X24. What the lookup finds reaches the answer.  For a comment without
    an avatar whose address is a QQ number, bare or with "@qq.com" in any
    case, the avatar step is exactly the one request for that number; when
    the request answers a truthy value, the comment gets it as its avatar
    (with a console line) and [handlePostSubmit] answers it; when it
    answers a falsy one, the comment stays as it is and the answer carries
    the avatar field it came with. *)
Theorem looked_up_avatar_is_answered W d sfx comment config parentComment st url :
  qq_number d ->
  sfx = "" \/ toLowerCase sfx = "@qq.com" ->
  truthy (get comment "avatar") = false ->
  get comment "mail" = VStr (d +:+ sfx) ->
  respond W (clock st) (HttpGet (qq_face_url d)) = Returned url ->
  resolve_qq_avatar W comment st
  = (Ok (if truthy url then <["avatar" := url]> comment else comment),
     State (transporter st) (S (clock st)),
     Call (HttpGet (qq_face_url d)) :: (if truthy url then [Log (LogQQAvatar url)] else []))
  /\ exists isSpam,
       outcome (handlePostSubmit W (submit comment config parentComment) st)
       = Ok (SubmitResult SUCCESS isSpam
               (if truthy url then url else get comment "avatar")).
Proof.
  intros Hd Hsfx Havatar Hmail Hurl.
  assert (Hres : resolve_qq_avatar W comment st
                 = (Ok (if truthy url then <["avatar" := url]> comment else comment),
                    State (transporter st) (S (clock st)),
                    Call (HttpGet (qq_face_url d))
                      :: (if truthy url then [Log (LogQQAvatar url)] else []))).
  { unfold resolve_qq_avatar.
    rewrite (wants_qq_avatar_plain comment Havatar), Hmail, (isQQ_address d sfx Hd Hsfx).
    cbn [as_string].
    rewrite (bind_lift_ok _ true) by reflexivity.
    unfold try_catch at 1. rewrite (bind_lift_ok _ (d +:+ sfx)) by reflexivity. cbv zeta.
    rewrite (strip_suffix d sfx (qq_number_digits d Hd) Hsfx).
    unfold getQQAvatar. cbn [as_string].
    unfold try_catch, bind, lift, external, console, ret.
    rewrite (strip_digits d (qq_number_digits d Hd)). fold (qq_face_url d).
    rewrite Hurl. unfold js_or. destruct (truthy url) eqn:E; cbn; rewrite ?E; reflexivity. }
  split; [exact Hres|].
  destruct (handlePostSubmit_after_resolve W comment (Some config) parentComment st _ _ _
              Hres) as (isSpam & Ho).
  exists isSpam. unfold submit. rewrite Ho. destruct (truthy url) eqn:E; [|reflexivity].
  rewrite get_insert_eq. reflexivity.
Qed.

Lemma looked_up_avatar_is_answered_witness :
  (qq_number "12345"
   /\ ("@qq.com" = "" \/ toLowerCase "@qq.com" = "@qq.com")
   /\ truthy (get qq_user "avatar") = false
   /\ get qq_user "mail" = VStr ("12345" +:+ "@qq.com")
   /\ respond (answering (VStr "face.png")) (clock fresh) (HttpGet (qq_face_url "12345"))
      = Returned (VStr "face.png"))
  /\ exists isSpam,
       outcome (handlePostSubmit (answering (VStr "face.png")) (submit qq_user site None)
                  fresh)
       = Ok (SubmitResult SUCCESS isSpam (VStr "face.png")).
Proof.
  assert (H1 : qq_number "12345").
  { exists "1"%char, "2345". repeat split; try reflexivity; simpl; lia. }
  assert (H2 : "@qq.com" = "" \/ toLowerCase "@qq.com" = "@qq.com") by (right; reflexivity).
  assert (H3 : truthy (get qq_user "avatar") = false) by reflexivity.
  assert (H4 : get qq_user "mail" = VStr ("12345" +:+ "@qq.com")) by reflexivity.
  assert (H5 : respond (answering (VStr "face.png")) (clock fresh)
                 (HttpGet (qq_face_url "12345")) = Returned (VStr "face.png"))
    by reflexivity.
  split; [auto 10|].
  destruct (looked_up_avatar_is_answered (answering (VStr "face.png")) "12345" "@qq.com"
              qq_user site None fresh _ H1 H2 H3 H4 H5) as (_ & isSpam & Ho).
  exists isSpam. exact Ho.
Defined.

(** ** The mail test *)

Lemma settles_handleEmailTest W d : settles (handleEmailTest W (Some d)).
Proof.
  destruct d as [event config isAdmin]. unfold handleEmailTest.
  destruct (truthy isAdmin); [|apply returns_ret; exact I].
  apply settles_try. intros e. apply returns_ret. exact I.
Qed.

Lemma ensures_handleEmailTest_code W event config isAdmin :
  ensures (fun r => res_code r = if truthy isAdmin then None else Some NEED_LOGIN)
    (handleEmailTest W (Some (TestData event config isAdmin))).
Proof.
  unfold handleEmailTest. destruct (truthy isAdmin); [|apply ensures_ret; reflexivity].
  apply ensures_try; [|intros e; apply ensures_ret; reflexivity].
  apply ensures_bind; intros _. apply ensures_bind; intros _.
  apply ensures_bind; intros t.
  destruct t as [t|], config as [config|], event as [event|];
    try (intros st a H; discriminate H).
  apply ensures_bind; intros sendResult. apply ensures_ret. reflexivity.
Qed.

(** X25. The mail test is for administrators.  Called without data,
    [handleEmailTest] rejects while it takes its parameter apart (line
    514), with nothing done; called with data, whatever it holds, it never
    rejects.  Its answer carries a code only when [isAdmin] is falsy: then
    it is NEED_LOGIN, nothing is called and the state is untouched.  For an
    administrator the answer has no code at all, in success and in failure,
    and the run does not depend on a transporter kept from before: the test
    always starts from none. *)
Theorem handleEmailTest_is_for_admins W st :
  handleEmailTest W None st = (Throw TypeError, st, [])
  /\ forall event config isAdmin,
       (exists r, outcome (handleEmailTest W (Some (TestData event config isAdmin)) st) = Ok r
                  /\ res_code r = if truthy isAdmin then None else Some NEED_LOGIN)
       /\ (truthy isAdmin = false ->
           handleEmailTest W (Some (TestData event config isAdmin)) st
           = (Ok (TestResponse (Some NEED_LOGIN) (Some MsgLogin) None), st, []))
       /\ (truthy isAdmin = true ->
           handleEmailTest W (Some (TestData event config isAdmin)) st
           = handleEmailTest W (Some (TestData event config isAdmin))
               (State None (clock st))).
Proof.
  split; [reflexivity|]. intros event config isAdmin. split; [|split].
  - destruct (settles_handleEmailTest W (TestData event config isAdmin) st) as (r & Hr & _).
    exists r. split; [exact Hr|].
    exact (ensures_handleEmailTest_code W event config isAdmin st r Hr).
  - intros H. unfold handleEmailTest. rewrite H. reflexivity.
  - intros H. unfold handleEmailTest. rewrite H.
    unfold try_catch, bind, set_transporter. reflexivity.
Qed.

Lemma handleEmailTest_is_for_admins_witness :
  handleEmailTest quiet None cached = (Throw TypeError, cached, [])
  /\ (truthy (VBool false) = false
      /\ handleEmailTest quiet (test_of ∅ site (VBool false)) cached
         = (Ok (TestResponse (Some NEED_LOGIN) (Some MsgLogin) None), cached, []))
  /\ (truthy (VBool true) = true
      /\ handleEmailTest quiet (test_of ∅ site (VBool true)) cached
         = handleEmailTest quiet (test_of ∅ site (VBool true)) fresh)
  /\ (truthy VUndefined = false
      /\ handleEmailTest quiet (Some (TestData None None VUndefined)) cached
         = (Ok (TestResponse (Some NEED_LOGIN) (Some MsgLogin) None), cached, [])).
Proof.
  destruct (handleEmailTest_is_for_admins quiet cached) as (Hnone & H).
  destruct (H (Some ∅) (Some site) (VBool false)) as (_ & Hno & _).
  destruct (H (Some ∅) (Some site) (VBool true)) as (_ & _ & Hyes).
  destruct (H None None VUndefined) as (_ & Hbare & _).
  split; [exact Hnone|].
  split; [split; [reflexivity | exact (Hno eq_refl)]|].
  split; [split; [reflexivity | exact (Hyes eq_refl)]|].
  split; [reflexivity | exact (Hbare eq_refl)].
Defined.

(** X26. The run of the mail test for an administrator, stage by stage.
    With incomplete settings nothing is called, and the transporter is left
    empty.  Otherwise the transport is created and verified anew; a failure
    of either ends the test with that error as the message (the transporter
    is left empty when the creation failed, and in place when only the
    verification failed).  Only after a successful verification is the test
    message sent, from SENDER_EMAIL to the address of the request, the
    owner's or the sender's, in this order of preference; the answer then
    carries the result of the sending, or its error as the message. *)
Theorem handleEmailTest_run W event config isAdmin st :
  truthy isAdmin = true ->
  handleEmailTest W (test_of event config isAdmin) st
  = if smtp_incomplete config then
      test_failed (init_error config) (State None (clock st))
        [Log (ErrMailerInit (init_error config))]
    else
      match respond W (clock st) (CreateTransport (transport_of config)) with
      | Raised msg =>
          test_failed (ErrExternal msg) (State None (S (clock st)))
            [Call (CreateTransport (transport_of config));
             Log (ErrMailerInit (ErrExternal msg))]
      | Returned _ =>
          match respond W (S (clock st)) VerifyTransport with
          | Raised msg =>
              test_failed (ErrSmtpVerify (ErrExternal msg))
                (State (Some (transport_of config)) (S (S (clock st))))
                [Call (CreateTransport (transport_of config)); Call VerifyTransport;
                 Log (ErrMailerInit (ErrSmtpVerify (ErrExternal msg)))]
          | Returned success =>
              match respond W (S (S (clock st))) (test_mail event config) with
              | Raised msg =>
                  test_failed (ErrExternal msg)
                    (State (Some (transport_of config)) (S (S (S (clock st)))))
                    (Call (CreateTransport (transport_of config)) :: Call VerifyTransport
                       :: (if truthy success then [Log LogSmtpOk] else [])
                       ++ [Call (test_mail event config)])%list
              | Returned info =>
                  (Ok (TestResponse None None (Some info)),
                   State (Some (transport_of config)) (S (S (S (clock st)))),
                   (Call (CreateTransport (transport_of config)) :: Call VerifyTransport
                      :: (if truthy success then [Log LogSmtpOk] else [])
                      ++ [Call (test_mail event config)])%list)
              end
          end
      end.
Proof.
  intros Hadmin. unfold handleEmailTest, test_of, test_failed. rewrite Hadmin.
  unfold try_catch at 1. unfold bind at 1 2. unfold set_transporter at 1.
  destruct (smtp_incomplete config) eqn:Hc.
  - rewrite (initMailer_incomplete W config true _ Hc). reflexivity.
  - rewrite (initMailer_complete W config true _ Hc). unfold init_failed.
    cbn [clock transporter].
    destruct (respond W (clock st) (CreateTransport _)) as [created|msg]; [|reflexivity].
    destruct (respond W (S (clock st)) VerifyTransport) as [success|msg]; [|reflexivity].
    unfold bind, get_transporter, external, ret, test_mail. cbn [clock transporter].
    destruct (respond W (S (S (clock st))) _); destruct (truthy success); reflexivity.
Qed.

Lemma handleEmailTest_run_witness :
  truthy (VBool true) = true
  /\ handleEmailTest broken (test_of ∅ site (VBool true)) cached
     = (Ok (TestResponse None (Some (MsgFailed (ErrExternal "down"))) None),
        State None 1,
        [Call (CreateTransport (transport_of site)); Log (ErrMailerInit (ErrExternal "down"))])
  /\ handleEmailTest quiet (test_of (<["mail" := VStr "me@x.org"]> ∅) site (VBool true)) cached
     = (Ok (TestResponse None None (Some VUndefined)),
        State (Some (transport_of site)) 3,
        [Call (CreateTransport (transport_of site)); Call VerifyTransport;
         Call (SendTestMail VUndefined (VStr "me@x.org"))]).
Proof.
  assert (H : truthy (VBool true) = true) by reflexivity.
  split; [exact H|]. split.
  - rewrite (handleEmailTest_run broken ∅ site (VBool true) cached H). reflexivity.
  - rewrite (handleEmailTest_run quiet _ site (VBool true) cached H). reflexivity.
Defined.

(** An administrator's test on data that holds no config, or no event: the
    first ends where [initMailer] reads the settings, the second only when
    the message is put together, after the transport was verified. *)
Example handleEmailTest_on_partial_data :
  handleEmailTest quiet (Some (TestData (Some ∅) None (VBool true))) cached
  = (Ok (TestResponse None (Some (MsgFailed ErrNoConfig)) None), fresh,
     [Log (ErrMailerInit ErrNoConfig)])
  /\ handleEmailTest quiet (Some (TestData None (Some site) (VBool true))) cached
     = (Ok (TestResponse None (Some (MsgFailed TypeError)) None),
        State (Some (transport_of site)) 2,
        [Call (CreateTransport (transport_of site)); Call VerifyTransport]).
Proof. split; vm_compute; reflexivity. Qed.

(** ** The entry point *)

Lemma never_entry_error_dispatch W body : never is_entry_error (dispatch W body).
Proof.
  destruct body as [[[[comment config parentComment]|]|[[event config isAdmin]|]|[mail|]|]|];
    unfold dispatch, handlePostSubmit, resolve_qq_avatar, classify, postCheckSpam,
      qcloud_check, verdict, sendNotice, noticeMaster, noticeReply, noticePushoo, push,
      handleEmailTest, handleGetQQAvatar, initMailer;
    never_tac.
Qed.

(** A [try] around a run that does not throw is that run. *)
Lemma try_settled {A} (m : M A) (h : exn -> M A) st a :
  outcome (m st) = Ok a -> try_catch m h st = m st.
Proof.
  unfold try_catch, outcome. destruct (m st) as [[r st1] ev1]; simpl.
  intros ->. reflexivity.
Qed.

(** With the header and a body that parses, the request is the handler's,
    inside the [try] of the entry point. *)
Lemma onRequestPost_routed W request body st :
  internal_header request = VStr "true" -> json request = Ok body ->
  onRequestPost W request st
  = try_catch (dispatch W body)
      (fun e => console (ErrNodeFunction e) ;; ret (Crashed e)) st.
Proof.
  intros Hin Hbody. unfold onRequestPost. rewrite Hin, Hbody.
  change (negb (is_str (VStr "true") "true")) with false. cbv zeta iota.
  unfold try_catch. rewrite (bind_lift_ok _ body) by reflexivity. reflexivity.
Qed.

(** The answer of a handler that has settled, as the entry point passes it
    on. *)
Lemma dispatch_answer {R} (m : M R) (f : R -> answer) (Q : R -> Prop) st :
  returns Q m ->
  exists r, outcome ((res <- m ;; ret (f res)) st) = Ok (f r) /\ Q r.
Proof.
  intros Hm. destruct (Hm st) as (r & Hr & HQ). exists r.
  split; [|exact HQ]. unfold bind, ret, outcome in *.
  destruct (m st) as [[x st1] ev1]; simpl in *. subst x. reflexivity.
Qed.

(** The code of the answer to a postSubmit request that carries data. *)
Lemma handlePostSubmit_code W comment config parentComment :
  returns (fun r => code_of r = match comment with
                                | None => FAIL
                                | Some comment =>
                                    match wants_qq_avatar comment with
                                    | Ok _ => SUCCESS
                                    | Throw _ => FAIL
                                    end
                                end)
    (handlePostSubmit W (Some (SubmitData comment config parentComment))).
Proof.
  destruct comment as [comment|].
  2:{ intros st. eexists. split; reflexivity. }
  destruct (wants_qq_avatar comment) as [b|e] eqn:Hw.
  - unfold handlePostSubmit. apply returns_try.
    eapply returns_bind; [apply settles_console|]. intros _ _.
    eapply returns_bind; [apply (settles_resolve_qq_avatar W comment b Hw)|]. intros c _.
    eapply returns_bind; [apply settles_classify|]. intros isSpam _.
    eapply returns_bind with (Q1 := fun _ => True).
    { apply settles_try. intros x. apply settles_console. }
    intros _ _. apply returns_ret. reflexivity.
  - intros st. unfold handlePostSubmit, resolve_qq_avatar. rewrite Hw.
    eexists. split; reflexivity.
Qed.

(** The code of the answer to a getQQAvatar request that carries data:
    SUCCESS needs a string that [isQQ] accepts. *)
Lemma handleGetQQAvatar_code W mail :
  returns (fun r => code_of r = match mail, isQQ mail with
                                | VStr _, Ok true => SUCCESS
                                | _, _ => FAIL
                                end)
    (handleGetQQAvatar W (Some mail)).
Proof.
  assert (Hfail : forall e, returns (fun r => code_of r = FAIL)
                              (console (ErrQQAvatar e) ;; ret (Failure FAIL (MsgError e)))).
  { intros e st. eexists. split; reflexivity. }
  unfold handleGetQQAvatar.
  destruct (isQQ mail) as [[|]|e] eqn:Hqq.
  - destruct (as_string mail) as [m|e] eqn:Hm.
    + assert (Hs : mail = VStr m).
      { destruct mail; try discriminate Hm. injection Hm as <-. reflexivity. }
      subst mail. apply returns_try.
      eapply returns_bind_lift; [reflexivity|]. cbn [negb].
      eapply returns_bind_lift; [exact Hm|].
      eapply returns_bind; [apply getQQAvatar_null_or_truthy|]. intros avatar _.
      apply returns_ret. rewrite ?Hqq. reflexivity.
    + intros st. unfold try_catch.
      rewrite (bind_lift_ok _ true) by reflexivity. cbn [negb].
      rewrite (bind_lift_throw _ e) by reflexivity.
      destruct (Hfail e st) as (r & Hr & Hc). exists r. split; [exact Hr|].
      rewrite Hc. destruct mail; try reflexivity. discriminate Hm.
  - intros st. unfold try_catch. rewrite (bind_lift_ok _ false) by reflexivity.
    eexists. split; [reflexivity|]. destruct mail; rewrite ?Hqq; reflexivity.
  - intros st. unfold try_catch. rewrite (bind_lift_throw _ e) by reflexivity.
    destruct (Hfail e st) as (r & Hr & Hc). exists r. split; [exact Hr|].
    rewrite Hc. destruct mail; rewrite ?Hqq; reflexivity.
Qed.

(** X27. Nothing runs without the internal header.  Unless the header
    X-Twikoo-Internal is exactly the string "true", [onRequestPost] answers
    FORBIDDEN at once: the body is not read, no handler runs, nothing is
    called or written, the state is untouched.  Conversely, any other
    answer, and any event, is evidence of the header. *)
Theorem onRequestPost_needs_the_internal_header W request st :
  (internal_header request <> VStr "true" ->
   onRequestPost W request st = (Ok Forbidden, st, []))
  /\ (outcome (onRequestPost W request st) <> Ok Forbidden ->
      internal_header request = VStr "true")
  /\ (events (onRequestPost W request st) <> [] ->
      internal_header request = VStr "true").
Proof.
  assert (H : internal_header request <> VStr "true" ->
              onRequestPost W request st = (Ok Forbidden, st, [])).
  { intros H. unfold onRequestPost. rewrite (is_str_false _ _ H). reflexivity. }
  split; [exact H|].
  assert (Hdec : internal_header request = VStr "true"
                 \/ internal_header request <> VStr "true").
  { destruct (internal_header request) as [| | | |s| |]; try (right; discriminate).
    destruct (String.eqb_spec s "true") as [->|Hne]; [left; reflexivity|].
    right. congruence. }
  split; intros Hrun; destruct Hdec as [Hyes|Hno]; try exact Hyes;
    exfalso; apply Hrun; rewrite (H Hno); reflexivity.
Qed.

Lemma onRequestPost_needs_the_internal_header_witness :
  internal_header
    (HttpRequest (VStr "TRUE") (Ok (Some (PostSubmit (submit visitor site None)))))
  <> VStr "true"
  /\ onRequestPost quiet
       (HttpRequest (VStr "TRUE") (Ok (Some (PostSubmit (submit visitor site None))))) fresh
     = (Ok Forbidden, fresh, []).
Proof.
  assert (H : internal_header
                (HttpRequest (VStr "TRUE")
                   (Ok (Some (PostSubmit (submit visitor site None)))))
              <> VStr "true") by discriminate.
  split; [exact H|].
  destruct (onRequestPost_needs_the_internal_header quiet
              (HttpRequest (VStr "TRUE") (Ok (Some (PostSubmit (submit visitor site None)))))
              fresh)
    as (Hgate & _).
  exact (Hgate H).
Defined.

(** X28. Every request is answered: [onRequestPost] never rejects.  With
    the internal header: a body that cannot be read, a body that is [null],
    and a known action without data (the handler throws while it takes its
    parameter apart) are answered FAIL with the error, after the one error
    line of the entry point and with nothing else done.  A known action
    with data never produces that line, and is answered by its handler: for
    postSubmit with code SUCCESS when the data holds a comment on which the
    test of line 468 can be made, and with FAIL otherwise; for getQQAvatar
    with SUCCESS for a string that [isQQ] accepts, and with FAIL otherwise;
    for emailTest with NEED_LOGIN or no code at all.  Everything else is
    answered with the FAIL of an unknown action, without any effect. *)
Theorem onRequestPost_always_answers W request st :
  (exists a, outcome (onRequestPost W request st) = Ok a)
  /\ (internal_header request = VStr "true" ->
      match json request with
      | Throw e => onRequestPost W request st = entry_failed e st
      | Ok None
      | Ok (Some (PostSubmit None))
      | Ok (Some (EmailTest None))
      | Ok (Some (GetQQAvatar None)) =>
          onRequestPost W request st = entry_failed TypeError st
      | Ok (Some (PostSubmit (Some (SubmitData comment config parentComment)))) =>
          existsb is_entry_error (events (onRequestPost W request st)) = false
          /\ exists r,
               outcome (onRequestPost W request st) = Ok (Handled r)
               /\ code_of r = match comment with
                              | None => FAIL
                              | Some comment =>
                                  match wants_qq_avatar comment with
                                  | Ok _ => SUCCESS
                                  | Throw _ => FAIL
                                  end
                              end
      | Ok (Some (EmailTest (Some (TestData event config isAdmin)))) =>
          existsb is_entry_error (events (onRequestPost W request st)) = false
          /\ exists r,
               outcome (onRequestPost W request st) = Ok (Tested r)
               /\ res_code r = if truthy isAdmin then None else Some NEED_LOGIN
      | Ok (Some (GetQQAvatar (Some mail))) =>
          existsb is_entry_error (events (onRequestPost W request st)) = false
          /\ exists r,
               outcome (onRequestPost W request st) = Ok (Handled r)
               /\ code_of r = match mail, isQQ mail with
                              | VStr _, Ok true => SUCCESS
                              | _, _ => FAIL
                              end
      | Ok (Some OtherAction) => onRequestPost W request st = (Ok UnknownAction, st, [])
      end).
Proof.
  split.
  - assert (H : settles (onRequestPost W request)).
    { unfold onRequestPost. apply settles_try. intros e. settles_tac. }
    destruct (H st) as (a & Ha & _). eauto.
  - intros Hin. destruct (json request) as [body|e] eqn:Hbody.
    2:{ unfold onRequestPost, entry_failed. rewrite Hin, Hbody. reflexivity. }
    pose proof (onRequestPost_routed W request body st Hin Hbody) as Hrun.
    assert (Hhandled : forall a,
               outcome (dispatch W body st) = Ok a ->
               existsb is_entry_error (events (onRequestPost W request st)) = false
               /\ outcome (onRequestPost W request st) = Ok a).
    { intros a Ha. rewrite Hrun, (try_settled _ _ st a Ha).
      split; [apply never_entry_error_dispatch | exact Ha]. }
    destruct body
      as [[[[comment config parentComment]|]|[[event config isAdmin]|]|[mail|]|]|];
      try (rewrite Hrun; reflexivity).
    + destruct (dispatch_answer _ Handled _ st
                  (handlePostSubmit_code W comment config parentComment))
        as (r & Hr & Hc).
      destruct (Hhandled _ Hr) as (Hquiet & Ho). eauto.
    + destruct (dispatch_answer _ Tested _ st
                  (returns_ensures _ _
                     (settles_handleEmailTest W (TestData event config isAdmin))
                     (ensures_handleEmailTest_code W event config isAdmin)))
        as (r & Hr & Hc).
      destruct (Hhandled _ Hr) as (Hquiet & Ho). eauto.
    + destruct (dispatch_answer _ Handled _ st (handleGetQQAvatar_code W mail))
        as (r & Hr & Hc).
      destruct (Hhandled _ Hr) as (Hquiet & Ho). eauto.
Qed.

Lemma onRequestPost_always_answers_witness :
  internal_header unparsable = VStr "true"
  /\ onRequestPost broken unparsable fresh
     = (Ok (Crashed (ErrExternal "Unexpected token")), fresh,
        [Log (ErrNodeFunction (ErrExternal "Unexpected token"))])
  /\ onRequestPost broken (HttpRequest (VStr "true") (Ok (Some OtherAction))) fresh
     = (Ok UnknownAction, fresh, [])
  /\ onRequestPost broken (HttpRequest (VStr "true") (Ok (Some (PostSubmit None)))) fresh
     = (Ok (Crashed TypeError), fresh, [Log (ErrNodeFunction TypeError)])
  /\ outcome
       (onRequestPost broken
          (HttpRequest (VStr "true")
             (Ok (Some (PostSubmit (Some (SubmitData None None None)))))) fresh)
     = Ok (Handled (Failure FAIL (MsgError TypeError))).
Proof.
  split; [reflexivity|]. split; [|split; [|split]].
  - destruct (onRequestPost_always_answers broken unparsable fresh) as (_ & H).
    exact (H eq_refl).
  - destruct (onRequestPost_always_answers broken
                (HttpRequest (VStr "true") (Ok (Some OtherAction))) fresh) as (_ & H).
    exact (H eq_refl).
  - destruct (onRequestPost_always_answers broken
                (HttpRequest (VStr "true") (Ok (Some (PostSubmit None)))) fresh) as (_ & H).
    exact (H eq_refl).
  - destruct (onRequestPost_always_answers broken
                (HttpRequest (VStr "true")
                   (Ok (Some (PostSubmit (Some (SubmitData None None None)))))) fresh)
      as (_ & H).
    destruct (H eq_refl) as (_ & r & Ho & _).
    rewrite Ho. vm_compute in Ho. injection Ho as <-. reflexivity.
Defined.
